(** * Blog-API: a shallow embedding of the comment tree, the post store and
      the pagination layer, with the properties of the specification.

    Sources embedded here:
      - app/core/utils.py      (is_valid_slug, get_summary_from_content)
      - app/core/deps.py       (pagination_params)
      - app/crud/comment.py    (the comment tree engine)
      - app/crud/post.py       (the post store)
      - app/routes/comments.py, app/routes/posts.py, app/routes/users.py

    Conventions of the embedding.
      - A Python [str] is a [string], its characters being those below
        256; [len], slicing, [rfind] and [rstrip] are written out on it.
      - A MongoDB collection is the list of its documents in insertion
        order; a cursor is the list of documents the query selects.
      - A Python exception is the [Raise] case of [result]; [try/except
        Exception] is [try_except].
      - The two recursive functions of the comment tree take a [fuel]
        argument; running out of it is [None] and is not an exception. *)

From Stdlib Require Import List String Ascii Bool Arith ZArith Lia.
From Stdlib Require Import Sorting.Sorted Sorting.Permutation.
Import ListNotations.

Open Scope string_scope.
Open Scope list_scope.
Open Scope nat_scope.

(* ================================================================== *)
(** * Exceptions                                                       *)
(* ================================================================== *)

Module Py.

(** The exceptions the embedded code can meet. [HTTPException] carries the
    status code and the detail text of the source. [InvalidId] is what
    [bson.ObjectId] raises on a malformed string, [StorageError] stands for
    any failure of the storage driver. [RequestValidationError] is FastAPI's
    refusal of a request (422), [ResponseValidationError] its refusal of
    what a route returned for its response model (500). *)
Inductive exn : Type :=
| HTTPException (status_code : nat) (detail : string)
| InvalidId
| StorageError
| RequestValidationError
| ResponseValidationError.

Inductive result (A : Type) : Type :=
| Ok (a : A)
| Raise (e : exn).

Arguments Ok {A} a.
Arguments Raise {A} e.

Definition bind {A B} (m : result A) (k : A -> result B) : result B :=
  match m with
  | Ok a => k a
  | Raise e => Raise e
  end.

(** [try: body  except Exception: handler]. *)
Definition try_except {A} (body : result A) (handler : exn -> result A)
  : result A :=
  match body with
  | Ok a => Ok a
  | Raise e => handler e
  end.

(** Truth value of a string: the empty string is false. *)
Definition truthy (s : string) : bool :=
  match s with
  | EmptyString => false
  | String _ _ => true
  end.

(** Truth value of an [Optional[str]]: [None] and [""] are false. *)
Definition truthy_opt (o : option string) : bool :=
  match o with
  | None => false
  | Some s => truthy s
  end.

(** A keyword argument with a default value. *)
Definition default_arg {A} (d : A) (o : option A) : A :=
  match o with
  | Some a => a
  | None => d
  end.

End Py.

Import Py.

Notation "x <- m ;; k" := (Py.bind m (fun x => k))
  (at level 61, m at next level, right associativity).

Definition HTTP_400_BAD_REQUEST : nat := 400.
Definition HTTP_403_FORBIDDEN : nat := 403.
Definition HTTP_404_NOT_FOUND : nat := 404.
Definition HTTP_500_INTERNAL_SERVER_ERROR : nat := 500.

(* ================================================================== *)
(** * Characters and strings                                           *)
(* ================================================================== *)

Definition code (a : ascii) : nat := nat_of_ascii a.

Definition in_range (lo hi : nat) (a : ascii) : bool :=
  (lo <=? code a) && (code a <=? hi).

Definition is_digit (a : ascii) : bool := in_range 48 57 a.
Definition is_lower (a : ascii) : bool := in_range 97 122 a.
Definition is_upper (a : ascii) : bool := in_range 65 90 a.

Definition to_lower (a : ascii) : ascii :=
  if is_upper a then ascii_of_nat (code a + 32) else a.

Fixpoint string_forallb (p : ascii -> bool) (s : string) : bool :=
  match s with
  | EmptyString => true
  | String a s' => p a && string_forallb p s'
  end.

Fixpoint string_map (f : ascii -> ascii) (s : string) : string :=
  match s with
  | EmptyString => EmptyString
  | String a s' => String (f a) (string_map f s')
  end.

Definition opt_string_eqb (a b : option string) : bool :=
  match a, b with
  | None, None => true
  | Some x, Some y => String.eqb x y
  | _, _ => false
  end.

(* ================================================================== *)
(** * bson.ObjectId                                                    *)
(* ================================================================== *)

(** An ObjectId is a byte string, twelve bytes for the ids storage hands
    out; the embedding keeps it as the lower-case hexadecimal digits [str]
    prints. The constructor takes a string of 24 characters and reads it
    with [bytes.fromhex]; it raises [InvalidId] on a string of another
    length and on one [bytes.fromhex] refuses. *)
Definition oid : Type := string.

Definition is_hex_lower (a : ascii) : bool := is_digit a || in_range 97 102 a.
Definition is_hex (a : ascii) : bool := is_hex_lower a || in_range 65 70 a.

(** The ASCII white space [bytes.fromhex] skips: tab, line feed, vertical
    tab, form feed, carriage return and space. *)
Definition is_ascii_space (a : ascii) : bool :=
  in_range 9 13 a || (code a =? 32).

(** [bytes.fromhex(s).hex()]: two hexadecimal digits per byte, in either
    case, white space skipped before a byte and never inside one; [None]
    is the [ValueError]. *)
Fixpoint fromhex (s : string) : option string :=
  match s with
  | EmptyString => Some EmptyString
  | String a s' =>
      if is_ascii_space a then fromhex s'
      else
        match s' with
        | EmptyString => None
        | String b s'' =>
            if is_hex a && is_hex b
            then option_map
                   (fun h => String (to_lower a) (String (to_lower b) h))
                   (fromhex s'')
            else None
        end
  end.

Definition ObjectId (s : string) : result oid :=
  if String.length s =? 24
  then match fromhex s with
       | Some h => Ok h
       | None => Raise InvalidId
       end
  else Raise InvalidId.

Definition str (o : oid) : string := o.

Definition oid_eqb (a b : oid) : bool := String.eqb a b.

(** The ObjectIds storage hands out. *)
Definition canonical (o : oid) : bool :=
  (String.length o =? 24) && string_forallb is_hex_lower o.


(* ================================================================== *)
(** * Documents and storage                                            *)
(* ================================================================== *)

(** [datetime] values are kept as integer timestamps. *)
Definition datetime : Type := Z.

(** A document of [db.users]; only the fields the embedded code reads. *)
Record user_doc : Type := {
  u_id : oid;
  u_username : option string;
  u_full_name : option string;
  u_bio : option string;
  u_password : option string
}.

(** A document of [db.comments], as [create_comment] inserts it. *)
Record comment_doc : Type := {
  c_id : oid;
  c_content : string;
  c_post_id : string;
  c_parent_id : option string;
  c_author_id : string;
  c_created_at : datetime;
  c_updated_at : datetime
}.

Inductive PostStatus : Type := DRAFT | PUBLISHED | ARCHIVED.

Definition PostStatus_eqb (a b : PostStatus) : bool :=
  match a, b with
  | DRAFT, DRAFT | PUBLISHED, PUBLISHED | ARCHIVED, ARCHIVED => true
  | _, _ => false
  end.

(** A document of [db.posts], as [create_post] inserts it. *)
Record post_doc : Type := {
  p_id : oid;
  p_title : string;
  p_content : string;
  p_summary : string;
  p_tags : list string;
  p_slug : string;
  p_status : PostStatus;
  p_author_id : string;
  p_created_at : datetime;
  p_updated_at : datetime
}.

Record database : Type := {
  comments : list comment_doc;
  users : list user_doc;
  posts : list post_doc
}.

Definition with_comments (db : database) (cs : list comment_doc) : database :=
  {| comments := cs; users := users db; posts := posts db |}.

Definition with_posts (db : database) (ps : list post_doc) : database :=
  {| comments := comments db; users := users db; posts := ps |}.

(** The read operations of the storage handle that the two [get_*_by_id]
    functions use. Each may fail. *)
Record storage : Type := {
  comments_find_one : oid -> result (option comment_doc);
  users_find_one : oid -> result (option user_doc);
  posts_find_one : oid -> result (option post_doc);
  comments_count_documents : string -> result nat
}.

Definition by_id {D} (get_id : D -> oid) (i : oid) (d : D) : bool :=
  oid_eqb (get_id d) i.

Definition child_of (parent_id : string) (c : comment_doc) : bool :=
  opt_string_eqb (c_parent_id c) (Some parent_id).

Definition on_post (post_id : string) (c : comment_doc) : bool :=
  String.eqb (c_post_id c) post_id.

(** [{"parent_id": None}] selects the documents whose field is null. *)
Definition is_root (c : comment_doc) : bool :=
  match c_parent_id c with
  | None => true
  | Some _ => false
  end.

(** The handle of the in-memory database: no operation fails. *)
Definition handle (db : database) : storage := {|
  comments_find_one := fun i => Ok (find (by_id c_id i) (comments db));
  users_find_one := fun i => Ok (find (by_id u_id i) (users db));
  posts_find_one := fun i => Ok (find (by_id p_id i) (posts db));
  comments_count_documents :=
    fun post_id => Ok (List.length (filter (on_post post_id) (comments db)))
|}.

(** [delete_one]: the first matching document goes. *)
Fixpoint remove_first {D} (p : D -> bool) (l : list D) : list D :=
  match l with
  | [] => []
  | d :: l' => if p d then l' else d :: remove_first p l'
  end.

Definition deleted_count {D} (p : D -> bool) (l : list D) : nat :=
  if existsb p l then 1 else 0.

(** [update_one] with [$set]: the first matching document is rewritten. *)
Fixpoint update_first {D} (p : D -> bool) (f : D -> D) (l : list D) : list D :=
  match l with
  | [] => []
  | d :: l' => if p d then f d :: l' else d :: update_first p f l'
  end.

(** [cursor.sort(key, direction)] as a stable insertion sort. *)
Fixpoint insert_by {D} (le : D -> D -> bool) (x : D) (l : list D) : list D :=
  match l with
  | [] => [x]
  | y :: l' => if le x y then x :: l else y :: insert_by le x l'
  end.

Definition sort_by {D} (le : D -> D -> bool) (l : list D) : list D :=
  fold_right (insert_by le) [] l.

Definition created_asc (a b : comment_doc) : bool :=
  (c_created_at a <=? c_created_at b)%Z.

Definition created_desc (a b : comment_doc) : bool :=
  (c_created_at b <=? c_created_at a)%Z.

Definition cursor_skip {D} (n : nat) (l : list D) : list D := skipn n l.

(** [cursor.limit(n)]: a limit of 0 is no limit. *)
Definition cursor_limit {D} (n : nat) (l : list D) : list D :=
  if n =? 0 then l else firstn n l.

(** [async for x in cursor: r = body(x); if r: out.append(r)], where the
    body may run out of fuel. *)
Fixpoint for_append {D B} (body : D -> option (option B)) (cursor : list D)
  : option (list B) :=
  match cursor with
  | [] => Some []
  | x :: rest =>
      match body x with
      | None => None
      | Some r =>
          match for_append body rest with
          | None => None
          | Some out =>
              Some (match r with Some b => b :: out | None => out end)
          end
      end
  end.

(* ================================================================== *)
(** * app/crud/comment.py                                              *)
(* ================================================================== *)

Record author_view : Type := {
  a_id : string;
  a_username : option string;
  a_full_name : option string;
  a_bio : option string
}.

(** The dictionary [get_comment_by_id] returns. [v_author_id] stays when
    no author document was found, [v_replies] and [v_post_title] are the
    keys the listing functions add. *)
#[warnings="-register-all"]
Inductive comment_view : Type := CommentView {
  v_id : string;
  v_content : string;
  v_post_id : string;
  v_parent_id : option string;
  v_author : option author_view;
  v_author_id : option string;
  v_created_at : datetime;
  v_updated_at : datetime;
  v_replies : option (list comment_view);
  v_post_title : option (option string)
}.

Definition set_replies (v : comment_view) (rs : list comment_view) : comment_view :=
  CommentView (v_id v) (v_content v) (v_post_id v) (v_parent_id v) (v_author v)
    (v_author_id v) (v_created_at v) (v_updated_at v) (Some rs) (v_post_title v).

Definition set_post_title (v : comment_view) (t : option string) : comment_view :=
  CommentView (v_id v) (v_content v) (v_post_id v) (v_parent_id v) (v_author v)
    (v_author_id v) (v_created_at v) (v_updated_at v) (v_replies v) (Some t).

Definition public_author (a : user_doc) : author_view := {|
  a_id := str (u_id a);
  a_username := u_username a;
  a_full_name := u_full_name a;
  a_bio := u_bio a
|}.

(** The author lookup shared by [get_comment_by_id] and [get_post_by_id]. *)
Definition lookup_author (s : storage) (author_id : string)
  : result (option user_doc) :=
  if truthy author_id
  then (ai <- ObjectId author_id ;; users_find_one s ai)
  else Ok None.

Definition view_of_comment (c : comment_doc) (author : option user_doc)
  : comment_view := {|
  v_id := str (c_id c);
  v_content := c_content c;
  v_post_id := c_post_id c;
  v_parent_id := c_parent_id c;
  v_author := option_map public_author author;
  v_author_id := match author with
                 | Some _ => None
                 | None => Some (c_author_id c)
                 end;
  v_created_at := c_created_at c;
  v_updated_at := c_updated_at c;
  v_replies := None;
  v_post_title := None
|}.

Definition get_comment_by_id_on (s : storage) (comment_id : string)
  : result (option comment_view) :=
  try_except
    (i <- ObjectId comment_id ;;
     comment <- comments_find_one s i ;;
     match comment with
     | None => Ok None
     | Some c =>
         author <- lookup_author s (c_author_id c) ;;
         Ok (Some (view_of_comment c author))
     end)
    (fun _ => Ok None).

Definition get_comment_by_id (db : database) (comment_id : string)
  : result (option comment_view) :=
  get_comment_by_id_on (handle db) comment_id.

(** The value a caller of [get_comment_by_id] or [get_post_by_id] tests
    with [if not ...]: these functions catch every exception, so the caller
    sees the document or [None]. *)
Definition found {A} (r : result (option A)) : option A :=
  match r with
  | Ok (Some a) => Some a
  | _ => None
  end.

Fixpoint get_comment_replies (fuel : nat) (db : database) (parent_id : string)
  : option (list comment_view) :=
  match fuel with
  | 0 => None
  | S fuel' =>
      let cursor := sort_by created_asc (filter (child_of parent_id) (comments db)) in
      for_append
        (fun comment =>
           match found (get_comment_by_id db (str (c_id comment))) with
           | Some full_comment =>
               match get_comment_replies fuel' db (str (c_id comment)) with
               | None => None
               | Some replies => Some (Some (set_replies full_comment replies))
               end
           | None => Some None
           end)
        cursor
  end.

Definition get_comments_by_post (fuel : nat) (db : database) (post_id : string)
  (limit offset : option nat) (include_replies : option bool)
  : option (list comment_view) :=
  let limit := default_arg 50 limit in
  let offset := default_arg 0 offset in
  let include_replies := default_arg false include_replies in
  let query := fun c =>
    on_post post_id c && (if negb include_replies then is_root c else true) in
  let cursor :=
    cursor_limit limit
      (cursor_skip offset (sort_by created_desc (filter query (comments db)))) in
  for_append
    (fun comment =>
       match found (get_comment_by_id db (str (c_id comment))) with
       | Some full_comment =>
           if include_replies && negb (truthy_opt (c_parent_id comment))
           then match get_comment_replies fuel db (str (c_id comment)) with
                | None => None
                | Some replies => Some (Some (set_replies full_comment replies))
                end
           else Some (Some full_comment)
       | None => Some None
       end)
    cursor.

Definition get_comments_count_by_post (db : database) (post_id : string) : nat :=
  List.length (filter (on_post post_id) (comments db)).

Record CommentCreate : Type := {
  cc_content : string;
  cc_post_id : string;
  cc_parent_id : option string
}.

Record CommentUpdate : Type := {
  upd_content : string
}.

(** [insert_one] appends the document; storage chooses [new_id], the clock
    gives [now]. *)
Definition create_comment (db : database) (comment_data : CommentCreate)
  (author_id : string) (now : datetime) (new_id : oid)
  : result (option comment_view) * database :=
  match
    (pi <- ObjectId (cc_post_id comment_data) ;;
     match find (by_id p_id pi) (posts db) with
     | None => Raise (HTTPException HTTP_404_NOT_FOUND "Post not found")
     | Some _ =>
         match cc_parent_id comment_data with
         | Some parent_id =>
             if truthy parent_id
             then
               ci <- ObjectId parent_id ;;
               match find (fun c => by_id c_id ci c
                                    && on_post (cc_post_id comment_data) c)
                          (comments db) with
               | None =>
                   Raise (HTTPException HTTP_404_NOT_FOUND
                            "Parent comment not found or belongs to different post")
               | Some _ => Ok tt
               end
             else Ok tt
         | None => Ok tt
         end
     end)
  with
  | Raise e => (Raise e, db)
  | Ok _ =>
      let comment_dict := {|
        c_id := new_id;
        c_content := cc_content comment_data;
        c_post_id := cc_post_id comment_data;
        c_parent_id := cc_parent_id comment_data;
        c_author_id := author_id;
        c_created_at := now;
        c_updated_at := now
      |} in
      let db' := with_comments db (comments db ++ [comment_dict]) in
      (get_comment_by_id db' (str new_id), db')
  end.

Definition set_content (content : string) (now : datetime) (c : comment_doc)
  : comment_doc := {|
  c_id := c_id c;
  c_content := content;
  c_post_id := c_post_id c;
  c_parent_id := c_parent_id c;
  c_author_id := c_author_id c;
  c_created_at := c_created_at c;
  c_updated_at := now
|}.

Definition update_comment (db : database) (comment_id : string)
  (comment_data : CommentUpdate) (author_id : string) (now : datetime)
  : result (option comment_view) * database :=
  match ObjectId comment_id with
  | Raise e => (Raise e, db)
  | Ok i =>
      match find (by_id c_id i) (comments db) with
      | None => (Ok None, db)
      | Some comment =>
          if negb (String.eqb (c_author_id comment) author_id)
          then (Raise (HTTPException HTTP_403_FORBIDDEN
                         "You do not have permission to update this comment"), db)
          else
            let db' := with_comments db
              (update_first (by_id c_id i)
                 (set_content (upd_content comment_data) now) (comments db)) in
            (get_comment_by_id db' comment_id, db')
      end
  end.

(** The cursor of [find({"parent_id": parent_id})] is the list of direct
    replies present when the loop starts; the loop body removes only
    documents below the reply it is at, and that reply itself. *)
Fixpoint delete_comment_replies (fuel : nat) (cs : list comment_doc)
  (parent_id : string) : option (result unit * list comment_doc) :=
  match fuel with
  | 0 => None
  | S fuel' =>
      let cursor := filter (child_of parent_id) cs in
      fold_left
        (fun st comment =>
           match st with
           | Some (Ok _, cs1) =>
               let comment_id := str (c_id comment) in
               match delete_comment_replies fuel' cs1 comment_id with
               | Some (Ok _, cs2) =>
                   match ObjectId comment_id with
                   | Ok i => Some (Ok tt, remove_first (by_id c_id i) cs2)
                   | Raise e => Some (Raise e, cs2)
                   end
               | other => other
               end
           | other => other
           end)
        cursor (Some (Ok tt, cs))
  end.

(** One turn of the loop of [delete_comment_replies], with the recursive
    call at [fuel]. *)
Definition delete_reply (fuel : nat)
  (st : option (result unit * list comment_doc)) (comment : comment_doc)
  : option (result unit * list comment_doc) :=
  match st with
  | Some (Ok _, cs1) =>
      let comment_id := str (c_id comment) in
      match delete_comment_replies fuel cs1 comment_id with
      | Some (Ok _, cs2) =>
          match ObjectId comment_id with
          | Ok i => Some (Ok tt, remove_first (by_id c_id i) cs2)
          | Raise e => Some (Raise e, cs2)
          end
      | other => other
      end
  | other => other
  end.

(** The body of the [try] block of [delete_comment]. *)
Definition delete_comment_body (fuel : nat) (db : database) (comment_id : string)
  (author_id : option string) (is_admin : bool)
  : option (result bool * database) :=
  match ObjectId comment_id with
  | Raise e => Some (Raise e, db)
  | Ok i =>
      match find (by_id c_id i) (comments db) with
      | None => Some (Ok false, db)
      | Some comment =>
          if negb is_admin && truthy_opt author_id
             && negb (opt_string_eqb (Some (c_author_id comment)) author_id)
          then Some (Raise (HTTPException HTTP_403_FORBIDDEN
                              "You do not have permission to delete this comment"),
                     db)
          else
            match delete_comment_replies fuel (comments db) comment_id with
            | None => None
            | Some (Raise e, cs) => Some (Raise e, with_comments db cs)
            | Some (Ok _, cs) =>
                match ObjectId comment_id with
                | Raise e => Some (Raise e, with_comments db cs)
                | Ok i' =>
                    Some (Ok (0 <? deleted_count (by_id c_id i') cs),
                          with_comments db (remove_first (by_id c_id i') cs))
                end
            end
      end
  end.

(** [try: body  except Exception: return False]. *)
Definition delete_comment (fuel : nat) (db : database) (comment_id : string)
  (author_id : option string) (is_admin : bool) : option (bool * database) :=
  match delete_comment_body fuel db comment_id author_id is_admin with
  | None => None
  | Some (r, db') =>
      Some (match r with Ok b => b | Raise _ => false end, db')
  end.

Definition post_title_of (db : database) (post_id : string)
  : result (option (option string)) :=
  if truthy post_id
  then
    pi <- ObjectId post_id ;;
    match find (by_id p_id pi) (posts db) with
    | Some post => Ok (Some (Some (p_title post)))
    | None => Ok None
    end
  else Ok None.

(** The loop of [get_user_comments]; an exception of [ObjectId(post_id)]
    leaves the function. *)
Fixpoint user_comments_loop (db : database) (cursor : list comment_doc)
  : result (list comment_view) :=
  match cursor with
  | [] => Ok []
  | comment :: rest =>
      match found (get_comment_by_id db (str (c_id comment))) with
      | Some full_comment =>
          t <- post_title_of db (v_post_id full_comment) ;;
          out <- user_comments_loop db rest ;;
          Ok (match t with
              | Some title => set_post_title full_comment title
              | None => full_comment
              end :: out)
      | None => user_comments_loop db rest
      end
  end.

Definition get_user_comments (db : database) (user_id : string)
  (limit offset : option nat) : result (list comment_view) :=
  let limit := default_arg 20 limit in
  let offset := default_arg 0 offset in
  user_comments_loop db
    (cursor_limit limit
       (cursor_skip offset
          (sort_by created_desc
             (filter (fun c => String.eqb (c_author_id c) user_id) (comments db))))).

Definition get_user_comments_count (db : database) (user_id : string) : nat :=
  List.length (filter (fun c => String.eqb (c_author_id c) user_id) (comments db)).

(* ================================================================== *)
(** * app/routes/comments.py                                           *)
(* ================================================================== *)

(** The dictionary [get_current_user] yields: its ["id"] and ["role"]. *)
Record current_user_t : Type := {
  cu_id : string;
  cu_role : option string
}.

Definition role_is (role : string) (u : current_user_t) : bool :=
  opt_string_eqb (cu_role u) (Some role).

(** [comment.get("author", {}).get("id")]. *)
Definition author_id_of_view (v : comment_view) : option string :=
  option_map a_id (v_author v).

Definition not_found_comment (comment_id : string) : exn :=
  HTTPException HTTP_404_NOT_FOUND
    ("Comment with ID " ++ comment_id ++ " not found").

Definition update_comment_route (db : database) (comment_id : string)
  (comment_data : CommentUpdate) (current_user : current_user_t) (now : datetime)
  : result (option comment_view) * database :=
  match found (get_comment_by_id db comment_id) with
  | None => (Raise (not_found_comment comment_id), db)
  | Some comment =>
      if negb (opt_string_eqb (author_id_of_view comment) (Some (cu_id current_user)))
         && negb (role_is "admin" current_user)
      then (Raise (HTTPException HTTP_403_FORBIDDEN
                     "You do not have permission to update this comment"), db)
      else update_comment db comment_id comment_data (cu_id current_user) now
  end.

Definition delete_comment_route (fuel : nat) (db : database) (comment_id : string)
  (current_user : current_user_t) : option (result unit * database) :=
  match found (get_comment_by_id db comment_id) with
  | None => Some (Raise (not_found_comment comment_id), db)
  | Some comment =>
      let is_author :=
        opt_string_eqb (author_id_of_view comment) (Some (cu_id current_user)) in
      let is_admin := role_is "admin" current_user in
      match delete_comment fuel db comment_id
              (if negb is_admin then Some (cu_id current_user) else None)
              is_admin with
      | None => None
      | Some (success, db') =>
          if negb success
          then Some (Raise (HTTPException HTTP_500_INTERNAL_SERVER_ERROR
                              "Failed to delete comment"), db')
          else Some (Ok tt, db')
      end
  end.

(* ================================================================== *)
(** * app/core/utils.py                                                *)
(* ================================================================== *)

Definition is_slug_char (a : ascii) : bool := is_lower a || is_digit a.

Definition hyphen : ascii := "-"%char.
Definition newline : ascii := "010"%char.
Definition space : ascii := " "%char.

Inductive slug_state : Type := AtStart | InWord | AfterHyphen.

(** [re.match(r"^[a-z0-9]+(?:-[a-z0-9]+)*$", slug)] as the automaton of the
    pattern. [$] is Python's: it matches at the end of the string and also
    just before a newline that ends the string. *)
Fixpoint slug_match (st : slug_state) (s : string) : bool :=
  match s with
  | EmptyString => match st with InWord => true | _ => false end
  | String a s' =>
      if is_slug_char a then slug_match InWord s'
      else
        match st with
        | InWord =>
            if Ascii.eqb a hyphen then slug_match AfterHyphen s'
            else if Ascii.eqb a newline
                 then match s' with EmptyString => true | _ => false end
                 else false
        | _ => false
        end
  end.

Definition is_valid_slug (slug : string) : bool := slug_match AtStart slug.

(** The language of [[a-z0-9]+(-[a-z0-9]+)*], for comparison with the
    automaton. *)
Inductive slug_word : string -> Prop :=
| word_one a : is_slug_char a = true -> slug_word (String a EmptyString)
| word_more a w : is_slug_char a = true -> slug_word w -> slug_word (String a w).

Inductive slug_lang : string -> Prop :=
| lang_word w : slug_word w -> slug_lang w
| lang_more w s : slug_word w -> slug_lang s -> slug_lang (w ++ String hyphen s)%string.

(** What the pattern matches under [re.match]. *)
Definition matches_slug_pattern (s : string) : Prop :=
  slug_lang s \/ exists t, s = (t ++ String newline EmptyString)%string /\ slug_lang t.

(** [s.rfind(c)]: the index of the last occurrence, -1 when there is none. *)
Fixpoint rfind_from (i : Z) (acc : Z) (c : ascii) (s : string) : Z :=
  match s with
  | EmptyString => acc
  | String a s' => rfind_from (i + 1) (if Ascii.eqb a c then i else acc) c s'
  end.

Definition rfind (s : string) (c : ascii) : Z := rfind_from 0 (-1) c s.

(** [str.isspace] on the characters below 256. *)
Definition is_space (a : ascii) : bool :=
  in_range 9 13 a || in_range 28 32 a || (code a =? 133) || (code a =? 160).

(** [s.rstrip()]. *)
Fixpoint rstrip (s : string) : string :=
  match s with
  | EmptyString => EmptyString
  | String a s' =>
      match rstrip s' with
      | EmptyString => if is_space a then EmptyString else String a EmptyString
      | r => String a r
      end
  end.

(** [s[:n]]. *)
Definition slice_to (n : nat) (s : string) : string := substring 0 n s.

Definition ellipsis : string := "...".

Definition get_summary_from_content (content : string) (max_length : option nat)
  : string :=
  let max_length := default_arg 200 max_length in
  if String.length content <=? max_length then content
  else
    let summary := slice_to max_length content in
    let last_space := rfind summary space in
    let summary :=
      if negb (last_space =? -1)%Z
      then slice_to (Z.to_nat last_space) summary
      else summary in
    (rstrip summary ++ ellipsis)%string.

(** The function [slugify] of the python-slugify package, which
    [generate_slug] calls, on ASCII text: letters are lowered, digits kept,
    and every run of other characters separates two words, which a single
    hyphen joins ("Hello World!" gives "hello-world"). The post store below
    takes the slug utility as a parameter; this model serves the examples. *)
Fixpoint slugify_from (started pending : bool) (s : string) : string :=
  match s with
  | EmptyString => EmptyString
  | String a s' =>
      let a' := to_lower a in
      if is_slug_char a'
      then
        if started && pending
        then String hyphen (String a' (slugify_from true false s'))
        else String a' (slugify_from true false s')
      else slugify_from started true s'
  end.

Definition slugify_model (text : string) : string := slugify_from false false text.

(* ================================================================== *)
(** * app/crud/post.py                                                 *)
(* ================================================================== *)

Record post_view : Type := {
  pv_id : string;
  pv_title : string;
  pv_content : string;
  pv_summary : string;
  pv_tags : list string;
  pv_slug : string;
  pv_status : PostStatus;
  pv_author : option author_view;
  pv_author_id : option string;
  pv_created_at : datetime;
  pv_updated_at : datetime;
  pv_comments_count : nat
}.

Definition view_of_post (p : post_doc) (author : option user_doc)
  (comments_count : nat) : post_view := {|
  pv_id := str (p_id p);
  pv_title := p_title p;
  pv_content := p_content p;
  pv_summary := p_summary p;
  pv_tags := p_tags p;
  pv_slug := p_slug p;
  pv_status := p_status p;
  pv_author := option_map public_author author;
  pv_author_id := match author with
                  | Some _ => None
                  | None => Some (p_author_id p)
                  end;
  pv_created_at := p_created_at p;
  pv_updated_at := p_updated_at p;
  pv_comments_count := comments_count
|}.

Definition get_post_by_id_on (s : storage) (post_id : string)
  : result (option post_view) :=
  try_except
    (i <- ObjectId post_id ;;
     post <- posts_find_one s i ;;
     match post with
     | None => Ok None
     | Some p =>
         author <- lookup_author s (p_author_id p) ;;
         comments_count <- comments_count_documents s (str (p_id p)) ;;
         Ok (Some (view_of_post p author comments_count))
     end)
    (fun _ => Ok None).

Definition get_post_by_id (db : database) (post_id : string)
  : result (option post_view) :=
  get_post_by_id_on (handle db) post_id.

Definition status_value (s : PostStatus) : string :=
  match s with
  | DRAFT => "draft"
  | PUBLISHED => "published"
  | ARCHIVED => "archived"
  end.

(** The [filters] dictionary: the keys [get_posts] looks at. *)
Record post_filters : Type := {
  f_status : option string;
  f_tags : option string;
  f_author_id : option string
}.

Definition no_filters : post_filters :=
  {| f_status := None; f_tags := None; f_author_id := None |}.

Definition post_query (filters : post_filters) (p : post_doc) : bool :=
  String.eqb (status_value (p_status p))
    (default_arg (status_value PUBLISHED) (f_status filters))
  && match f_tags filters with
     | Some t => existsb (String.eqb t) (p_tags p)
     | None => true
     end
  && match f_author_id filters with
     | Some a => String.eqb (p_author_id p) a
     | None => true
     end.

Definition post_created_desc (a b : post_doc) : bool :=
  (p_created_at b <=? p_created_at a)%Z.

Definition get_posts (db : database) (limit offset : option nat)
  (filters : option post_filters) : list post_view :=
  let limit := default_arg 10 limit in
  let offset := default_arg 0 offset in
  let query := post_query (default_arg no_filters filters) in
  let cursor :=
    cursor_limit limit
      (cursor_skip offset (sort_by post_created_desc (filter query (posts db)))) in
  flat_map
    (fun post =>
       match found (get_post_by_id db (str (p_id post))) with
       | Some full_post => [full_post]
       | None => []
       end)
    cursor.

Definition get_posts_count (db : database) (filters : option post_filters) : nat :=
  List.length (filter (post_query (default_arg no_filters filters)) (posts db)).

Record PostCreate : Type := {
  pc_title : string;
  pc_content : string;
  pc_summary : option string;
  pc_tags : list string;
  pc_slug : option string;
  pc_status : PostStatus
}.

Record PostUpdate : Type := {
  pu_title : option string;
  pu_content : option string;
  pu_summary : option string;
  pu_tags : option (list string);
  pu_slug : option string;
  pu_status : option PostStatus
}.

Definition invalid_slug : exn :=
  HTTPException HTTP_400_BAD_REQUEST "Invalid slug format".

Definition duplicate_slug : exn :=
  HTTPException HTTP_400_BAD_REQUEST "Post with this slug already exists".

Definition by_slug (slug : string) (p : post_doc) : bool :=
  String.eqb (p_slug p) slug.

Section PostStore.

(** The slug utility of the python-slugify package, an external
    collaborator of the post store. *)
Variable slugify : string -> string.

Definition generate_slug (text : string) : string := slugify text.

(** The slug [create_post] settles on, before the uniqueness check. *)
Definition create_slug (post_data : PostCreate) : result string :=
  if negb (truthy_opt (pc_slug post_data))
  then Ok (generate_slug (pc_title post_data))
  else
    let slug := default_arg "" (pc_slug post_data) in
    if negb (is_valid_slug slug) then Raise invalid_slug else Ok slug.

Definition create_post (db : database) (post_data : PostCreate)
  (author_id : string) (now : datetime) (new_id : oid)
  : result (option post_view) * database :=
  match
    (slug <- create_slug post_data ;;
     match find (by_slug slug) (posts db) with
     | Some _ => Raise duplicate_slug
     | None => Ok slug
     end)
  with
  | Raise e => (Raise e, db)
  | Ok slug =>
      let summary :=
        if negb (truthy_opt (pc_summary post_data))
        then get_summary_from_content (pc_content post_data) None
        else default_arg "" (pc_summary post_data) in
      let post_dict := {|
        p_id := new_id;
        p_title := pc_title post_data;
        p_content := pc_content post_data;
        p_summary := summary;
        p_tags := pc_tags post_data;
        p_slug := slug;
        p_status := pc_status post_data;
        p_author_id := author_id;
        p_created_at := now;
        p_updated_at := now
      |} in
      let db' := with_posts db (posts db ++ [post_dict]) in
      (get_post_by_id db' (str new_id), db')
  end.

(** [update_data.get("title") or post.get("title")]. *)
Definition title_for_slug (post_data : PostUpdate) (post : post_doc) : string :=
  match pu_title post_data with
  | Some t => if truthy t then t else p_title post
  | None => p_title post
  end.

(** The ["slug"] entry of [update_data] after the slug block of
    [update_post]: [None] when the patch carries no slug. *)
Definition update_slug (db : database) (post_data : PostUpdate) (post : post_doc)
  : result (option string) :=
  match pu_slug post_data with
  | None => Ok None
  | Some s =>
      slug <- (if negb (truthy s)
               then Ok (generate_slug (title_for_slug post_data post))
               else if negb (is_valid_slug s) then Raise invalid_slug
                    else Ok s) ;;
      if negb (String.eqb slug (p_slug post))
      then match find (by_slug slug) (posts db) with
           | Some _ => Raise duplicate_slug
           | None => Ok (Some slug)
           end
      else Ok (Some slug)
  end.

(** [$set] of the entries of [update_data] on a post. *)
Definition apply_update (post_data : PostUpdate) (slug : option string)
  (now : datetime) (p : post_doc) : post_doc := {|
  p_id := p_id p;
  p_title := default_arg (p_title p) (pu_title post_data);
  p_content := default_arg (p_content p) (pu_content post_data);
  p_summary :=
    match pu_summary post_data, pu_content post_data with
    | Some s, _ => s
    | None, Some content => get_summary_from_content content None
    | None, None => p_summary p
    end;
  p_tags := default_arg (p_tags p) (pu_tags post_data);
  p_slug := default_arg (p_slug p) slug;
  p_status := default_arg (p_status p) (pu_status post_data);
  p_author_id := p_author_id p;
  p_created_at := p_created_at p;
  p_updated_at := now
|}.

Definition update_post (db : database) (post_id : string)
  (post_data : PostUpdate) (author_id : option string) (now : datetime)
  : result (option post_view) * database :=
  match ObjectId post_id with
  | Raise e => (Raise e, db)
  | Ok i =>
      match find (by_id p_id i) (posts db) with
      | None => (Ok None, db)
      | Some post =>
          if truthy_opt author_id
             && negb (opt_string_eqb (Some (p_author_id post)) author_id)
          then (Raise (HTTPException HTTP_403_FORBIDDEN
                         "You do not have permission to update this post"), db)
          else
            match update_slug db post_data post with
            | Raise e => (Raise e, db)
            | Ok slug =>
                let db' := with_posts db
                  (update_first (by_id p_id i)
                     (apply_update post_data slug now) (posts db)) in
                (get_post_by_id db' post_id, db')
            end
      end
  end.

End PostStore.

(* ================================================================== *)
(** * app/core/deps.py and the listing routes                          *)
(* ================================================================== *)

Record pagination : Type := {
  pg_limit : Z;
  pg_offset : Z
}.

(** [limit: Annotated[int, Query(10, ge=1, le=100)]] and
    [offset: Annotated[int, Query(0, ge=0)]]: the values 10 and 0 are
    written inside [Query(...)] under [Annotated], and the parameters have
    no [=] default. FastAPI takes no default from there: it refuses such a
    declaration by an assertion, and where assertions are off it treats the
    parameter as required. So a request is admitted only when it carries
    both parameters, each within its bounds; every other request is refused
    with a validation error before the route body runs. *)
Definition pagination_params (limit offset : option Z) : result pagination :=
  match limit, offset with
  | Some limit, Some offset =>
      if negb ((1 <=? limit)%Z && (limit <=? 100)%Z)
      then Raise RequestValidationError
      else if negb (0 <=? offset)%Z then Raise RequestValidationError
      else Ok {| pg_limit := limit; pg_offset := offset |}
  | _, _ => Raise RequestValidationError
  end.

(** [post_filter_params]: [status], [tag] and [author_id] are declared
    [Annotated[str, Query(None)]], again without [=] default, so a request
    has to carry all three; an empty one is left out of the filter. *)
Definition post_filter_params (status tag author_id : option string)
  : result post_filters :=
  match status, tag, author_id with
  | Some status, Some tag, Some author_id =>
      Ok {| f_status := if truthy status then Some status else None;
            f_tags := if truthy tag then Some tag else None;
            f_author_id := if truthy author_id then Some author_id else None |}
  | _, _, _ => Raise RequestValidationError
  end.

(** The [PostList] and [CommentList] answers. *)
Record listing (A : Type) : Type := {
  l_total : nat;
  l_limit : Z;
  l_offset : Z;
  l_items : list A
}.

Arguments l_total {A} _.
Arguments l_limit {A} _.
Arguments l_offset {A} _.
Arguments l_items {A} _.

Definition not_found_post (post_id : string) : exn :=
  HTTPException HTTP_404_NOT_FOUND ("Post with ID " ++ post_id ++ " not found").

(** [GET /posts]. *)
Definition get_posts_route (db : database) (limit offset : option Z)
  (status tag author_id : option string) : result (listing post_view) :=
  pg <- pagination_params limit offset ;;
  filters <- post_filter_params status tag author_id ;;
  let posts :=
    get_posts db (Some (Z.to_nat (pg_limit pg))) (Some (Z.to_nat (pg_offset pg)))
      (Some filters) in
  let total := get_posts_count db (Some filters) in
  Ok {| l_total := total; l_limit := pg_limit pg; l_offset := pg_offset pg;
        l_items := posts |}.

(** The response model [Comment] of app/models/comment.py, with its
    [CommentAuthor]. *)
Record CommentAuthor : Type := {
  ca_id : string;
  ca_username : string;
  ca_full_name : option string;
  ca_bio : option string
}.

Record Comment : Type := {
  cm_content : string;
  cm_post_id : string;
  cm_id : string;
  cm_author : CommentAuthor;
  cm_parent_id : option string;
  cm_created_at : datetime;
  cm_updated_at : datetime
}.

(** What [response_model=CommentList] makes of one item the route hands
    back: the fields of [Comment] are kept and every other key of the
    dictionary ([replies], [post_title], [author_id]) is dropped; an item
    without [author], with an author without [username], or with an empty
    [content] ([min_length=1]) does not validate. *)
Definition as_comment (v : comment_view) : result Comment :=
  match v_author v with
  | Some a =>
      match a_username a with
      | Some username =>
          if truthy (v_content v)
          then Ok {| cm_content := v_content v;
                     cm_post_id := v_post_id v;
                     cm_id := v_id v;
                     cm_author := {| ca_id := a_id a; ca_username := username;
                                     ca_full_name := a_full_name a;
                                     ca_bio := a_bio a |};
                     cm_parent_id := v_parent_id v;
                     cm_created_at := v_created_at v;
                     cm_updated_at := v_updated_at v |}
          else Raise ResponseValidationError
      | None => Raise ResponseValidationError
      end
  | None => Raise ResponseValidationError
  end.

Fixpoint as_comments (vs : list comment_view) : result (list Comment) :=
  match vs with
  | [] => Ok []
  | v :: rest =>
      c <- as_comment v ;;
      out <- as_comments rest ;;
      Ok (c :: out)
  end.

(** [GET /posts/{post_id}/comments], [response_model=CommentList].
    [include_replies] is declared [Annotated[bool, Query(False)] = False]
    and is [False] when the request leaves it out. *)
Definition get_post_comments (fuel : nat) (db : database) (post_id : string)
  (limit offset : option Z) (include_replies : option bool)
  : option (result (listing Comment)) :=
  match pagination_params limit offset with
  | Raise e => Some (Raise e)
  | Ok pg =>
      let include_replies := default_arg false include_replies in
      match found (get_post_by_id db post_id) with
      | None => Some (Raise (not_found_post post_id))
      | Some _ =>
          match get_comments_by_post fuel db post_id
                  (Some (Z.to_nat (pg_limit pg))) (Some (Z.to_nat (pg_offset pg)))
                  (Some include_replies) with
          | None => None
          | Some comments =>
              let total := get_comments_count_by_post db post_id in
              Some (items <- as_comments comments ;;
                    Ok {| l_total := total; l_limit := pg_limit pg;
                          l_offset := pg_offset pg; l_items := items |})
          end
      end
  end.

(** [GET /users/me/comments], [response_model=CommentList]. *)
Definition read_users_me_comments (db : database) (current_user : current_user_t)
  (limit offset : option Z) : result (listing Comment) :=
  pg <- pagination_params limit offset ;;
  let user_id := cu_id current_user in
  comments <- get_user_comments db user_id
                (Some (Z.to_nat (pg_limit pg))) (Some (Z.to_nat (pg_offset pg))) ;;
  let total := get_user_comments_count db user_id in
  items <- as_comments comments ;;
  Ok {| l_total := total; l_limit := pg_limit pg; l_offset := pg_offset pg;
        l_items := items |}.

(* ================================================================== *)
(** * Notions the properties are stated with                           *)
(* ================================================================== *)

(** ** The comment forest *)

(** [in_chain cs x r]: the queries of the comment tree reach [r] from the
    id string [x]. They select the replies to an id by
    [find({"parent_id": x})], which compares the stored [parent_id] with
    the string [x]; so the chain follows the stored [parent_id] strings,
    from [r] up through the stored comments [cs], each compared with the
    rendering [str(_id)] of the next comment, until one equals [x]. *)
Inductive in_chain (cs : list comment_doc) (x : string) : comment_doc -> Prop :=
| chain_parent r :
    c_parent_id r = Some x -> in_chain cs x r
| chain_up r q :
    In q cs -> c_parent_id r = Some (str (c_id q)) -> in_chain cs x q ->
    in_chain cs x r.

(** The same, computed by walking up at most [fuel] parents. *)
Fixpoint in_chainb (fuel : nat) (cs : list comment_doc) (x : string)
  (r : comment_doc) : bool :=
  match fuel with
  | 0 => false
  | S fuel' =>
      match c_parent_id r with
      | None => false
      | Some p =>
          String.eqb p x
          || match find (fun q => String.eqb (str (c_id q)) p) cs with
             | Some q => in_chainb fuel' cs x q
             | None => false
             end
      end
  end.

(** The stored comments the queries reach from the id string [x]. *)
Definition descendants (cs : list comment_doc) (x : string) : list comment_doc :=
  filter (in_chainb (List.length cs) cs x) cs.

Fixpoint nodupb (l : list string) : bool :=
  match l with
  | [] => true
  | x :: l' => negb (existsb (String.eqb x) l') && nodupb l'
  end.

(** No comment is the parent of itself or of a comment stored before it:
    [create_comment] requires the parent to exist already. *)
Fixpoint parents_first (cs : list comment_doc) : bool :=
  match cs with
  | [] => true
  | c :: rest =>
      forallb (fun q => negb (child_of (str (c_id q)) c)) (c :: rest)
      && parents_first rest
  end.

(** The state of [db.comments] that insertions and deletions maintain:
    ids are ObjectIds, pairwise different, and parents come first. *)
Definition comments_wf (cs : list comment_doc) : bool :=
  forallb (fun c => canonical (c_id c)) cs
  && nodupb (map c_id cs)
  && parents_first cs.

(** [author_id] is the id of a user, so [ObjectId] accepts it. *)
Definition readable_author (c : comment_doc) : bool :=
  negb (truthy (c_author_id c))
  || match ObjectId (c_author_id c) with Ok _ => true | Raise _ => false end.

Definition authors_readable (cs : list comment_doc) : bool :=
  forallb readable_author cs.

(** Position of the first comment with id [i]. *)
Fixpoint rank (cs : list comment_doc) (i : string) : nat :=
  match cs with
  | [] => 0
  | c :: rest => if String.eqb (str (c_id c)) i then 0 else S (rank rest i)
  end.

(** A parent has a smaller rank than its replies. *)
Definition ranked (rk : string -> nat) (cs : list comment_doc) : Prop :=
  forall q r, In q cs -> In r cs ->
    c_parent_id r = Some (str (c_id q)) -> rk (str (c_id q)) < rk (str (c_id r)).

Definition forest (rk : string -> nat) (bound : nat) (cs : list comment_doc) : Prop :=
  NoDup (map c_id cs)
  /\ Forall (fun c => canonical (c_id c) = true) cs
  /\ ranked rk cs
  /\ (forall r, In r cs -> rk (str (c_id r)) < bound).

(** What a recursive call of [delete_comment_replies] does on a store
    [filter g cs] the loop can hand it: it removes the comments whose chain
    contains the id of [c]. *)
Definition recursive_call_ok (cs : list comment_doc) (fuel : nat)
  (c : comment_doc) : Prop :=
  forall g, exists keep,
    delete_comment_replies fuel (filter g cs) (str (c_id c))
    = Some (Ok tt, filter keep (filter g cs))
    /\ forall r, In r (filter g cs) ->
         (keep r = false <-> in_chain (filter g cs) (str (c_id c)) r).

(** ** Reply trees *)

(** A view and everything nested in its [replies], parents first. *)
Fixpoint flatten_view (v : comment_view) : list comment_view :=
  match v with
  | CommentView _ _ _ _ _ _ _ _ replies _ =>
      v :: match replies with
           | Some rs => flat_map flatten_view rs
           | None => []
           end
  end.

Definition flatten (vs : list comment_view) : list comment_view :=
  flat_map flatten_view vs.

Definition view_asc (a b : comment_view) : Prop :=
  (v_created_at a <= v_created_at b)%Z.


(** The result of [get_comment_replies db x] measured against the
    queries: flattened, it holds exactly the stored comments reached from
    the id string [x], and the replies are in ascending [created_at] order
    at every level. *)
Definition replies_of (db : database) (x : string) (replies : list comment_view)
  : Prop :=
  (forall v, In v (flatten replies) ->
     exists c, In c (comments db) /\ in_chain (comments db) x c
               /\ v_id v = str (c_id c))
  /\ (forall c, In c (comments db) -> in_chain (comments db) x c ->
        exists v, In v (flatten replies) /\ v_id v = str (c_id c))
  /\ StronglySorted view_asc replies
  /\ (forall v rs, In v (flatten replies) -> v_replies v = Some rs ->
        StronglySorted view_asc rs).

(** The view [get_comment_by_id] builds for a stored comment. *)
Definition author_of (db : database) (c : comment_doc) : option user_doc :=
  if truthy (c_author_id c)
  then match ObjectId (c_author_id c) with
       | Ok ai => find (by_id u_id ai) (users db)
       | Raise _ => None
       end
  else None.

Definition stored_view (db : database) (c : comment_doc) : comment_view :=
  view_of_comment c (author_of db c).

(** ** Permissions *)

(** The test of [delete_comment] that raises 403. *)
Definition delete_forbidden (comment : comment_doc) (author_id : option string)
  (is_admin : bool) : bool :=
  negb is_admin && truthy_opt author_id
  && negb (opt_string_eqb (Some (c_author_id comment)) author_id).

(** The test of [update_post] that raises 403. *)
Definition update_forbidden (post : post_doc) (author_id : option string) : bool :=
  truthy_opt author_id
  && negb (opt_string_eqb (Some (p_author_id post)) author_id).

(** ** Slugs *)

Definition slugs_unique (ps : list post_doc) : Prop :=
  NoDup (map p_slug ps).

(* ================================================================== *)
(** * A small database for the examples                                *)
(* ================================================================== *)

Module Sample.

Definition alice_id : oid := "0000000000000000000000a1".
Definition bob_id : oid := "0000000000000000000000b2".
Definition carol_id : oid := "0000000000000000000000c3".
Definition post_id : oid := "0000000000000000000000f1".
Definition c1_id : oid := "0000000000000000000000c1".
Definition c2_id : oid := "0000000000000000000000c2".
Definition c3_id : oid := "0000000000000000000000c3".
Definition c4_id : oid := "0000000000000000000000c4".

Definition user (i : oid) (name : string) : user_doc := {|
  u_id := i; u_username := Some name; u_full_name := None; u_bio := None;
  u_password := Some "hash"
|}.

Definition comment (i : oid) (parent : option string) (author : string)
  (t : datetime) : comment_doc := {|
  c_id := i; c_content := "text"; c_post_id := str post_id;
  c_parent_id := parent; c_author_id := author;
  c_created_at := t; c_updated_at := t
|}.

(** Alice's root comment [c1], Bob's reply [c2] to it, Alice's reply [c3]
    to [c2], and Bob's root comment [c4]. *)
Definition c1 : comment_doc := comment c1_id None (str alice_id) 1%Z.
Definition c2 : comment_doc := comment c2_id (Some (str c1_id)) (str bob_id) 2%Z.
Definition c3 : comment_doc := comment c3_id (Some (str c2_id)) (str alice_id) 3%Z.
Definition c4 : comment_doc := comment c4_id None (str bob_id) 4%Z.

Definition the_post : post_doc := {|
  p_id := post_id; p_title := "Hello World!"; p_content := "content";
  p_summary := "content"; p_tags := []; p_slug := "hello-world";
  p_status := PUBLISHED; p_author_id := str alice_id;
  p_created_at := 0%Z; p_updated_at := 0%Z
|}.

Definition db : database := {|
  comments := [c1; c2; c3; c4];
  users := [user alice_id "alice"; user bob_id "bob"; user carol_id "carol"];
  posts := [the_post]
|}.

(** The id of [c1] spelled with an upper-case digit: [ObjectId] reads it as
    the same id, as a string it differs from every stored [parent_id]. *)
Definition c1_id_upper : string := "0000000000000000000000C1".

Definition alice : current_user_t := {| cu_id := str alice_id; cu_role := Some "user" |}.
Definition bob : current_user_t := {| cu_id := str bob_id; cu_role := Some "user" |}.
Definition carol_admin : current_user_t :=
  {| cu_id := str carol_id; cu_role := Some "admin" |}.

End Sample.

(* ================================================================== *)
(** * The specification's wording of some properties                  *)
(* ================================================================== *)

(** Idempotent delete as the specification words it: two calls in a row
    on the same id both report success. *)
Definition delete_twice_succeeds (fuel : nat) (db : database) (comment_id : string)
  (author_id : option string) (is_admin : bool) : Prop :=
  exists db1 db2,
    delete_comment fuel db comment_id author_id is_admin = Some (true, db1)
    /\ delete_comment fuel db1 comment_id author_id is_admin = Some (true, db2).

Definition forbidden_update : exn :=
  HTTPException HTTP_403_FORBIDDEN
    "You do not have permission to update this comment".

Definition failed_delete : exn :=
  HTTPException HTTP_500_INTERNAL_SERVER_ERROR "Failed to delete comment".




(** The default of the comment listing of a post as the specification
    words it: a request that supplies no [limit] is answered with the
    effective limit 50. *)
Definition post_comments_default_is_50 (fuel : nat) (db : database)
  (post_id : string) : Prop :=
  exists l,
    get_post_comments fuel db post_id None (Some 0%Z) None = Some (Ok l)
    /\ l_limit l = 50%Z.

Definition no_space (s : string) : bool :=
  string_forallb (fun a => negb (Ascii.eqb a space)) s.

(** The derived summary as the specification words it: always some prefix
    of the content, at most 200 characters long, followed by the ellipsis. *)
Definition summary_is_cut_prefix (content : string) : Prop :=
  exists p,
    get_summary_from_content content None = (p ++ ellipsis)%string
    /\ String.prefix p content = true
    /\ String.length p <= 200.

Fixpoint string_repeat (n : nat) (s : string) : string :=
  match n with
  | 0 => EmptyString
  | S n' => (s ++ string_repeat n' s)%string
  end.

(** A content of 250 characters: fifty times "abcd ". *)
Definition content_250 : string := string_repeat 50 "abcd ".

(** ** States of the comment store *)

(** One call of [create_comment], [update_comment] or [delete_comment].
    Storage hands out an ObjectId that was never used, so no stored
    document has it as id or refers to it; the routes pass the id of the
    current user as [author_id]; the recursion of the delete has fuel for
    the store. *)
Inductive comment_op : database -> database -> Prop :=
| cop_create db comment_data author_id now new_id :
    canonical new_id = true ->
    ~ In new_id (map c_id (comments db)) ->
    (forall r, In r (comments db) -> c_parent_id r <> Some (str new_id)) ->
    canonical author_id = true ->
    comment_op db (snd (create_comment db comment_data author_id now new_id))
| cop_update db comment_id comment_data author_id now :
    comment_op db (snd (update_comment db comment_id comment_data author_id now))
| cop_delete fuel db comment_id author_id is_admin success db' :
    List.length (comments db) < fuel ->
    delete_comment fuel db comment_id author_id is_admin = Some (success, db') ->
    comment_op db db'.

Inductive reachable_comments : database -> Prop :=
| creach_empty db : comments db = [] -> reachable_comments db
| creach_step db db' :
    reachable_comments db -> comment_op db db' -> reachable_comments db'.

(** ** States of the post store *)

(** One call of [create_post] or [update_post], with any arguments. *)
Inductive post_op (slugify : string -> string) : database -> database -> Prop :=
| op_create db post_data author_id now new_id :
    post_op slugify db
      (snd (create_post slugify db post_data author_id now new_id))
| op_update db post_id post_data author_id now :
    post_op slugify db
      (snd (update_post slugify db post_id post_data author_id now)).

(** The states reached from a store without posts. *)
Inductive reachable (slugify : string -> string) : database -> Prop :=
| reach_empty db : posts db = [] -> reachable slugify db
| reach_step db db' :
    reachable slugify db -> post_op slugify db db' -> reachable slugify db'.

(** Where a stored slug comes from: it passed [is_valid_slug], or the slug
    utility derived it from a title. *)
Definition slug_origin (slugify : string -> string) (s : string) : Prop :=
  is_valid_slug s = true \/ exists title, s = slugify title.

Definition empty_db : database := {| comments := []; users := []; posts := [] |}.

Definition hello_world (slug : option string) : PostCreate := {|
  pc_title := "Hello World!"; pc_content := "content"; pc_summary := None;
  pc_tags := []; pc_slug := slug; pc_status := DRAFT
|}.

Definition punctuation_only : PostCreate := {|
  pc_title := "!!!"; pc_content := "content"; pc_summary := None;
  pc_tags := []; pc_slug := None; pc_status := DRAFT
|}.

(** The store after "Hello World!" was posted to the empty one. *)
Definition hello_db : database :=
  snd (create_post slugify_model empty_db (hello_world None)
         "0000000000000000000000a1" 0%Z "0000000000000000000000f1").

(* ================================================================== *)
(** * More of app/crud/post.py                                         *)
(* ================================================================== *)

Definition get_post_by_slug (db : database) (slug : string)
  : result (option post_view) :=
  match find (by_slug slug) (posts db) with
  | None => Ok None
  | Some post => get_post_by_id db (str (p_id post))
  end.

Definition forbidden_post_delete : exn :=
  HTTPException HTTP_403_FORBIDDEN
    "You do not have permission to delete this post".

Definition forbidden_post_update : exn :=
  HTTPException HTTP_403_FORBIDDEN
    "You do not have permission to update this post".

(** [db.comments.delete_many({"post_id": post_id})]. *)
Definition delete_comments_of (post_id : string) (cs : list comment_doc)
  : list comment_doc :=
  filter (fun c => negb (on_post post_id c)) cs.

(** The body of the [try] block of [delete_post]. *)
Definition delete_post_body (db : database) (post_id : string)
  (author_id : option string) : result bool * database :=
  match ObjectId post_id with
  | Raise e => (Raise e, db)
  | Ok i =>
      match find (by_id p_id i) (posts db) with
      | None => (Ok false, db)
      | Some post =>
          if truthy_opt author_id
             && negb (opt_string_eqb (Some (p_author_id post)) author_id)
          then (Raise forbidden_post_delete, db)
          else
            let db1 := with_comments db (delete_comments_of post_id (comments db)) in
            match ObjectId post_id with
            | Raise e => (Raise e, db1)
            | Ok i' =>
                (Ok (0 <? deleted_count (by_id p_id i') (posts db1)),
                 with_posts db1 (remove_first (by_id p_id i') (posts db1)))
            end
      end
  end.

(** [try: body  except Exception: return False]. *)
Definition delete_post (db : database) (post_id : string)
  (author_id : option string) : bool * database :=
  match delete_post_body db post_id author_id with
  | (Ok b, db') => (b, db')
  | (Raise _, db') => (false, db')
  end.

(* ================================================================== *)
(** * app/routes/posts.py                                              *)
(* ================================================================== *)

Section PostRoutes.

Variable slugify : string -> string.

Definition create_post_route (db : database) (post_data : PostCreate)
  (current_user : current_user_t) (now : datetime) (new_id : oid)
  : result (option post_view) * database :=
  create_post slugify db post_data (cu_id current_user) now new_id.

(** [post.get("author", {}).get("id")]. *)
Definition author_id_of_post_view (v : post_view) : option string :=
  option_map a_id (pv_author v).

(** [current_user.get("role") in ["editor", "admin"]]. *)
Definition is_editor_or_admin (u : current_user_t) : bool :=
  match cu_role u with
  | Some r => existsb (String.eqb r) ["editor"; "admin"]
  | None => false
  end.

Definition update_post_route (db : database) (post_id : string)
  (post_data : PostUpdate) (current_user : current_user_t) (now : datetime)
  : result (option post_view) * database :=
  match found (get_post_by_id db post_id) with
  | None => (Raise (not_found_post post_id), db)
  | Some post =>
      let is_author :=
        opt_string_eqb (author_id_of_post_view post) (Some (cu_id current_user)) in
      let is_editor_or_admin := is_editor_or_admin current_user in
      if negb is_author && negb is_editor_or_admin
      then (Raise forbidden_post_update, db)
      else update_post slugify db post_id post_data
             (if negb is_editor_or_admin then Some (cu_id current_user) else None)
             now
  end.

End PostRoutes.

Definition get_post_by_id_route (db : database) (post_id : string)
  : result post_view :=
  match found (get_post_by_id db post_id) with
  | None => Raise (not_found_post post_id)
  | Some post => Ok post
  end.

Definition not_found_slug (slug : string) : exn :=
  HTTPException HTTP_404_NOT_FOUND ("Post with slug '" ++ slug ++ "' not found").

Definition get_post_by_slug_route (db : database) (slug : string)
  : result post_view :=
  match found (get_post_by_slug db slug) with
  | None => Raise (not_found_slug slug)
  | Some post => Ok post
  end.

Definition failed_post_delete : exn :=
  HTTPException HTTP_500_INTERNAL_SERVER_ERROR "Failed to delete post".

Definition delete_post_route (db : database) (post_id : string)
  (current_user : current_user_t) : result unit * database :=
  match found (get_post_by_id db post_id) with
  | None => (Raise (not_found_post post_id), db)
  | Some post =>
      let is_author :=
        opt_string_eqb (author_id_of_post_view post) (Some (cu_id current_user)) in
      let is_editor_or_admin := is_editor_or_admin current_user in
      if negb is_author && negb is_editor_or_admin
      then (Raise forbidden_post_delete, db)
      else
        let (success, db') :=
          delete_post db post_id
            (if negb is_editor_or_admin then Some (cu_id current_user) else None) in
        if negb success then (Raise failed_post_delete, db') else (Ok tt, db')
  end.

(* ================================================================== *)
(** * More of app/routes/comments.py and app/routes/users.py           *)
(* ================================================================== *)

Definition create_comment_route (db : database) (comment_data : CommentCreate)
  (current_user : current_user_t) (now : datetime) (new_id : oid)
  : result (option comment_view) * database :=
  create_comment db comment_data (cu_id current_user) now new_id.

Definition get_comment_route (db : database) (comment_id : string)
  : result comment_view :=
  match found (get_comment_by_id db comment_id) with
  | None => Raise (not_found_comment comment_id)
  | Some comment => Ok comment
  end.

(** [GET /comments/{comment_id}/replies]: [{**comment, "replies": replies}]. *)
Definition get_comment_with_replies_route (fuel : nat) (db : database)
  (comment_id : string) : option (result comment_view) :=
  match found (get_comment_by_id db comment_id) with
  | None => Some (Raise (not_found_comment comment_id))
  | Some comment =>
      match get_comment_replies fuel db comment_id with
      | None => None
      | Some replies => Some (Ok (set_replies comment replies))
      end
  end.

(** [GET /users/me/posts]: the filter is [{"author_id": user_id}]. *)
Definition read_users_me_posts (db : database) (current_user : current_user_t)
  (limit offset : option Z) : result (listing post_view) :=
  pg <- pagination_params limit offset ;;
  let user_id := cu_id current_user in
  let filters :=
    {| f_status := None; f_tags := None; f_author_id := Some user_id |} in
  let posts :=
    get_posts db (Some (Z.to_nat (pg_limit pg))) (Some (Z.to_nat (pg_offset pg)))
      (Some filters) in
  let total := get_posts_count db (Some filters) in
  Ok {| l_total := total; l_limit := pg_limit pg; l_offset := pg_offset pg;
        l_items := posts |}.

(* ================================================================== *)
(** * Notions for the further properties                               *)
(* ================================================================== *)


(** The state of [db.posts] insertions maintain: ids are ObjectIds and
    pairwise different, author ids are ObjectId strings. *)
Definition readable_post_author (p : post_doc) : bool :=
  negb (truthy (p_author_id p))
  || match ObjectId (p_author_id p) with Ok _ => true | Raise _ => false end.

Definition posts_wf (ps : list post_doc) : bool :=
  forallb (fun p => canonical (p_id p)) ps
  && nodupb (map p_id ps)
  && forallb readable_post_author ps.

Definition post_author_of (db : database) (p : post_doc) : option user_doc :=
  if truthy (p_author_id p)
  then match ObjectId (p_author_id p) with
       | Ok ai => find (by_id u_id ai) (users db)
       | Raise _ => None
       end
  else None.

(** The view [get_post_by_id] builds for a stored post. *)
Definition stored_post_view (db : database) (p : post_doc) : post_view :=
  view_of_post p (post_author_of db p)
    (get_comments_count_by_post db (str (p_id p))).

Definition post_view_desc (a b : post_view) : Prop :=
  (pv_created_at b <= pv_created_at a)%Z.

(** The page of documents the cursor of [get_posts] yields. *)
Definition post_page (db : database) (limit offset : nat)
  (filters : post_filters) : list post_doc :=
  cursor_limit limit
    (cursor_skip offset
       (sort_by post_created_desc (filter (post_query filters) (posts db)))).

(** The document [create_comment] inserts. *)
Definition new_comment (comment_data : CommentCreate) (author_id : string)
  (now : datetime) (new_id : oid) : comment_doc := {|
  c_id := new_id;
  c_content := cc_content comment_data;
  c_post_id := cc_post_id comment_data;
  c_parent_id := cc_parent_id comment_data;
  c_author_id := author_id;
  c_created_at := now;
  c_updated_at := now
|}.



Definition post_not_found : exn :=
  HTTPException HTTP_404_NOT_FOUND "Post not found".

Definition parent_not_found : exn :=
  HTTPException HTTP_404_NOT_FOUND
    "Parent comment not found or belongs to different post".

(** A reply to [c1] that names another post. *)
Definition other_post_id : string := "0000000000000000000000f2".

Definition reply_elsewhere : CommentCreate := {|
  cc_content := "text"; cc_post_id := other_post_id;
  cc_parent_id := Some (str Sample.c1_id)
|}.

Definition second_post : post_doc := {|
  p_id := other_post_id; p_title := "Second"; p_content := "content";
  p_summary := "content"; p_tags := []; p_slug := "second";
  p_status := DRAFT; p_author_id := str Sample.bob_id;
  p_created_at := 5%Z; p_updated_at := 5%Z
|}.

(** The sample database with a second post, a draft of Bob. *)
Definition two_posts_db : database :=
  with_posts Sample.db [Sample.the_post; second_post].

Definition malformed_id : string := "not-an-object-id".

Definition empty_patch : PostUpdate := {|
  pu_title := None; pu_content := None; pu_summary := None; pu_tags := None;
  pu_slug := None; pu_status := None
|}.

(** The user document the [author_id] of a post leads to is the current
    user's. *)
Definition authored_by (db : database) (p : post_doc) (u : current_user_t)
  : bool :=
  opt_string_eqb (option_map u_id (post_author_of db p)) (Some (cu_id u)).

(** [db] after [delete_post], called with the id string [s], went through
    for [p]: the comments whose [post_id] is the string [s] are gone, and
    the post. *)
Definition without_post (db : database) (p : post_doc) (s : string) : database :=
  with_posts
    (with_comments db (filter (fun c => negb (on_post s c)) (comments db)))
    (filter (fun q => negb (by_id p_id (p_id p) q)) (posts db)).

(** A comment on the sample post sent with the upper-case spelling of the
    post id, and the store after [create_comment] accepted it. *)
Definition c6 : comment_doc := {|
  c_id := "0000000000000000000000c6"; c_content := "text";
  c_post_id := "0000000000000000000000F1"; c_parent_id := None;
  c_author_id := str Sample.bob_id; c_created_at := 6%Z; c_updated_at := 6%Z
|}.

Definition respelled_post_db : database :=
  with_comments Sample.db [Sample.c1; Sample.c2; Sample.c3; Sample.c4; c6].

(** The document [create_post] inserts once the slug is settled. *)
Definition new_post (post_data : PostCreate) (slug : string)
  (author_id : string) (now : datetime) (new_id : oid) : post_doc := {|
  p_id := new_id;
  p_title := pc_title post_data;
  p_content := pc_content post_data;
  p_summary :=
    if negb (truthy_opt (pc_summary post_data))
    then get_summary_from_content (pc_content post_data) None
    else default_arg "" (pc_summary post_data);
  p_tags := pc_tags post_data;
  p_slug := slug;
  p_status := pc_status post_data;
  p_author_id := author_id;
  p_created_at := now;
  p_updated_at := now
|}.

Definition readable_id (s : string) : bool :=
  negb (truthy s)
  || match ObjectId s with Ok _ => true | Raise _ => false end.

Definition second_request : PostCreate := {|
  pc_title := "Second"; pc_content := "content"; pc_summary := None;
  pc_tags := []; pc_slug := None; pc_status := DRAFT
|}.

(** The filter of [GET /users/me/posts]. *)
Definition own_posts (u : current_user_t) : post_filters :=
  {| f_status := None; f_tags := None; f_author_id := Some (cu_id u) |}.



(** The page of documents the cursor of [get_user_comments] yields. *)
Definition user_page (db : database) (user_id : string) (limit offset : nat)
  : list comment_doc :=
  cursor_limit limit
    (cursor_skip offset
       (sort_by created_desc
          (filter (fun c => String.eqb (c_author_id c) user_id) (comments db)))).

(** The stored post a comment's [post_id] leads to. *)
Definition post_of (db : database) (c : comment_doc) : option post_doc :=
  if truthy (c_post_id c)
  then match ObjectId (c_post_id c) with
       | Ok i => find (by_id p_id i) (posts db)
       | Raise _ => None
       end
  else None.

(** The view of a stored comment with the title [get_user_comments] adds. *)
Definition titled_view (db : database) (c : comment_doc) : comment_view :=
  match post_of db c with
  | Some post => set_post_title (stored_view db c) (Some (p_title post))
  | None => stored_view db c
  end.

Definition post_ids_readable (cs : list comment_doc) : bool :=
  forallb (fun c => readable_id (c_post_id c)) cs.

(* ================================================================== *)
(** * Replies as [create_comment] reads them                           *)
(* ================================================================== *)

(** [answers q r]: [r] is a reply to [q]. [create_comment] accepts [r]
    when [ObjectId(parent_id)] is the id of a stored comment, so a reply
    names its parent by any string [ObjectId] reads as the parent's id,
    and the document keeps the string as it was sent. *)
Definition answers (q r : comment_doc) : bool :=
  match c_parent_id r with
  | Some p =>
      match ObjectId p with
      | Ok i => oid_eqb i (c_id q)
      | Raise _ => false
      end
  | None => false
  end.

(** [descends cs c r]: [r] is a transitive reply to [c]; the ancestor
    chain of [r] includes [c]. *)
Inductive descends (cs : list comment_doc) (c : comment_doc)
  : comment_doc -> Prop :=
| descends_reply r : answers c r = true -> descends cs c r
| descends_up q r :
    In q cs -> answers q r = true -> descends cs c q -> descends cs c r.

(** Every reply is stored after the comment it answers: [create_comment]
    requires the parent to exist already, and no id is handed out twice. *)
Fixpoint replies_after (cs : list comment_doc) : bool :=
  match cs with
  | [] => true
  | c :: rest =>
      forallb (fun q => negb (answers q c)) (c :: rest) && replies_after rest
  end.

(** Every reply is on the post of the comment it answers: [create_comment]
    looks the parent up with the [post_id] of the request. *)
Definition replies_on_post (cs : list comment_doc) : bool :=
  forallb
    (fun r =>
       forallb
         (fun q => negb (answers q r) || String.eqb (c_post_id r) (c_post_id q))
         cs)
    cs.

(** Position of the first comment with id [i]. *)
Fixpoint position (cs : list comment_doc) (i : oid) : nat :=
  match cs with
  | [] => 0
  | c :: rest => if oid_eqb (c_id c) i then 0 else S (position rest i)
  end.

(** [nested_under x vs]: every view of [vs] has [x] as [parent_id] and
    carries, as [replies], views nested under its own id. *)
#[warnings="-register-all"]
Inductive nested_under : string -> list comment_view -> Prop :=
| nested_level x vs :
    (forall v, In v vs ->
       v_parent_id v = Some x
       /\ exists rs, v_replies v = Some rs /\ nested_under (v_id v) rs) ->
    nested_under x vs.

(** A reply to [c1] sent with the upper-case spelling of its id, and the
    store after [create_comment] accepted it. *)
Definition c5_id : oid := "0000000000000000000000c5".

Definition respelled_request : CommentCreate := {|
  cc_content := "text"; cc_post_id := str Sample.post_id;
  cc_parent_id := Some Sample.c1_id_upper
|}.

Definition c5 : comment_doc :=
  Sample.comment c5_id (Some Sample.c1_id_upper) (str Sample.bob_id) 5%Z.

Definition respelled_db : database :=
  with_comments Sample.db [Sample.c1; Sample.c2; Sample.c3; Sample.c4; c5].

(** A slug the pattern does not match that passes [is_valid_slug]:
    "hello-world" followed by a line feed. *)
Definition newline_slug : string :=
  ("hello-world" ++ String newline EmptyString)%string.

(** The store after "Hello World!" was posted to the empty one with that
    slug. *)
Definition newline_db : database :=
  snd (create_post slugify_model empty_db (hello_world (Some newline_slug))
         "0000000000000000000000a1" 0%Z "0000000000000000000000f1").

(** A string of 24 blanks: [bytes.fromhex] reads it as no byte at all, so
    [ObjectId] accepts it, and it is the id of nothing stored. *)
Definition blank_id : string := "                        ".

Definition comment_request (post_id : string) (parent_id : option string)
  : CommentCreate := {|
  cc_content := "text"; cc_post_id := post_id; cc_parent_id := parent_id
|}.

(** The id of the sample post in upper case. *)
Definition post_id_upper : string := "0000000000000000000000F1".

Definition comment_desc (a b : Comment) : Prop :=
  (cm_created_at b <= cm_created_at a)%Z.
(* ================================================================== *)
(** * Properties                                                       *)
(* ================================================================== *)

Lemma opt_string_eqb_eq a b : opt_string_eqb a b = true <-> a = b.
Proof.
  destruct a as [x|], b as [y|]; simpl; split; intro H;
    try discriminate; try reflexivity.
  - apply String.eqb_eq in H. now subst.
  - inversion H. apply String.eqb_refl.
Qed.

Lemma is_hex_lower_fix a : is_hex_lower a = true -> to_lower a = a /\ is_hex a = true.
Proof.
  intro H. unfold to_lower, is_hex. rewrite H. split; [|reflexivity].
  unfold is_hex_lower, is_digit, is_upper, in_range in *.
  destruct (65 <=? code a) eqn:E1; destruct (code a <=? 90) eqn:E2; simpl; try reflexivity.
  apply Nat.leb_le in E1, E2.
  apply orb_true_iff in H. destruct H as [H|H];
    apply andb_true_iff in H; destruct H as [Ha Hb];
    apply Nat.leb_le in Ha, Hb; lia.
Qed.

Lemma lower_hex_string s :
  string_forallb is_hex_lower s = true ->
  string_map to_lower s = s /\ string_forallb is_hex s = true.
Proof.
  induction s as [|a s IH]; simpl; intro H; [now split|].
  apply andb_true_iff in H. destruct H as [Ha Hs].
  destruct (is_hex_lower_fix a Ha) as [E1 E2].
  destruct (IH Hs) as [E3 E4].
  now rewrite E1, E2, E3, E4.
Qed.

Lemma hex_lower_no_space a : is_hex_lower a = true -> is_ascii_space a = false.
Proof.
  unfold is_hex_lower, is_ascii_space, is_digit, in_range. intro H.
  apply orb_true_iff in H. apply orb_false_iff. split.
  - apply andb_false_iff.
    destruct H as [H|H]; apply andb_true_iff in H; destruct H as [Ha Hb];
      apply Nat.leb_le in Ha, Hb; right; apply Nat.leb_gt; lia.
  - apply Nat.eqb_neq.
    destruct H as [H|H]; apply andb_true_iff in H; destruct H as [Ha Hb];
      apply Nat.leb_le in Ha, Hb; lia.
Qed.

Lemma fromhex_lower n s :
  String.length s = 2 * n -> string_forallb is_hex_lower s = true ->
  fromhex s = Some s.
Proof.
  revert s. induction n as [|n IH]; intros s Hl Hh.
  - destruct s; [reflexivity|discriminate].
  - destruct s as [|a [|b s]]; [simpl in Hl; lia|simpl in Hl; lia|].
    cbn [string_forallb] in Hh.
    apply andb_true_iff in Hh. destruct Hh as [Ha Hh].
    apply andb_true_iff in Hh. destruct Hh as [Hb Hs].
    cbn [fromhex]. rewrite (hex_lower_no_space a Ha).
    destruct (is_hex_lower_fix a Ha) as [Ea Ea'].
    destruct (is_hex_lower_fix b Hb) as [Eb Eb'].
    rewrite Ea', Eb', Ea, Eb. cbn [andb].
    rewrite (IH s); [reflexivity| |exact Hs].
    cbn [String.length] in Hl. lia.
Qed.

Lemma ObjectId_str o : canonical o = true -> ObjectId (str o) = Ok o.
Proof.
  unfold canonical, ObjectId, str. intro H.
  apply andb_true_iff in H. destruct H as [Hl Hh].
  rewrite Hl. apply Nat.eqb_eq in Hl.
  now rewrite (fromhex_lower 12 o Hl Hh).
Qed.

Lemma oid_eqb_eq a b : oid_eqb a b = true <-> a = b.
Proof. apply String.eqb_eq. Qed.

Lemma oid_eqb_refl a : oid_eqb a a = true.
Proof. apply String.eqb_refl. Qed.

(* ------------------------------------------------------------------ *)
(** ** Lists, cursors and sorting                                      *)
(* ------------------------------------------------------------------ *)

Section ListFacts.

Context {D : Type}.

Lemma filter_twice (f g : D -> bool) l :
  filter f (filter g l) = filter (fun d => g d && f d) l.
Proof.
  induction l as [|d l IH]; simpl; [reflexivity|].
  destruct (g d); simpl; [destruct (f d)|]; now rewrite IH.
Qed.

Lemma filter_all (f : D -> bool) l :
  (forall d, In d l -> f d = true) -> filter f l = l.
Proof.
  induction l as [|d l IH]; simpl; intro H; [reflexivity|].
  rewrite (H d (or_introl eq_refl)). f_equal. apply IH. intros; apply H; now right.
Qed.

Lemma filter_split_length (f : D -> bool) l :
  List.length (filter f l) + List.length (filter (fun d => negb (f d)) l)
  = List.length l.
Proof.
  induction l as [|d l IH]; simpl; [reflexivity|].
  destruct (f d); simpl; lia.
Qed.

Variable get_id : D -> oid.

Lemma remove_first_absent i l :
  ~ In i (map get_id l) -> remove_first (by_id get_id i) l = l.
Proof.
  induction l as [|d l IH]; simpl; intro H; [reflexivity|].
  unfold by_id at 1. destruct (oid_eqb (get_id d) i) eqn:E.
  - apply oid_eqb_eq in E. exfalso. apply H. now left.
  - f_equal. apply IH. intro; apply H; now right.
Qed.

Lemma filter_other_absent i l :
  ~ In i (map get_id l) -> filter (fun d => negb (by_id get_id i d)) l = l.
Proof.
  intro H. apply filter_all. intros d Hd. unfold by_id.
  destruct (oid_eqb (get_id d) i) eqn:E; [|reflexivity].
  apply oid_eqb_eq in E. exfalso. apply H. rewrite <- E. now apply in_map.
Qed.

(** With pairwise different ids, [delete_one] is a filter. *)
Lemma remove_first_filter i l :
  NoDup (map get_id l) ->
  remove_first (by_id get_id i) l = filter (fun d => negb (by_id get_id i d)) l.
Proof.
  induction l as [|d l IH]; simpl; intro H; [reflexivity|].
  inversion H as [|? ? Hd Hl]; subst.
  unfold by_id at 1 3. destruct (oid_eqb (get_id d) i) eqn:E; simpl.
  - apply oid_eqb_eq in E. subst i. symmetry. now apply filter_other_absent.
  - f_equal. now apply IH.
Qed.

Lemma find_by_id_stored d l :
  NoDup (map get_id l) -> In d l -> find (by_id get_id (get_id d)) l = Some d.
Proof.
  induction l as [|e l IH]; simpl; intros H Hin; [contradiction|].
  inversion H as [|? ? He Hl]; subst.
  unfold by_id at 1. destruct Hin as [->|Hin].
  - now rewrite oid_eqb_refl.
  - destruct (oid_eqb (get_id e) (get_id d)) eqn:E.
    + apply oid_eqb_eq in E. exfalso. apply He. rewrite E. now apply in_map.
    + now apply IH.
Qed.

Lemma find_by_id_some i d l :
  find (by_id get_id i) l = Some d -> In d l /\ get_id d = i.
Proof.
  intro H. apply find_some in H. destruct H as [H1 H2]. split; [assumption|].
  now apply oid_eqb_eq.
Qed.

Lemma find_by_id_none i l :
  find (by_id get_id i) l = None -> ~ In i (map get_id l).
Proof.
  intros H Hin. apply in_map_iff in Hin. destruct Hin as [d [E Hd]].
  pose proof (find_none _ _ H d Hd) as F. unfold by_id in F.
  rewrite E, oid_eqb_refl in F. discriminate.
Qed.

Lemma existsb_by_id i l :
  In i (map get_id l) -> existsb (by_id get_id i) l = true.
Proof.
  intro H. apply in_map_iff in H. destruct H as [d [E Hd]].
  apply existsb_exists. exists d. split; [assumption|].
  unfold by_id. rewrite E. apply oid_eqb_refl.
Qed.

Lemma NoDup_map_filter (f : D -> bool) l :
  NoDup (map get_id l) -> NoDup (map get_id (filter f l)).
Proof.
  induction l as [|d l IH]; simpl; intro H; [constructor|].
  inversion H as [|? ? Hd Hl]; subst.
  destruct (f d); simpl; [constructor|]; auto.
  intro Hin. apply Hd. apply in_map_iff in Hin. destruct Hin as [e [E He]].
  apply filter_In in He. rewrite <- E. apply in_map. tauto.
Qed.

(** *** Insertion sort *)

Variable le : D -> D -> bool.

Lemma insert_by_perm x l : Permutation (insert_by le x l) (x :: l).
Proof.
  induction l as [|y l IH]; simpl; [apply Permutation_refl|].
  destruct (le x y); [apply Permutation_refl|].
  eapply Permutation_trans; [apply perm_skip, IH|apply perm_swap].
Qed.

Lemma sort_by_perm l : Permutation (sort_by le l) l.
Proof.
  induction l as [|x l IH]; simpl; [constructor|].
  eapply Permutation_trans; [apply insert_by_perm|now apply perm_skip].
Qed.

Lemma sort_by_In x l : In x (sort_by le l) <-> In x l.
Proof.
  split; apply Permutation_in; [|apply Permutation_sym]; apply sort_by_perm.
Qed.

Lemma sort_by_length l : List.length (sort_by le l) = List.length l.
Proof. apply Permutation_length, sort_by_perm. Qed.

Hypothesis le_total : forall a b, le a b = true \/ le b a = true.
Hypothesis le_trans : forall a b c, le a b = true -> le b c = true -> le a c = true.

Lemma insert_by_sorted x l :
  StronglySorted (fun a b => le a b = true) l ->
  StronglySorted (fun a b => le a b = true) (insert_by le x l).
Proof.
  induction l as [|y l IH]; simpl; intro H.
  - constructor; constructor.
  - inversion H as [|? ? Hs Hall]; subst.
    destruct (le x y) eqn:E.
    + constructor; [assumption|]. constructor; [assumption|].
      eapply Forall_impl; [|exact Hall]. intros c Hc. now apply le_trans with y.
    + constructor; [now apply IH|].
      assert (Hyx : le y x = true) by (destruct (le_total x y); congruence).
      apply Forall_forall. intros c Hc.
      apply (Permutation_in _ (insert_by_perm x l)) in Hc.
      destruct Hc as [<-|Hc]; [assumption|].
      rewrite Forall_forall in Hall. now apply Hall.
Qed.

Lemma sort_by_sorted l : StronglySorted (fun a b => le a b = true) (sort_by le l).
Proof.
  induction l as [|x l IH]; simpl; [constructor|]. now apply insert_by_sorted.
Qed.

End ListFacts.

Lemma in_firstn {D} n (l : list D) x : In x (firstn n l) -> In x l.
Proof.
  intro H. rewrite <- (firstn_skipn n l). apply in_or_app. now left.
Qed.

Lemma in_skipn {D} n (l : list D) x : In x (skipn n l) -> In x l.
Proof.
  intro H. rewrite <- (firstn_skipn n l). apply in_or_app. now right.
Qed.

Lemma StronglySorted_sub {D} (R : D -> D -> Prop) l n :
  StronglySorted R l ->
  StronglySorted R (skipn n l) /\ StronglySorted R (firstn n l).
Proof.
  intro H. revert n. induction H as [|x l Hs IH Hall]; intro n.
  - rewrite skipn_nil, firstn_nil. split; constructor.
  - destruct n as [|n]; simpl.
    + split; constructor; assumption.
    + destruct (IH n) as [H1 H2]. split; [assumption|].
      constructor; [assumption|].
      apply Forall_forall. intros y Hy. rewrite Forall_forall in Hall.
      apply Hall. eapply in_firstn. exact Hy.
Qed.

Lemma StronglySorted_map {D E} (R : D -> D -> Prop) (Q : E -> E -> Prop)
  (f : D -> E) l :
  (forall a b, R a b -> Q (f a) (f b)) ->
  StronglySorted R l -> StronglySorted Q (map f l).
Proof.
  intros HRQ H. induction H as [|x l Hs IH Hall]; simpl; constructor; auto.
  apply Forall_forall. intros y Hy. apply in_map_iff in Hy.
  destruct Hy as [d [<- Hd]]. apply HRQ. rewrite Forall_forall in Hall. auto.
Qed.

Lemma nodupb_NoDup l : nodupb l = true -> NoDup l.
Proof.
  induction l as [|x l IH]; simpl; intro H; [constructor|].
  apply andb_true_iff in H. destruct H as [H1 H2].
  constructor; [|auto].
  intro Hin. apply negb_true_iff in H1.
  assert (existsb (String.eqb x) l = true); [|congruence].
  apply existsb_exists. exists x. split; [assumption|apply String.eqb_refl].
Qed.

Lemma filter_swap {D} (f g : D -> bool) l :
  filter f (filter g l) = filter g (filter f l).
Proof.
  rewrite !filter_twice. apply filter_ext. intro d. apply andb_comm.
Qed.

(* ------------------------------------------------------------------ *)
(** ** The comment forest                                              *)
(* ------------------------------------------------------------------ *)

Lemma child_of_iff x c : child_of x c = true <-> c_parent_id c = Some x.
Proof. unfold child_of. apply opt_string_eqb_eq. Qed.

Lemma rank_bound cs r : In r cs -> rank cs (str (c_id r)) < List.length cs.
Proof.
  induction cs as [|c cs IH]; simpl; intro H; [contradiction|].
  destruct (String.eqb (str (c_id c)) (str (c_id r))) eqn:E; [lia|].
  destruct H as [->|H]; [now rewrite String.eqb_refl in E|].
  apply IH in H. lia.
Qed.

Lemma parents_first_ranked cs :
  NoDup (map c_id cs) -> parents_first cs = true -> ranked (rank cs) cs.
Proof.
  induction cs as [|c cs IH]; intros Hnd Hpf q r Hq Hr Hpar; [contradiction|].
  cbn [parents_first] in Hpf. apply andb_true_iff in Hpf. destruct Hpf as [Hc Hrest].
  inversion Hnd as [|? ? Hfresh Hnd']; subst.
  rewrite forallb_forall in Hc.
  destruct Hr as [->|Hr].
  - specialize (Hc q Hq). apply negb_true_iff in Hc.
    apply child_of_iff in Hpar. congruence.
  - simpl.
    destruct (String.eqb (str (c_id c)) (str (c_id r))) eqn:Er.
    { apply String.eqb_eq in Er. exfalso. apply Hfresh.
      unfold str in Er. rewrite Er. now apply in_map. }
    destruct (String.eqb (str (c_id c)) (str (c_id q))) eqn:Eq; [lia|].
    destruct Hq as [->|Hq]; [now rewrite String.eqb_refl in Eq|].
    apply -> Nat.succ_lt_mono. now apply IH.
Qed.

Lemma comments_wf_forest cs :
  comments_wf cs = true -> forest (rank cs) (List.length cs) cs.
Proof.
  unfold comments_wf. intro H.
  apply andb_true_iff in H. destruct H as [H Hpf].
  apply andb_true_iff in H. destruct H as [Hcan Hnd].
  apply nodupb_NoDup in Hnd.
  repeat split.
  - assumption.
  - apply Forall_forall. now apply forallb_forall.
  - now apply parents_first_ranked.
  - apply rank_bound.
Qed.

Lemma forest_filter rk bound cs f :
  forest rk bound cs -> forest rk bound (filter f cs).
Proof.
  intros (Hnd & Hcan & Hrk & Hb). repeat split.
  - now apply NoDup_map_filter.
  - apply Forall_forall. intros c Hc. apply filter_In in Hc.
    rewrite Forall_forall in Hcan. now apply Hcan.
  - intros q r Hq Hr. apply filter_In in Hq, Hr. apply Hrk; tauto.
  - intros r Hr. apply filter_In in Hr. apply Hb; tauto.
Qed.

Lemma forest_stored_id rk bound cs c :
  forest rk bound cs -> In c cs -> ObjectId (str (c_id c)) = Ok (c_id c).
Proof.
  intros (_ & Hcan & _) Hc. apply ObjectId_str.
  rewrite Forall_forall in Hcan. now apply Hcan.
Qed.

Lemma forest_same_id rk bound cs q r :
  forest rk bound cs -> In q cs -> In r cs -> c_id q = c_id r -> q = r.
Proof.
  intros (Hnd & _) Hq Hr E.
  pose proof (find_by_id_stored c_id q cs Hnd Hq) as F1.
  pose proof (find_by_id_stored c_id r cs Hnd Hr) as F2.
  rewrite E in F1. congruence.
Qed.

Lemma in_chain_mono cs cs' x r :
  incl cs cs' -> in_chain cs x r -> in_chain cs' x r.
Proof.
  intros Hincl H. induction H as [r Hp|r q Hq Hp _ IH].
  - now apply chain_parent.
  - apply chain_up with q; auto.
Qed.

(** A chain that reaches [q] also reaches the parent of [q]. *)
Lemma in_chain_extend cs x q r :
  In q cs -> c_parent_id q = Some x ->
  in_chain cs (str (c_id q)) r -> in_chain cs x r.
Proof.
  intros Hq Hx H. induction H as [r Hp|r q' Hq' Hp _ IH].
  - apply chain_up with q; [assumption|assumption|now apply chain_parent].
  - apply chain_up with q'; assumption.
Qed.

(** A chain that contains [x] passes through a direct reply to [x]. *)
Lemma in_chain_split cs x r :
  In r cs -> in_chain cs x r ->
  exists k, In k cs /\ c_parent_id k = Some x
            /\ (r = k \/ in_chain cs (str (c_id k)) r).
Proof.
  intros Hr H. induction H as [r Hp|r q Hq Hp _ IH].
  - exists r. auto.
  - destruct (IH Hq) as (k & Hk & Hkx & [->|Hc]).
    + exists k. repeat split; auto. right. now apply chain_parent.
    + exists k. repeat split; auto. right. now apply chain_up with q.
Qed.



Lemma find_str_id cs p q :
  find (fun q => String.eqb (str (c_id q)) p) cs = Some q ->
  In q cs /\ str (c_id q) = p.
Proof.
  intro H. apply find_some in H. destruct H as [H1 H2].
  split; [assumption|now apply String.eqb_eq].
Qed.

Lemma in_chainb_sound fuel cs x r :
  in_chainb fuel cs x r = true -> in_chain cs x r.
Proof.
  revert r. induction fuel as [|fuel IH]; simpl; intros r H; [discriminate|].
  destruct (c_parent_id r) as [p|] eqn:Ep; [|discriminate].
  apply orb_true_iff in H. destruct H as [H|H].
  - apply String.eqb_eq in H. subst p. now apply chain_parent.
  - destruct (find _ cs) as [q|] eqn:F; [|discriminate].
    apply find_str_id in F. destruct F as [Hq E].
    apply chain_up with q; [assumption|congruence|now apply IH].
Qed.

Lemma in_chainb_complete rk bound cs x r :
  forest rk bound cs -> In r cs -> in_chain cs x r ->
  forall fuel, rk (str (c_id r)) < fuel -> in_chainb fuel cs x r = true.
Proof.
  intros Hf Hr H. induction H as [r Hp|r q Hq Hp _ IH]; intros fuel Hfuel.
  - destruct fuel as [|fuel]; [lia|]. simpl. rewrite Hp.
    now rewrite String.eqb_refl.
  - destruct fuel as [|fuel]; [lia|]. simpl. rewrite Hp.
    apply orb_true_iff. right.
    destruct Hf as (Hnd & Hcan & Hrk & Hb).
    pose proof (find_by_id_stored c_id q cs Hnd Hq) as F.
    unfold by_id, oid_eqb, str in *. rewrite F.
    apply IH; [assumption|].
    specialize (Hrk q r Hq Hr Hp). unfold str in Hrk. lia.
Qed.

Lemma in_chainb_iff cs x r :
  comments_wf cs = true -> In r cs ->
  (in_chainb (List.length cs) cs x r = true <-> in_chain cs x r).
Proof.
  intros Hwf Hr. split; [apply in_chainb_sound|].
  intro H. apply comments_wf_forest in Hwf.
  eapply in_chainb_complete; eauto. now apply rank_bound.
Qed.

(* ------------------------------------------------------------------ *)
(** ** Cascading delete                                                *)
(* ------------------------------------------------------------------ *)

Lemma delete_comment_replies_unfold fuel cs x :
  delete_comment_replies (S fuel) cs x
  = fold_left (delete_reply fuel) (filter (child_of x) cs) (Some (Ok tt, cs)).
Proof. reflexivity. Qed.

(** A chain of a kept comment stays in the store when everything below a
    removed comment is removed too. *)
Lemma in_chain_restrict cs (keep : comment_doc -> bool) x r :
  (forall q r, In q cs -> In r cs -> keep q = false ->
               c_parent_id r = Some (str (c_id q)) -> keep r = false) ->
  In r cs -> keep r = true -> in_chain cs x r -> in_chain (filter keep cs) x r.
Proof.
  intros Hclosed Hr Hk H. induction H as [r Hp|r q Hq Hp _ IH].
  - now apply chain_parent.
  - destruct (keep q) eqn:Kq.
    + apply chain_up with q; [apply filter_In; auto|assumption|now apply IH].
    + rewrite (Hclosed q r Hq Hr Kq Hp) in Hk. discriminate.
Qed.

Section DeleteLoop.

Variables (rk : string -> nat) (bound : nat).
Variable cs : list comment_doc.
Hypothesis Hforest : forest rk bound cs.
Variable fuel : nat.

Lemma delete_loop kids :
  (forall c, In c kids -> In c cs /\ recursive_call_ok cs fuel c) ->
  forall (keep0 : comment_doc -> bool) (Removed : comment_doc -> Prop),
  (forall r, In r cs -> (keep0 r = false <-> Removed r)) ->
  (forall q r, In q cs -> In r cs -> Removed q ->
               c_parent_id r = Some (str (c_id q)) -> Removed r) ->
  exists keep,
    fold_left (delete_reply fuel) kids (Some (Ok tt, filter keep0 cs))
    = Some (Ok tt, filter keep cs)
    /\ forall r, In r cs ->
         (keep r = false <->
          Removed r \/ exists c, In c kids
                         /\ (r = c \/ in_chain cs (str (c_id c)) r)).
Proof.
  induction kids as [|c kids IH]; intros Hkids keep0 Removed Hspec Hclosed.
  - exists keep0. split; [reflexivity|].
    intros r Hr. rewrite (Hspec r Hr). split; [auto|].
    intros [H|(c & [] & _)]. exact H.
  - destruct (Hkids c (or_introl eq_refl)) as [Hc Hrec].
    destruct (Hrec keep0) as (keep_c & Hcall & Hkeep_c).
    set (keep1 := fun r => keep0 r && (keep_c r && negb (by_id c_id (c_id c) r))).
    set (Removed1 := fun r =>
           Removed r \/ r = c \/ in_chain cs (str (c_id c)) r).
    assert (Hclosed0 : forall q r, In q cs -> In r cs -> keep0 q = false ->
               c_parent_id r = Some (str (c_id q)) -> keep0 r = false).
    { intros q r Hq Hr Kq Hp. apply Hspec; [assumption|].
      apply (Hclosed q r Hq Hr); [|assumption]. now apply Hspec. }
    assert (Hstep : delete_reply fuel (Some (Ok tt, filter keep0 cs)) c
                    = Some (Ok tt, filter keep1 cs)).
    { unfold delete_reply. rewrite Hcall.
      rewrite (forest_stored_id _ _ _ _ Hforest Hc).
      rewrite remove_first_filter.
      - now rewrite !filter_twice.
      - destruct Hforest as (Hnd & _). now repeat apply NoDup_map_filter. }
    assert (Hspec1 : forall r, In r cs -> (keep1 r = false <-> Removed1 r)).
    { intros r Hr. unfold keep1, Removed1. split.
      - intro K. destruct (keep0 r) eqn:K0.
        + assert (Hcur : In r (filter keep0 cs)) by (apply filter_In; auto).
          destruct (by_id c_id (c_id c) r) eqn:Kid.
          * right. left. apply oid_eqb_eq in Kid.
            now apply (forest_same_id _ _ _ _ _ Hforest).
          * right. right. simpl in K. rewrite andb_true_r in K.
            apply (in_chain_mono (filter keep0 cs)).
            { intros d Hd. apply filter_In in Hd. tauto. }
            now apply Hkeep_c.
        + left. now apply Hspec.
      - intros [H|[H|H]].
        + apply Hspec in H; [|assumption]. now rewrite H.
        + subst r. unfold by_id. rewrite oid_eqb_refl. simpl.
          now rewrite !andb_false_r.
        + destruct (keep0 r) eqn:K0; [|reflexivity].
          assert (K : keep_c r = false).
          { apply Hkeep_c; [apply filter_In; auto|].
            now apply in_chain_restrict. }
          now rewrite K. }
    assert (Hclosed1 : forall q r, In q cs -> In r cs -> Removed1 q ->
               c_parent_id r = Some (str (c_id q)) -> Removed1 r).
    { intros q r Hq Hr [H|[H|H]] Hp; unfold Removed1.
      - left. now apply (Hclosed q r).
      - subst q. right. right. now apply chain_parent.
      - right. right. now apply chain_up with q. }
    destruct (IH (fun d Hd => Hkids d (or_intror Hd)) keep1 Removed1 Hspec1 Hclosed1)
      as (keep & Hfold & Hkeep).
    exists keep. split.
    + cbn [fold_left]. rewrite Hstep. exact Hfold.
    + intros r Hr. rewrite (Hkeep r Hr). unfold Removed1. split.
      * intros [[H|[H|H]]|(d & Hd & H)].
        -- now left.
        -- right. exists c. split; [now left|now left].
        -- right. exists c. split; [now left|now right].
        -- right. exists d. split; [now right|assumption].
      * intros [H|(d & [<-|Hd] & H)].
        -- left. now left.
        -- left. right. exact H.
        -- right. exists d. split; assumption.
Qed.

End DeleteLoop.

(** One level of the recursion, given what the recursive calls do. *)
Lemma delete_level rk bound cs x fuel :
  forest rk bound cs ->
  (forall c, In c cs -> c_parent_id c = Some x -> recursive_call_ok cs fuel c) ->
  exists keep,
    delete_comment_replies (S fuel) cs x = Some (Ok tt, filter keep cs)
    /\ forall r, In r cs -> (keep r = false <-> in_chain cs x r).
Proof.
  intros Hf Hrec. rewrite delete_comment_replies_unfold.
  destruct (delete_loop rk bound cs Hf fuel (filter (child_of x) cs))
    with (keep0 := fun _ : comment_doc => true)
         (Removed := fun _ : comment_doc => False)
    as (keep & Hfold & Hkeep).
  - intros c Hc. apply filter_In in Hc. destruct Hc as [Hc Hx].
    apply child_of_iff in Hx. auto.
  - intros r _. split; [discriminate|contradiction].
  - intros q r _ _ [].
  - exists keep.
    rewrite (filter_all (fun _ => true)) in Hfold by (intros; reflexivity).
    split; [exact Hfold|].
    intros r Hr. rewrite (Hkeep r Hr). split.
    + intros [[]|(c & Hc & H)]. apply filter_In in Hc. destruct Hc as [Hc Hx].
      apply child_of_iff in Hx. destruct H as [->|H].
      * now apply chain_parent.
      * now apply in_chain_extend with c.
    + intro H. right.
      destruct (in_chain_split cs x r Hr H) as (k & Hk & Hkx & Hor).
      exists k. split; [|assumption]. apply filter_In. split; [assumption|].
      now apply child_of_iff.
Qed.

(** [delete_comment_replies] removes exactly the comments whose chain
    contains [x], when it has fuel for the height of the forest. *)
Lemma delete_comment_replies_filter rk bound n :
  forall cs x,
  forest rk bound cs ->
  (forall c, In c cs -> c_parent_id c = Some x -> bound - rk (str (c_id c)) <= n) ->
  forall fuel, n < fuel ->
  exists keep,
    delete_comment_replies fuel cs x = Some (Ok tt, filter keep cs)
    /\ forall r, In r cs -> (keep r = false <-> in_chain cs x r).
Proof.
  induction n as [|n IHn]; intros cs x Hf Hheight fuel Hfuel;
    (destruct fuel as [|fuel]; [lia|]);
    apply (delete_level rk bound); try assumption;
    intros c Hc Hx; pose proof (Hheight c Hc Hx) as Hh;
    pose proof Hf as (Hnd & Hcan & Hrk & Hb);
    pose proof (Hb c Hc) as Hlt.
  - lia.
  - intro g. apply IHn; [now apply forest_filter| |lia].
    intros d Hd Hp. apply filter_In in Hd. destruct Hd as [Hd _].
    pose proof (Hrk c d Hc Hd Hp). pose proof (Hb d Hd). lia.
Qed.

Lemma length_filter_or {D} (A B : D -> bool) l :
  (forall d, In d l -> A d = true -> B d = true -> False) ->
  List.length (filter (fun d => A d || B d) l)
  = List.length (filter A l) + List.length (filter B l).
Proof.
  induction l as [|d l IH]; simpl; intro H; [reflexivity|].
  assert (IH' := IH (fun e He => H e (or_intror He))).
  destruct (A d) eqn:Ea, (B d) eqn:Eb; simpl; try lia.
  exfalso. now apply (H d (or_introl eq_refl)).
Qed.

Lemma filter_none {D} (f : D -> bool) l :
  (forall d, In d l -> f d = false) -> filter f l = [].
Proof.
  induction l as [|d l IH]; simpl; intro H; [reflexivity|].
  rewrite (H d (or_introl eq_refl)). apply IH. intros; apply H; now right.
Qed.

Lemma length_filter_by_id {D} (get_id : D -> oid) d l :
  NoDup (map get_id l) -> In d l ->
  List.length (filter (by_id get_id (get_id d)) l) = 1.
Proof.
  induction l as [|e l IH]; simpl; intros Hnd Hin; [contradiction|].
  inversion Hnd as [|? ? He Hl]; subst.
  unfold by_id at 1. destruct (oid_eqb (get_id e) (get_id d)) eqn:E.
  - apply oid_eqb_eq in E. simpl. f_equal.
    rewrite filter_none; [reflexivity|].
    intros x Hx. unfold by_id.
    destruct (oid_eqb (get_id x) (get_id d)) eqn:Ex; [|reflexivity].
    apply oid_eqb_eq in Ex. exfalso. apply He. rewrite E, <- Ex.
    now apply in_map.
  - destruct Hin as [->|Hin]; [now rewrite oid_eqb_refl in E|]. now apply IH.
Qed.

Lemma delete_comment_replies_wf cs x fuel :
  comments_wf cs = true -> List.length cs < fuel ->
  exists keep,
    delete_comment_replies fuel cs x = Some (Ok tt, filter keep cs)
    /\ forall r, In r cs -> (keep r = false <-> in_chain cs x r).
Proof.
  intros Hwf Hfuel. apply comments_wf_forest in Hwf.
  apply (delete_comment_replies_filter (rank cs) (List.length cs) (List.length cs));
    [assumption| |assumption].
  intros; lia.
Qed.

(** [delete_comment] on an id string that names a stored comment, for a
    caller the permission test lets through. *)
Lemma delete_comment_found fuel db s i c author_id is_admin :
  comments_wf (comments db) = true ->
  ObjectId s = Ok i ->
  find (by_id c_id i) (comments db) = Some c ->
  delete_forbidden c author_id is_admin = false ->
  List.length (comments db) < fuel ->
  exists keep,
    delete_comment_replies fuel (comments db) s
    = Some (Ok tt, filter keep (comments db))
    /\ (forall r, In r (comments db) ->
          (keep r = false <-> in_chain (comments db) s r))
    /\ delete_comment fuel db s author_id is_admin
       = Some (0 <? deleted_count (by_id c_id i) (filter keep (comments db)),
               with_comments db
                 (remove_first (by_id c_id i) (filter keep (comments db)))).
Proof.
  intros Hwf Hs Hfind Hperm Hfuel.
  destruct (delete_comment_replies_wf (comments db) s fuel Hwf Hfuel)
    as (keep & Hcall & Hkeep).
  exists keep. repeat split; try assumption.
  - now apply Hkeep.
  - now apply Hkeep.
  - unfold delete_comment, delete_comment_body. rewrite Hs, Hfind.
    change (negb is_admin && truthy_opt author_id
            && negb (opt_string_eqb (Some (c_author_id c)) author_id))
      with (delete_forbidden c author_id is_admin).
    now rewrite Hperm, Hcall.
Qed.



(* ------------------------------------------------------------------ *)
(** ** Reading one comment                                             *)
(* ------------------------------------------------------------------ *)

Lemma lookup_author_readable db c :
  readable_author c = true ->
  lookup_author (handle db) (c_author_id c) = Ok (author_of db c).
Proof.
  unfold readable_author, lookup_author, author_of. intro H.
  destruct (truthy (c_author_id c)); [|reflexivity].
  simpl in H. destruct (ObjectId (c_author_id c)); [reflexivity|discriminate].
Qed.

Lemma get_comment_by_id_found db s i c :
  ObjectId s = Ok i ->
  find (by_id c_id i) (comments db) = Some c ->
  readable_author c = true ->
  get_comment_by_id db s = Ok (Some (stored_view db c)).
Proof.
  intros Hs Hfind Hread.
  unfold get_comment_by_id, get_comment_by_id_on. rewrite Hs. simpl.
  rewrite Hfind, (lookup_author_readable db c Hread). reflexivity.
Qed.

Lemma get_comment_by_id_absent db s i :
  ObjectId s = Ok i ->
  find (by_id c_id i) (comments db) = None ->
  get_comment_by_id db s = Ok None.
Proof.
  intros Hs Hfind.
  unfold get_comment_by_id, get_comment_by_id_on. rewrite Hs. simpl.
  now rewrite Hfind.
Qed.

Lemma get_comment_by_id_stored db c :
  comments_wf (comments db) = true ->
  In c (comments db) ->
  readable_author c = true ->
  get_comment_by_id db (str (c_id c)) = Ok (Some (stored_view db c)).
Proof.
  intros Hwf Hc Hread. apply comments_wf_forest in Hwf.
  apply get_comment_by_id_found with (c_id c); [|
    destruct Hwf as (Hnd & _); now apply find_by_id_stored|assumption].
  now apply (forest_stored_id _ _ _ _ Hwf).
Qed.

(* ------------------------------------------------------------------ *)
(** ** Deleting twice                                                  *)
(* ------------------------------------------------------------------ *)

Lemma find_after_remove_first {D} (get_id : D -> oid) i l :
  NoDup (map get_id l) -> find (by_id get_id i) (remove_first (by_id get_id i) l) = None.
Proof.
  intro Hnd. rewrite remove_first_filter by assumption.
  destruct (find _ _) as [d|] eqn:F; [|reflexivity].
  apply find_some in F. destruct F as [F1 F2].
  apply filter_In in F1. destruct F1 as [_ F1]. rewrite F2 in F1. discriminate.
Qed.

(** C2 as the specification words it fails: after Alice deleted her
    comment [c1], a second delete of the same id does not report success. *)
Lemma delete_twice_counterexample :
  ~ delete_twice_succeeds 5 Sample.db (str Sample.c1_id)
      (Some (cu_id Sample.alice)) false.
Proof.
  intros (db1 & db2 & H1 & H2).
  vm_compute in H1. inversion H1; subst db1; clear H1.
  vm_compute in H2. discriminate.
Qed.

(** C2, amended. When a delete of an id succeeds, a following delete of the
    same id, by any caller, finds the id absent: it leaves the store as it
    is and returns [False], and the route answers 404 Not Found. *)
Theorem delete_comment_twice fuel fuel' db s author_id is_admin db1
  author_id' is_admin' current_user :
  comments_wf (comments db) = true ->
  List.length (comments db) < fuel ->
  delete_comment fuel db s author_id is_admin = Some (true, db1) ->
  delete_comment fuel' db1 s author_id' is_admin' = Some (false, db1)
  /\ delete_comment_route fuel' db1 s current_user
     = Some (Raise (not_found_comment s), db1).
Proof.
  intros Hwf Hfuel H1.
  assert (Hgone : exists i, ObjectId s = Ok i
                    /\ find (by_id c_id i) (comments db1) = None).
  { unfold delete_comment in H1.
    destruct (delete_comment_body fuel db s author_id is_admin)
      as [[r d]|] eqn:Hbody; [|discriminate].
    injection H1 as Hr Hd. subst d.
    destruct r as [b|e]; [subst b|discriminate].
    unfold delete_comment_body in Hbody.
    destruct (ObjectId s) as [i|e] eqn:Hs; [|discriminate].
    exists i. split; [reflexivity|].
    destruct (find (by_id c_id i) (comments db)) as [c|] eqn:Hfind;
      [|discriminate].
    destruct (negb is_admin && truthy_opt author_id
              && negb (opt_string_eqb (Some (c_author_id c)) author_id)) eqn:Hperm;
      [discriminate|].
    destruct (delete_comment_replies_wf (comments db) s fuel Hwf Hfuel)
      as (keep & Hcall & _).
    rewrite Hcall in Hbody. injection Hbody as _ Hd. subst db1. simpl.
    apply find_after_remove_first. apply NoDup_map_filter.
    apply comments_wf_forest in Hwf. now destruct Hwf. }
  destruct Hgone as (i & Hs & Hnone). split.
  - unfold delete_comment, delete_comment_body. now rewrite Hs, Hnone.
  - unfold delete_comment_route.
    now rewrite (get_comment_by_id_absent db1 s i Hs Hnone).
Qed.

Lemma delete_comment_twice_witness :
  delete_comment 0
    (with_comments Sample.db [Sample.c4]) (str Sample.c1_id) None true
  = Some (false, with_comments Sample.db [Sample.c4])
  /\ delete_comment_route 0
       (with_comments Sample.db [Sample.c4]) (str Sample.c1_id) Sample.bob
     = Some (Raise (not_found_comment (str Sample.c1_id)),
             with_comments Sample.db [Sample.c4]).
Proof.
  apply (delete_comment_twice 5 0 Sample.db (str Sample.c1_id)
           (Some (cu_id Sample.alice)) false
           (with_comments Sample.db [Sample.c4]) None true Sample.bob).
  - reflexivity.
  - simpl. lia.
  - reflexivity.
Defined.

(* ------------------------------------------------------------------ *)
(** ** Permissions on comments                                         *)
(* ------------------------------------------------------------------ *)

Lemma delete_forbidden_non_author c u :
  truthy (cu_id u) = true -> c_author_id c <> cu_id u ->
  delete_forbidden c (Some (cu_id u)) false = true.
Proof.
  intros Ht Hne. unfold delete_forbidden. simpl. rewrite Ht. simpl.
  apply negb_true_iff. apply not_true_iff_false. intro E.
  apply String.eqb_eq in E. contradiction.
Qed.

(** C3, what the code does. For a stored comment and a caller who is
    neither its author nor an admin, the 403 of [delete_comment] is raised
    inside its own [try] block and caught there: [delete_comment] returns
    [False], the route answers 500 "Failed to delete comment" and not 403.
    The store is left as it was. *)
Theorem delete_comment_route_non_author fuel db s i c current_user :
  ObjectId s = Ok i ->
  find (by_id c_id i) (comments db) = Some c ->
  readable_author c = true ->
  role_is "admin" current_user = false ->
  truthy (cu_id current_user) = true ->
  c_author_id c <> cu_id current_user ->
  delete_comment_body fuel db s (Some (cu_id current_user)) false
  = Some (Raise (HTTPException HTTP_403_FORBIDDEN
                   "You do not have permission to delete this comment"), db)
  /\ delete_comment fuel db s (Some (cu_id current_user)) false = Some (false, db)
  /\ delete_comment_route fuel db s current_user = Some (Raise failed_delete, db).
Proof.
  intros Hs Hfind Hread Hrole Hid Hne.
  pose proof (delete_forbidden_non_author c current_user Hid Hne) as Hforb.
  assert (Hbody :
    delete_comment_body fuel db s (Some (cu_id current_user)) false
    = Some (Raise (HTTPException HTTP_403_FORBIDDEN
                     "You do not have permission to delete this comment"), db)).
  { unfold delete_comment_body. rewrite Hs, Hfind.
    change (negb false && truthy_opt (Some (cu_id current_user))
            && negb (opt_string_eqb (Some (c_author_id c))
                       (Some (cu_id current_user))))
      with (delete_forbidden c (Some (cu_id current_user)) false).
    now rewrite Hforb. }
  assert (Hdel : delete_comment fuel db s (Some (cu_id current_user)) false
                 = Some (false, db)).
  { unfold delete_comment. now rewrite Hbody. }
  repeat split; try assumption.
  unfold delete_comment_route.
  rewrite (get_comment_by_id_found db s i c Hs Hfind Hread). simpl.
  rewrite Hrole. simpl. now rewrite Hdel.
Qed.

Lemma delete_comment_route_non_author_witness :
  delete_comment_body 5 Sample.db (str Sample.c1_id) (Some (cu_id Sample.bob)) false
  = Some (Raise (HTTPException HTTP_403_FORBIDDEN
                   "You do not have permission to delete this comment"), Sample.db)
  /\ delete_comment 5 Sample.db (str Sample.c1_id) (Some (cu_id Sample.bob)) false
     = Some (false, Sample.db)
  /\ delete_comment_route 5 Sample.db (str Sample.c1_id) Sample.bob
     = Some (Raise failed_delete, Sample.db).
Proof.
  apply (delete_comment_route_non_author 5 Sample.db (str Sample.c1_id)
           Sample.c1_id Sample.c1 Sample.bob).
  - reflexivity.
  - reflexivity.
  - reflexivity.
  - reflexivity.
  - reflexivity.
  - intro H. vm_compute in H. discriminate.
Defined.

(** C6, what the code does. An actor whose id is not the stored
    [author_id] cannot update the comment, whatever the role: a non-admin
    is stopped by the route, an admin passes the route and is stopped by
    [update_comment]. Both answer 403 and leave the store as it was. *)
Theorem update_comment_route_non_author db s i c comment_data current_user now :
  ObjectId s = Ok i ->
  find (by_id c_id i) (comments db) = Some c ->
  readable_author c = true ->
  c_author_id c <> cu_id current_user ->
  update_comment_route db s comment_data current_user now
  = (Raise forbidden_update, db).
Proof.
  intros Hs Hfind Hread Hne.
  unfold update_comment_route.
  rewrite (get_comment_by_id_found db s i c Hs Hfind Hread). simpl.
  destruct (negb _ && negb _); [reflexivity|].
  unfold update_comment. rewrite Hs, Hfind.
  destruct (String.eqb (c_author_id c) (cu_id current_user)) eqn:E.
  - apply String.eqb_eq in E. contradiction.
  - reflexivity.
Qed.

Lemma update_comment_route_non_author_witness :
  update_comment_route Sample.db (str Sample.c1_id)
    {| upd_content := "edited" |} Sample.carol_admin 9%Z
  = (Raise forbidden_update, Sample.db).
Proof.
  apply (update_comment_route_non_author Sample.db (str Sample.c1_id)
           Sample.c1_id Sample.c1).
  - reflexivity.
  - reflexivity.
  - reflexivity.
  - intro H. vm_compute in H. discriminate.
Defined.

(** The author's update goes through: content and [updated_at] change. *)
Lemma update_comment_route_author db s i c a comment_data current_user now :
  ObjectId s = Ok i ->
  find (by_id c_id i) (comments db) = Some c ->
  readable_author c = true ->
  author_of db c = Some a ->
  str (u_id a) = cu_id current_user ->
  c_author_id c = cu_id current_user ->
  let db' := with_comments db
    (update_first (by_id c_id i) (set_content (upd_content comment_data) now)
       (comments db)) in
  update_comment_route db s comment_data current_user now
  = (get_comment_by_id db' s, db').
Proof.
  intros Hs Hfind Hread Ha Hid Hauth db'.
  unfold update_comment_route.
  rewrite (get_comment_by_id_found db s i c Hs Hfind Hread).
  unfold found, author_id_of_view, stored_view. simpl. rewrite Ha. simpl.
  rewrite Hid, String.eqb_refl. simpl.
  unfold update_comment. rewrite Hs, Hfind, Hauth, String.eqb_refl. reflexivity.
Qed.

(* ------------------------------------------------------------------ *)
(** ** The reply tree                                                  *)
(* ------------------------------------------------------------------ *)

Section Loops.

Context {D B : Type}.
Variable body : D -> option (option B).
Variable Q : D -> B -> Prop.

(** A loop whose every turn appends one element. *)
Lemma for_append_all l :
  (forall d, In d l -> exists b, body d = Some (Some b) /\ Q d b) ->
  exists out, for_append body l = Some out /\ Forall2 Q l out.
Proof.
  induction l as [|d l IH]; intro H.
  - exists []. split; [reflexivity|constructor].
  - destruct (H d (or_introl eq_refl)) as (b & Hb & Hq).
    destruct (IH (fun e He => H e (or_intror He))) as (out & Hout & Hall).
    exists (b :: out). simpl. rewrite Hb, Hout. split; [reflexivity|].
    now constructor.
Qed.

Lemma Forall2_In_r l out b :
  Forall2 Q l out -> In b out -> exists d, In d l /\ Q d b.
Proof.
  intro H. induction H as [|d b' l out Hq _ IH]; intro Hin; [contradiction|].
  destruct Hin as [<-|Hin].
  - exists d. split; [now left|assumption].
  - destruct (IH Hin) as (e & He & Hqe). exists e. split; [now right|assumption].
Qed.

Lemma Forall2_In_l l out d :
  Forall2 Q l out -> In d l -> exists b, In b out /\ Q d b.
Proof.
  intro H. induction H as [|d' b l out Hq _ IH]; intro Hin; [contradiction|].
  destruct Hin as [<-|Hin].
  - exists b. split; [now left|assumption].
  - destruct (IH Hin) as (e & He & Hqe). exists e. split; [now right|assumption].
Qed.

Lemma Forall2_sorted (R : D -> D -> Prop) (R' : B -> B -> Prop) l out :
  (forall d b d' b', Q d b -> Q d' b' -> R d d' -> R' b b') ->
  Forall2 Q l out -> StronglySorted R l -> StronglySorted R' out.
Proof.
  intros HR H. induction H as [|d b l out Hq Hall IH]; intro Hs; [constructor|].
  inversion Hs as [|? ? Hs' Hfa]; subst.
  constructor; [now apply IH|].
  apply Forall_forall. intros b' Hb'.
  destruct (Forall2_In_r l out b' Hall Hb') as (d' & Hd' & Hq').
  rewrite Forall_forall in Hfa.
  apply (HR d b d' b'); [assumption|assumption|now apply Hfa].
Qed.

Lemma Forall2_map_eq {K} (f : D -> K) (g : B -> K) l out :
  (forall d b, Q d b -> f d = g b) ->
  Forall2 Q l out -> map f l = map g out.
Proof.
  intros Hfg H. induction H as [|d b l out Hq _ IH]; simpl; [reflexivity|].
  now rewrite (Hfg d b Hq), IH.
Qed.

End Loops.

Lemma flatten_view_set_replies v rs :
  flatten_view (set_replies v rs) = set_replies v rs :: flatten rs.
Proof. reflexivity. Qed.

Lemma in_flatten v vs :
  In v (flatten vs) <-> exists b, In b vs /\ In v (flatten_view b).
Proof. unfold flatten. apply in_flat_map. Qed.

Lemma created_asc_total a b : created_asc a b = true \/ created_asc b a = true.
Proof. unfold created_asc. rewrite !Z.leb_le. lia. Qed.

Lemma created_asc_trans a b c :
  created_asc a b = true -> created_asc b c = true -> created_asc a c = true.
Proof. unfold created_asc. rewrite !Z.leb_le. lia. Qed.

Lemma created_desc_total a b : created_desc a b = true \/ created_desc b a = true.
Proof. unfold created_desc. rewrite !Z.leb_le. lia. Qed.

Lemma created_desc_trans a b c :
  created_desc a b = true -> created_desc b c = true -> created_desc a c = true.
Proof. unfold created_desc. rewrite !Z.leb_le. lia. Qed.

(** One level of [get_comment_replies], given what the recursive calls
    return. *)
Lemma replies_level rk bound db x fuel :
  forest rk bound (comments db) ->
  authors_readable (comments db) = true ->
  (forall c, In c (comments db) -> c_parent_id c = Some x ->
     exists rs, get_comment_replies fuel db (str (c_id c)) = Some rs
                /\ replies_of db (str (c_id c)) rs) ->
  exists replies,
    get_comment_replies (S fuel) db x = Some replies /\ replies_of db x replies.
Proof.
  intros Hf Hread Hrec.
  set (cs := comments db) in *.
  set (kids := sort_by created_asc (filter (child_of x) cs)).
  set (Q := fun (c : comment_doc) (b : comment_view) =>
              In c cs /\ c_parent_id c = Some x
              /\ exists rs, b = set_replies (stored_view db c) rs
                            /\ replies_of db (str (c_id c)) rs).
  assert (Hkid : forall c, In c kids <-> In c cs /\ c_parent_id c = Some x).
  { intro c. unfold kids. rewrite sort_by_In, filter_In, child_of_iff. tauto. }
  cbn [get_comment_replies]. fold cs. fold kids.
  destruct (for_append_all
    (fun comment =>
       match found (get_comment_by_id db (str (c_id comment))) with
       | Some full_comment =>
           match get_comment_replies fuel db (str (c_id comment)) with
           | None => None
           | Some replies => Some (Some (set_replies full_comment replies))
           end
       | None => Some None
       end) Q kids) as (replies & Hrun & Hall).
  { intros c Hc. apply Hkid in Hc. destruct Hc as [Hc Hx].
    destruct (Hrec c Hc Hx) as (rs & Hrs & Hspec).
    exists (set_replies (stored_view db c) rs). split.
    - rewrite (get_comment_by_id_found db _ (c_id c) c).
      + simpl. now rewrite Hrs.
      + now apply (forest_stored_id _ _ _ _ Hf).
      + destruct Hf as (Hnd & _). now apply find_by_id_stored.
      + unfold authors_readable in Hread. rewrite forallb_forall in Hread.
        now apply Hread.
    - unfold Q. repeat split; try assumption. now exists rs. }
  exists replies. split; [exact Hrun|].
  unfold replies_of. fold cs. repeat split.
  - intros v Hv. apply in_flatten in Hv. destruct Hv as (b & Hb & Hv).
    destruct (Forall2_In_r Q kids replies b Hall Hb)
      as (c & _ & Hc & Hx & rs & -> & Hspec).
    rewrite flatten_view_set_replies in Hv. destruct Hv as [<-|Hv].
    + exists c. repeat split; [assumption|now apply chain_parent].
    + destruct Hspec as (H1 & _). destruct (H1 v Hv) as (c' & Hc' & Hch & Hid).
      exists c'. repeat split; try assumption.
      now apply in_chain_extend with c.
  - intros c Hc Hch.
    destruct (in_chain_split cs x c Hc Hch) as (k & Hk & Hkx & Hor).
    assert (Hkk : In k kids) by (apply Hkid; auto).
    destruct (Forall2_In_l Q kids replies k Hall Hkk)
      as (b & Hb & _ & _ & rs & -> & Hspec).
    destruct Hor as [->|Hbelow].
    + exists (set_replies (stored_view db k) rs). split; [|reflexivity].
      apply in_flatten. eexists. split; [exact Hb|].
      rewrite flatten_view_set_replies. now left.
    + destruct Hspec as (_ & H2 & _).
      destruct (H2 c Hc Hbelow) as (v & Hv & Hid).
      exists v. split; [|assumption].
      apply in_flatten. eexists. split; [exact Hb|].
      rewrite flatten_view_set_replies. now right.
  - apply (Forall2_sorted Q (fun a b => created_asc a b = true) view_asc kids replies);
      [|assumption|].
    + intros d b d' b' (_ & _ & rs & -> & _) (_ & _ & rs' & -> & _) Hle.
      unfold view_asc. simpl. unfold created_asc in Hle. now apply Z.leb_le.
    + apply sort_by_sorted; [apply created_asc_total|apply created_asc_trans].
  - intros v rs' Hv Hrs. apply in_flatten in Hv. destruct Hv as (b & Hb & Hv).
    destruct (Forall2_In_r Q kids replies b Hall Hb)
      as (c & _ & Hc & Hx & rs & -> & Hspec).
    rewrite flatten_view_set_replies in Hv.
    destruct Hspec as (_ & _ & H3 & H4). destruct Hv as [<-|Hv].
    + simpl in Hrs. injection Hrs as <-. exact H3.
    + now apply (H4 v rs').
Qed.

Lemma get_comment_replies_height rk bound db n :
  forest rk bound (comments db) ->
  authors_readable (comments db) = true ->
  forall x,
  (forall c, In c (comments db) -> c_parent_id c = Some x ->
     bound - rk (str (c_id c)) <= n) ->
  forall fuel, n < fuel ->
  exists replies,
    get_comment_replies fuel db x = Some replies /\ replies_of db x replies.
Proof.
  intros Hf Hread.
  induction n as [|n IHn]; intros x Hheight fuel Hfuel;
    (destruct fuel as [|fuel]; [lia|]);
    apply (replies_level rk bound); try assumption;
    intros c Hc Hx; pose proof (Hheight c Hc Hx) as Hh;
    pose proof Hf as (Hnd & Hcan & Hrk & Hb);
    pose proof (Hb c Hc) as Hlt.
  - lia.
  - apply IHn; [|lia].
    intros d Hd Hp. pose proof (Hrk c d Hc Hd Hp). pose proof (Hb d Hd). lia.
Qed.

Lemma get_comment_replies_wf fuel db x :
  comments_wf (comments db) = true ->
  authors_readable (comments db) = true ->
  List.length (comments db) < fuel ->
  exists replies,
    get_comment_replies fuel db x = Some replies /\ replies_of db x replies.
Proof.
  intros Hwf Hread Hfuel.
  pose proof (comments_wf_forest _ Hwf) as Hf.
  apply (get_comment_replies_height _ _ db (List.length (comments db)) Hf Hread);
    [intros; lia|assumption].
Qed.

(* ------------------------------------------------------------------ *)
(** ** Listing the comments of a post                                  *)
(* ------------------------------------------------------------------ *)






(* ------------------------------------------------------------------ *)
(** ** Reads never raise                                               *)
(* ------------------------------------------------------------------ *)

(** C10. Whatever the id string and whatever the storage handle does,
    [get_comment_by_id] and [get_post_by_id] return a value and raise
    nothing; a string that is no ObjectId, a failing lookup, and a failing
    author or count query all give [None]. *)
Theorem get_by_id_never_raises (s : storage) (id : string) :
  (exists r, get_comment_by_id_on s id = Ok r)
  /\ (exists r, get_post_by_id_on s id = Ok r)
  /\ (forall e, ObjectId id = Raise e ->
        get_comment_by_id_on s id = Ok None /\ get_post_by_id_on s id = Ok None)
  /\ (forall i e, ObjectId id = Ok i -> comments_find_one s i = Raise e ->
        get_comment_by_id_on s id = Ok None)
  /\ (forall i e, ObjectId id = Ok i -> posts_find_one s i = Raise e ->
        get_post_by_id_on s id = Ok None)
  /\ (forall i c e, ObjectId id = Ok i -> comments_find_one s i = Ok (Some c) ->
        lookup_author s (c_author_id c) = Raise e ->
        get_comment_by_id_on s id = Ok None)
  /\ (forall i p e, ObjectId id = Ok i -> posts_find_one s i = Ok (Some p) ->
        lookup_author s (p_author_id p) = Raise e ->
        get_post_by_id_on s id = Ok None)
  /\ (forall i p a e, ObjectId id = Ok i -> posts_find_one s i = Ok (Some p) ->
        lookup_author s (p_author_id p) = Ok a ->
        comments_count_documents s (str (p_id p)) = Raise e ->
        get_post_by_id_on s id = Ok None)
  /\ (forall db, exists r, get_comment_by_id db id = Ok r)
  /\ (forall db, exists r, get_post_by_id db id = Ok r).
Proof.
  assert (Hc : forall h, exists r, get_comment_by_id_on h id = Ok r).
  { intro h. unfold get_comment_by_id_on.
    destruct (ObjectId id) as [i|e]; simpl; [|eauto].
    destruct (comments_find_one h i) as [[c|]|e]; simpl; eauto.
    destruct (lookup_author h (c_author_id c)); simpl; eauto. }
  assert (Hp : forall h, exists r, get_post_by_id_on h id = Ok r).
  { intro h. unfold get_post_by_id_on.
    destruct (ObjectId id) as [i|e]; simpl; [|eauto].
    destruct (posts_find_one h i) as [[p|]|e]; simpl; eauto.
    destruct (lookup_author h (p_author_id p)); simpl; eauto.
    destruct (comments_count_documents h (str (p_id p))); simpl; eauto. }
  split; [apply Hc|]. split; [apply Hp|].
  unfold get_comment_by_id, get_post_by_id.
  repeat split; try (intros; apply Hc); try (intros; apply Hp);
    unfold get_comment_by_id_on, get_post_by_id_on; intros;
    repeat match goal with
           | H : _ = _ |- _ => rewrite H; simpl
           end; reflexivity.
Qed.

(* ------------------------------------------------------------------ *)
(** ** Pagination                                                      *)
(* ------------------------------------------------------------------ *)

(** C9 as the specification words it fails: a comment listing of a post
    requested without [limit] is not answered with the effective limit 50;
    the data-access default never meets a request, since the route takes
    [limit] from the shared pagination dependency. *)
Lemma post_comments_default_counterexample :
  ~ post_comments_default_is_50 5 Sample.db (str Sample.post_id).
Proof.
  intros (l & H & _). vm_compute in H. discriminate.
Qed.

Lemma pagination_params_ok limit offset pg :
  pagination_params limit offset = Ok pg ->
  limit = Some (pg_limit pg) /\ offset = Some (pg_offset pg)
  /\ (1 <= pg_limit pg <= 100)%Z /\ (0 <= pg_offset pg)%Z.
Proof.
  unfold pagination_params.
  destruct limit as [limit|]; [|discriminate].
  destruct offset as [offset|]; [|discriminate].
  destruct ((1 <=? limit)%Z && (limit <=? 100)%Z) eqn:El; simpl; [|discriminate].
  destruct (0 <=? offset)%Z eqn:Eo; simpl; [|discriminate].
  intro H. injection H as <-. simpl.
  apply andb_true_iff in El. destruct El as [E1 E2].
  apply Z.leb_le in E1, E2, Eo. repeat split; assumption.
Qed.

Lemma pagination_params_admits limit offset :
  (1 <= limit <= 100)%Z -> (0 <= offset)%Z ->
  pagination_params (Some limit) (Some offset)
  = Ok {| pg_limit := limit; pg_offset := offset |}.
Proof.
  intros [H1 H2] H3. unfold pagination_params.
  apply Z.leb_le in H1, H2, H3. now rewrite H1, H2, H3.
Qed.

Lemma as_comments_length vs items :
  as_comments vs = Ok items -> List.length items = List.length vs.
Proof.
  revert items. induction vs as [|v vs IH]; simpl; intros items H.
  - now injection H as <-.
  - destruct (as_comment v) as [c|e]; [|discriminate]. cbn [bind] in H.
    destruct (as_comments vs) as [out|e]; [|discriminate]. cbn [bind] in H.
    injection H as <-. simpl. f_equal. now apply IH.
Qed.

(** C9, amended. For a request that supplies [limit] and [offset], the
    pagination dependency admits it exactly when [1 <= limit <= 100] and
    [0 <= offset], and refuses any other value (it does not clamp). The
    three listing routes pass the admitted values on to their data-access
    function, so the limit a request runs with is the one it supplied on
    every one of them. The defaults 10, 50 and 20 are those of the
    data-access functions and apply when these are called without a
    limit, which no route does. *)
Theorem pagination_bounds_and_defaults :
  (forall limit offset pg,
     pagination_params (Some limit) (Some offset) = Ok pg ->
     (1 <= pg_limit pg <= 100)%Z /\ (0 <= pg_offset pg)%Z
     /\ pg_limit pg = limit /\ pg_offset pg = offset)
  /\ (forall limit offset,
        (limit < 1 \/ 100 < limit \/ offset < 0)%Z ->
        pagination_params (Some limit) (Some offset)
        = Raise RequestValidationError)
  /\ (forall limit offset,
        (1 <= limit <= 100)%Z -> (0 <= offset)%Z ->
        pagination_params (Some limit) (Some offset)
        = Ok {| pg_limit := limit; pg_offset := offset |})
  /\ (forall db limit offset status tag author_id l,
        get_posts_route db (Some limit) (Some offset) status tag author_id
        = Ok l ->
        (1 <= limit <= 100)%Z /\ (0 <= offset)%Z
        /\ l_limit l = limit /\ l_offset l = offset
        /\ exists filters,
             post_filter_params status tag author_id = Ok filters
             /\ l_items l = get_posts db (Some (Z.to_nat limit))
                              (Some (Z.to_nat offset)) (Some filters))
  /\ (forall fuel db post_id limit offset include_replies l,
        get_post_comments fuel db post_id (Some limit) (Some offset)
          include_replies
        = Some (Ok l) ->
        (1 <= limit <= 100)%Z /\ (0 <= offset)%Z
        /\ l_limit l = limit /\ l_offset l = offset
        /\ exists comments,
             get_comments_by_post fuel db post_id (Some (Z.to_nat limit))
               (Some (Z.to_nat offset))
               (Some (default_arg false include_replies))
             = Some comments
             /\ as_comments comments = Ok (l_items l))
  /\ (forall db current_user limit offset l,
        read_users_me_comments db current_user (Some limit) (Some offset)
        = Ok l ->
        (1 <= limit <= 100)%Z /\ (0 <= offset)%Z
        /\ l_limit l = limit /\ l_offset l = offset
        /\ exists comments,
             get_user_comments db (cu_id current_user)
               (Some (Z.to_nat limit)) (Some (Z.to_nat offset))
             = Ok comments
             /\ as_comments comments = Ok (l_items l))
  /\ (forall db offset filters,
        get_posts db None offset filters = get_posts db (Some 10) offset filters)
  /\ (forall fuel db post_id offset include_replies,
        get_comments_by_post fuel db post_id None offset include_replies
        = get_comments_by_post fuel db post_id (Some 50) offset include_replies)
  /\ (forall db user_id offset,
        get_user_comments db user_id None offset
        = get_user_comments db user_id (Some 20) offset).
Proof.
  split.
  { intros limit offset pg H.
    destruct (pagination_params_ok _ _ _ H) as (E1 & E2 & H1 & H2).
    injection E1 as E1. injection E2 as E2. repeat split; (lia || now symmetry). }
  split.
  { intros limit offset H. unfold pagination_params.
    destruct ((1 <=? limit)%Z && (limit <=? 100)%Z) eqn:El; simpl; [|reflexivity].
    destruct (0 <=? offset)%Z eqn:Eo; simpl; [|reflexivity].
    apply andb_true_iff in El. destruct El as [E1 E2].
    apply Z.leb_le in E1, E2, Eo. lia. }
  split; [exact pagination_params_admits|].
  split.
  { intros db limit offset status tag author_id l H. unfold get_posts_route in H.
    destruct (pagination_params (Some limit) (Some offset)) as [pg|e] eqn:E;
      [|discriminate].
    cbn [bind] in H.
    destruct (post_filter_params status tag author_id) as [filters|e] eqn:F;
      [|discriminate].
    cbn [bind] in H. injection H as <-. cbn [l_limit l_offset l_items].
    destruct (pagination_params_ok _ _ _ E) as (E1 & E2 & H1 & H2).
    injection E1 as ->. injection E2 as ->.
    repeat split; try lia. now exists filters. }
  split.
  { intros fuel db post_id limit offset include_replies l H.
    unfold get_post_comments in H.
    destruct (pagination_params (Some limit) (Some offset)) as [pg|e] eqn:E;
      [|discriminate].
    destruct (found (get_post_by_id db post_id)); [|discriminate].
    destruct (get_comments_by_post fuel db post_id _ _ _) as [comments|] eqn:G;
      [|discriminate].
    destruct (as_comments comments) as [items|e] eqn:A; [|discriminate].
    cbn [bind] in H. injection H as <-. cbn [l_limit l_offset l_items].
    destruct (pagination_params_ok _ _ _ E) as (E1 & E2 & H1 & H2).
    injection E1 as ->. injection E2 as ->.
    repeat split; try lia. now exists comments. }
  split.
  { intros db current_user limit offset l H. unfold read_users_me_comments in H.
    destruct (pagination_params (Some limit) (Some offset)) as [pg|e] eqn:E;
      [|discriminate].
    cbn [bind] in H.
    destruct (get_user_comments db (cu_id current_user) _ _) as [comments|e] eqn:G;
      [|discriminate].
    cbn [bind] in H.
    destruct (as_comments comments) as [items|e] eqn:A; [|discriminate].
    cbn [bind] in H. injection H as <-. cbn [l_limit l_offset l_items].
    destruct (pagination_params_ok _ _ _ E) as (E1 & E2 & H1 & H2).
    injection E1 as ->. injection E2 as ->.
    repeat split; try lia. now exists comments. }
  repeat split; reflexivity.
Qed.

(* ------------------------------------------------------------------ *)
(** ** The derived summary                                             *)
(* ------------------------------------------------------------------ *)

Lemma string_length_app (a b : string) :
  String.length (a ++ b) = String.length a + String.length b.
Proof. induction a as [|x a IH]; simpl; [reflexivity|now rewrite IH]. Qed.

Lemma string_app_assoc (a b c : string) : ((a ++ b) ++ c = a ++ (b ++ c))%string.
Proof. induction a as [|x a IH]; simpl; [reflexivity|now rewrite IH]. Qed.

Lemma prefix_split p s :
  String.prefix p s = true <-> exists t, s = (p ++ t)%string.
Proof.
  revert s. induction p as [|a p IH]; intro s.
  - split; [intros _; now exists s|]. intros _. now destruct s.
  - destruct s as [|b s]; simpl.
    + split; [discriminate|]. intros (t & H). discriminate.
    + destruct (ascii_dec a b) as [->|Hne].
      * rewrite IH. split; intros (t & H); exists t; [now rewrite H|].
        now injection H.
      * split; [discriminate|]. intros (t & H). injection H as H _. congruence.
Qed.

Lemma slice_to_app p s : slice_to (String.length p) (p ++ s) = p.
Proof.
  unfold slice_to. induction p as [|a p IH]; simpl.
  - now destruct s.
  - now rewrite IH.
Qed.

Lemma slice_to_split n s : exists t, s = (slice_to n s ++ t)%string.
Proof.
  unfold slice_to. revert n. induction s as [|a s IH]; intro n.
  - exists EmptyString. now destruct n.
  - destruct n as [|n]; simpl.
    + now exists (String a s).
    + destruct (IH n) as (t & H). exists t. now rewrite <- H.
Qed.

Lemma slice_to_length n s : String.length (slice_to n s) <= n.
Proof.
  unfold slice_to. revert n. induction s as [|a s IH]; intro n.
  - destruct n; simpl; lia.
  - destruct n as [|n]; simpl; [lia|]. specialize (IH n). lia.
Qed.

Lemma rstrip_split s : exists t, s = (rstrip s ++ t)%string.
Proof.
  induction s as [|a s (t & IH)]; simpl.
  - now exists EmptyString.
  - destruct (rstrip s) as [|b r].
    + destruct (is_space a).
      * now exists (String a s).
      * exists s. reflexivity.
    + exists t. simpl in *. now rewrite <- IH.
Qed.

Lemma rstrip_length s : String.length (rstrip s) <= String.length s.
Proof.
  destruct (rstrip_split s) as (t & H).
  pose proof (f_equal String.length H) as HL.
  rewrite string_length_app in HL. lia.
Qed.

Lemma rfind_from_absent i acc c q :
  string_forallb (fun a => negb (Ascii.eqb a c)) q = true ->
  rfind_from i acc c q = acc.
Proof.
  revert i acc. induction q as [|a q IH]; simpl; intros i acc H; [reflexivity|].
  apply andb_true_iff in H. destruct H as [Ha Hq].
  apply negb_true_iff in Ha. rewrite Ha. now apply IH.
Qed.

Lemma rfind_from_last i acc c p q :
  string_forallb (fun a => negb (Ascii.eqb a c)) q = true ->
  rfind_from i acc c (p ++ String c q) = (i + Z.of_nat (String.length p))%Z.
Proof.
  intro Hq. revert i acc. induction p as [|a p IH]; intros i acc.
  - simpl. rewrite Ascii.eqb_refl, rfind_from_absent by assumption. lia.
  - cbn [append rfind_from String.length]. rewrite IH. lia.
Qed.

Lemma get_summary_short content :
  String.length content <= 200 ->
  get_summary_from_content content None = content.
Proof.
  intro H. unfold get_summary_from_content. simpl.
  apply Nat.leb_le in H. now rewrite H.
Qed.

Lemma get_summary_at_space content p q :
  200 < String.length content ->
  slice_to 200 content = (p ++ String space q)%string ->
  no_space q = true ->
  get_summary_from_content content None = (rstrip p ++ ellipsis)%string.
Proof.
  intros Hlen Hcut Hq. unfold get_summary_from_content. simpl default_arg.
  apply Nat.leb_gt in Hlen. rewrite Hlen, Hcut.
  unfold rfind. rewrite rfind_from_last by exact Hq.
  replace (0 + Z.of_nat (String.length p) =? -1)%Z with false
    by (symmetry; apply Z.eqb_neq; lia).
  simpl negb. cbv iota.
  replace (Z.to_nat (0 + Z.of_nat (String.length p))) with (String.length p) by lia.
  now rewrite slice_to_app.
Qed.

Lemma get_summary_no_space content :
  200 < String.length content ->
  no_space (slice_to 200 content) = true ->
  get_summary_from_content content None
  = (rstrip (slice_to 200 content) ++ ellipsis)%string.
Proof.
  intros Hlen Hq. unfold get_summary_from_content. simpl default_arg.
  apply Nat.leb_gt in Hlen. rewrite Hlen.
  unfold rfind. rewrite rfind_from_absent by exact Hq. reflexivity.
Qed.

Lemma get_summary_long content :
  200 < String.length content -> summary_is_cut_prefix content.
Proof.
  intro Hlen. unfold summary_is_cut_prefix, get_summary_from_content.
  simpl default_arg. pose proof Hlen as Hlt.
  apply Nat.leb_gt in Hlen. rewrite Hlen.
  set (cut := slice_to 200 content).
  set (kept := if negb (rfind cut space =? -1)%Z
               then slice_to (Z.to_nat (rfind cut space)) cut else cut).
  exists (rstrip kept). split; [reflexivity|].
  assert (Hk : (exists t, cut = (kept ++ t)%string)
               /\ String.length kept <= String.length cut).
  { unfold kept. destruct (negb _).
    - destruct (slice_to_split (Z.to_nat (rfind cut space)) cut) as (t & H).
      split; [now exists t|].
      pose proof (f_equal String.length H) as HL.
      rewrite string_length_app in HL. lia.
    - split; [now exists EmptyString; induction cut; simpl; congruence|lia]. }
  destruct Hk as ((t1 & H1) & Hl1).
  destruct (rstrip_split kept) as (t2 & H2).
  destruct (slice_to_split 200 content) as (t3 & H3). fold cut in H3.
  split.
  - apply prefix_split. exists (t2 ++ t1 ++ t3)%string.
    rewrite H3 at 1. rewrite H1 at 1. rewrite H2 at 1.
    now rewrite !string_app_assoc.
  - pose proof (rstrip_length kept). pose proof (slice_to_length 200 content).
    fold cut in H0. lia.
Qed.

(** C8 as the specification words it fails: a content of at most 200
    characters is stored as the summary unchanged, with no ellipsis. *)
Lemma summary_short_counterexample : ~ summary_is_cut_prefix "hello".
Proof.
  intros (p & H & _ & _).
  change (get_summary_from_content "hello" None) with "hello" in H.
  pose proof (f_equal String.length H) as Hl.
  rewrite string_length_app in Hl. simpl in Hl.
  destruct p as [|a [|b [|c p]]]; simpl in Hl; try lia.
  simpl in H. discriminate.
Qed.

Lemma create_post_inserted slugify db post_data author_id now new_id p :
  posts (snd (create_post slugify db post_data author_id now new_id))
  = posts db ++ [p] ->
  exists slug,
    create_slug slugify post_data = Ok slug
    /\ find (by_slug slug) (posts db) = None
    /\ p_slug p = slug
    /\ p_summary p
       = (if negb (truthy_opt (pc_summary post_data))
          then get_summary_from_content (pc_content post_data) None
          else default_arg "" (pc_summary post_data)).
Proof.
  unfold create_post.
  destruct (create_slug slugify post_data) as [slug|e]; simpl.
  - destruct (find (by_slug slug) (posts db)) eqn:F; simpl; intro H.
    + exfalso. apply (f_equal (@List.length _)) in H.
      rewrite length_app in H. simpl in H. lia.
    + apply app_inv_head in H. injection H as <-. exists slug. now repeat split.
  - intro H. exfalso. apply (f_equal (@List.length _)) in H.
    rewrite length_app in H. simpl in H. lia.
Qed.

(** C8, amended. A content of at most 200 characters is its own summary,
    with no ellipsis. A longer content is cut to its first 200 characters,
    cut again before the last space character among them when there is one,
    stripped of trailing white space and followed by "..."; the result is a
    prefix of the content of at most 200 characters plus the ellipsis.
    [create_post] stores this summary when the request carries none. *)
Theorem derived_summary content :
  (String.length content <= 200 ->
   get_summary_from_content content None = content)
  /\ (200 < String.length content ->
      forall p q,
        slice_to 200 content = (p ++ String space q)%string ->
        no_space q = true ->
        get_summary_from_content content None = (rstrip p ++ ellipsis)%string)
  /\ (200 < String.length content ->
      no_space (slice_to 200 content) = true ->
      get_summary_from_content content None
      = (rstrip (slice_to 200 content) ++ ellipsis)%string)
  /\ (200 < String.length content -> summary_is_cut_prefix content)
  /\ (forall slugify db post_data author_id now new_id p,
        pc_content post_data = content ->
        truthy_opt (pc_summary post_data) = false ->
        posts (snd (create_post slugify db post_data author_id now new_id))
        = posts db ++ [p] ->
        p_summary p = get_summary_from_content content None).
Proof.
  split; [apply get_summary_short|].
  split; [intros H p q; now apply get_summary_at_space|].
  split; [apply get_summary_no_space|].
  split; [apply get_summary_long|].
  intros slugify db post_data author_id now new_id p Hc Hs Hp.
  destruct (create_post_inserted _ _ _ _ _ _ _ Hp) as (slug & _ & _ & _ & H).
  now rewrite Hs, Hc in H.
Qed.

(** The scenario of 250 characters: the first 200 end with the space at
    index 199, the summary is the 199 characters before it and "...". *)
Example summary_of_250 :
  String.length content_250 = 250
  /\ get_summary_from_content content_250 None
     = (string_repeat 39 "abcd " ++ "abcd" ++ ellipsis)%string.
Proof. split; reflexivity. Qed.

(* ------------------------------------------------------------------ *)
(** ** Slugs of the post store                                         *)
(* ------------------------------------------------------------------ *)

Lemma NoDup_snoc {K} (l : list K) x : NoDup l -> ~ In x l -> NoDup (l ++ [x]).
Proof.
  induction l as [|y l IH]; simpl; intros Hnd Hx.
  - constructor; [tauto|constructor].
  - inversion Hnd as [|? ? Hy Hl]; subst. constructor.
    + intro Hin. apply in_app_or in Hin. destruct Hin as [Hin|[->|[]]]; tauto.
    + apply IH; tauto.
Qed.

Lemma find_by_slug_none slug ps :
  find (by_slug slug) ps = None -> ~ In slug (map p_slug ps).
Proof.
  intros H Hin. apply in_map_iff in Hin. destruct Hin as (p & E & Hp).
  pose proof (find_none _ _ H p Hp) as F. unfold by_slug in F.
  rewrite E, String.eqb_refl in F. discriminate.
Qed.

Lemma find_by_slug_some slug ps :
  In slug (map p_slug ps) -> exists p, find (by_slug slug) ps = Some p.
Proof.
  intro Hin. destruct (find (by_slug slug) ps) eqn:F; [eauto|].
  now apply find_by_slug_none in F.
Qed.

Section UpdateFirst.

Context {D K : Type}.
Variables (P : D -> bool) (f : D -> D) (key : D -> K).

Lemma in_update_first x l :
  In x (map key (update_first P f l)) ->
  In x (map key l) \/ exists e, find P l = Some e /\ x = key (f e).
Proof.
  induction l as [|d l IH]; simpl; [tauto|].
  destruct (P d); simpl.
  - intros [<-|H]; [right; eauto|tauto].
  - intros [<-|H]; [tauto|]. destruct (IH H); tauto.
Qed.

Lemma NoDup_update_first l :
  NoDup (map key l) ->
  (forall d, find P l = Some d ->
     key (f d) = key d \/ ~ In (key (f d)) (map key l)) ->
  NoDup (map key (update_first P f l)).
Proof.
  induction l as [|d l IH]; simpl; intros Hnd Hkey; [constructor|].
  inversion Hnd as [|? ? Hd Hl]; subst.
  destruct (P d) eqn:E; simpl.
  - constructor; [|assumption].
    destruct (Hkey d eq_refl) as [->|H]; [assumption|]. tauto.
  - constructor.
    + intro Hin. apply in_update_first in Hin.
      destruct Hin as [Hin|(e & He & Hx)]; [contradiction|].
      destruct (Hkey e He) as [H|H].
      * apply Hd. rewrite Hx, H. apply in_map.
        now apply find_some in He.
      * apply H. left. assumption.
    + apply IH; [assumption|]. intros e He.
      destruct (Hkey e He) as [H|H]; [now left|right; tauto].
Qed.

Lemma Forall_update_first (R : D -> Prop) l :
  Forall R l -> (forall d, find P l = Some d -> R (f d)) ->
  Forall R (update_first P f l).
Proof.
  induction l as [|d l IH]; simpl; intros Hall Hf; [constructor|].
  inversion Hall as [|? ? Hd Hl]; subst.
  destruct (P d); constructor; auto.
Qed.

End UpdateFirst.

Section SlugFacts.

Variable slugify : string -> string.

Lemma create_slug_origin post_data slug :
  create_slug slugify post_data = Ok slug -> slug_origin slugify slug.
Proof.
  unfold create_slug, generate_slug.
  destruct (negb (truthy_opt (pc_slug post_data))).
  - intro H. injection H as <-. right. eauto.
  - destruct (is_valid_slug (default_arg "" (pc_slug post_data))) eqn:E; simpl;
      [|discriminate].
    intro H. injection H as <-. now left.
Qed.

Lemma create_slug_malformed post_data s :
  pc_slug post_data = Some s -> truthy s = true -> is_valid_slug s = false ->
  create_slug slugify post_data = Raise invalid_slug.
Proof.
  intros Hs Ht Hv. unfold create_slug. rewrite Hs. simpl. now rewrite Ht, Hv.
Qed.

Lemma update_slug_origin db post_data post slug :
  update_slug slugify db post_data post = Ok (Some slug) ->
  slug_origin slugify slug
  /\ (slug = p_slug post \/ find (by_slug slug) (posts db) = None).
Proof.
  unfold update_slug, generate_slug.
  destruct (pu_slug post_data) as [s|]; [|discriminate].
  assert (Hfinal : forall s', slug_origin slugify s' ->
    (if negb (String.eqb s' (p_slug post))
     then match find (by_slug s') (posts db) with
          | Some _ => Raise duplicate_slug
          | None => Ok (Some s')
          end
     else Ok (Some s')) = Ok (Some slug) ->
    slug_origin slugify slug
    /\ (slug = p_slug post \/ find (by_slug slug) (posts db) = None)).
  { intros s' Ho. destruct (String.eqb s' (p_slug post)) eqn:E; simpl.
    - intro H. injection H as <-. apply String.eqb_eq in E. auto.
    - destruct (find (by_slug s') (posts db)) eqn:F; [discriminate|].
      intro H. injection H as <-. auto. }
  destruct (negb (truthy s)); simpl.
  - apply Hfinal. right. eauto.
  - destruct (is_valid_slug s) eqn:E; simpl; [|discriminate].
    apply Hfinal. now left.
Qed.

Lemma create_post_keeps db post_data author_id now new_id :
  slugs_unique (posts db) ->
  Forall (fun p => slug_origin slugify (p_slug p)) (posts db) ->
  let db' := snd (create_post slugify db post_data author_id now new_id) in
  slugs_unique (posts db')
  /\ Forall (fun p => slug_origin slugify (p_slug p)) (posts db').
Proof.
  intros Hu Ho. unfold create_post.
  destruct (create_slug slugify post_data) as [slug|e] eqn:Hs; simpl; [|auto].
  destruct (find (by_slug slug) (posts db)) eqn:F; simpl; [auto|].
  split.
  - unfold slugs_unique. rewrite map_app. simpl.
    apply NoDup_snoc; [assumption|now apply find_by_slug_none].
  - apply Forall_app. split; [assumption|].
    constructor; [|constructor]. simpl. now apply (create_slug_origin post_data).
Qed.

Lemma update_post_keeps db post_id post_data author_id now :
  slugs_unique (posts db) ->
  Forall (fun p => slug_origin slugify (p_slug p)) (posts db) ->
  let db' := snd (update_post slugify db post_id post_data author_id now) in
  slugs_unique (posts db')
  /\ Forall (fun p => slug_origin slugify (p_slug p)) (posts db').
Proof.
  intros Hu Ho. unfold update_post.
  destruct (ObjectId post_id) as [i|e]; simpl; [|auto].
  destruct (find (by_id p_id i) (posts db)) as [post|] eqn:F; simpl; [|auto].
  destruct (truthy_opt author_id && _); simpl; [auto|].
  destruct (update_slug slugify db post_data post) as [slug|e] eqn:Hs;
    simpl; [|auto].
  split.
  - apply NoDup_update_first; [assumption|].
    intros d Hd. rewrite F in Hd. injection Hd as <-. simpl.
    destruct slug as [s|]; simpl; [|now left].
    destruct (update_slug_origin _ _ _ _ Hs) as (_ & [->|Hn]); [now left|].
    right. now apply find_by_slug_none.
  - apply Forall_update_first; [assumption|].
    intros d Hd. rewrite F in Hd. injection Hd as <-. simpl.
    destruct slug as [s|]; simpl.
    + now destruct (update_slug_origin _ _ _ _ Hs).
    + rewrite Forall_forall in Ho. apply Ho.
      now apply find_some in F.
Qed.

Lemma reachable_slugs db :
  reachable slugify db ->
  slugs_unique (posts db)
  /\ Forall (fun p => slug_origin slugify (p_slug p)) (posts db).
Proof.
  intro H. induction H as [db He|db db' _ [Hu Ho] Hop].
  - unfold slugs_unique. rewrite He. split; constructor.
  - destruct Hop.
    + now apply create_post_keeps.
    + now apply update_post_keeps.
Qed.

End SlugFacts.

(** The second creation with the same title is refused as a duplicate. *)
Example hello_world_twice :
  create_post slugify_model hello_db (hello_world None)
    "0000000000000000000000a1" 1%Z "0000000000000000000000f2"
  = (Raise duplicate_slug, hello_db).
Proof. reflexivity. Qed.

(** The slug derived from a title without a letter or digit is empty
    under the model of the slug utility, and [create_post] stores it
    without running [is_valid_slug] on it. *)
Remark derived_slug_unchecked :
  let db :=
    snd (create_post slugify_model empty_db punctuation_only
           "0000000000000000000000a1" 0%Z "0000000000000000000000f1") in
  map p_slug (posts db) = [""] /\ is_valid_slug "" = false.
Proof. split; reflexivity. Qed.

(* ------------------------------------------------------------------ *)
(** ** The comment store stays well formed                             *)
(* ------------------------------------------------------------------ *)

Lemma NoDup_nodupb l : NoDup l -> nodupb l = true.
Proof.
  induction 1 as [|x l Hx _ IH]; simpl; [reflexivity|].
  rewrite IH, andb_true_r. apply negb_true_iff.
  destruct (existsb (String.eqb x) l) eqn:E; [|reflexivity].
  apply existsb_exists in E. destruct E as (y & Hy & E).
  apply String.eqb_eq in E. now subst.
Qed.

Lemma comments_wf_iff cs :
  comments_wf cs = true
  <-> (Forall (fun c => canonical (c_id c) = true) cs
       /\ NoDup (map c_id cs) /\ parents_first cs = true).
Proof.
  unfold comments_wf. rewrite !andb_true_iff, forallb_forall, Forall_forall.
  split.
  - intros [[H1 H2] H3]. repeat split; auto using nodupb_NoDup.
  - intros (H1 & H2 & H3). repeat split; auto using NoDup_nodupb.
Qed.

Lemma parents_first_filter g cs :
  parents_first cs = true -> parents_first (filter g cs) = true.
Proof.
  induction cs as [|c cs IH]; [reflexivity|].
  cbn [parents_first filter]. intro H.
  apply andb_true_iff in H. destruct H as [Hc Hrest].
  destruct (g c); [|now apply IH].
  cbn [parents_first]. apply andb_true_iff. split; [|now apply IH].
  rewrite forallb_forall in *. intros q [<-|Hq].
  - apply Hc. now left.
  - apply Hc. right. apply filter_In in Hq. tauto.
Qed.

Lemma comments_wf_filter g cs :
  comments_wf cs = true -> comments_wf (filter g cs) = true.
Proof.
  rewrite !comments_wf_iff. intros (H1 & H2 & H3). repeat split.
  - apply Forall_forall. intros c Hc. apply filter_In in Hc.
    rewrite Forall_forall in H1. now apply H1.
  - now apply NoDup_map_filter.
  - now apply parents_first_filter.
Qed.

Lemma authors_readable_filter g cs :
  authors_readable cs = true -> authors_readable (filter g cs) = true.
Proof.
  unfold authors_readable. rewrite !forallb_forall. intros H c Hc.
  apply filter_In in Hc. now apply H.
Qed.

Lemma parents_first_snoc cs c :
  parents_first cs = true ->
  (forall r, In r cs -> c_parent_id r <> Some (str (c_id c))) ->
  c_parent_id c <> Some (str (c_id c)) ->
  parents_first (cs ++ [c]) = true.
Proof.
  intros Hpf Hold Hnew.
  assert (Hno : forall r, c_parent_id r <> Some (str (c_id c)) ->
                  negb (child_of (str (c_id c)) r) = true).
  { intros r H. apply negb_true_iff. apply not_true_iff_false.
    now rewrite child_of_iff. }
  induction cs as [|d cs IH].
  - cbn. now rewrite (Hno c Hnew).
  - change ((d :: cs) ++ [c]) with (d :: (cs ++ [c])).
    cbn [parents_first] in *. apply andb_true_iff in Hpf.
    destruct Hpf as [Hd Hrest]. apply andb_true_iff. split.
    + change (d :: cs ++ [c]) with ((d :: cs) ++ [c]).
      rewrite forallb_app, Hd. cbn. rewrite Hno; [reflexivity|].
      apply Hold. now left.
    + apply IH; [assumption|]. intros r Hr. apply Hold. now right.
Qed.

Lemma canonical_truthy s : canonical s = true -> truthy s = true.
Proof.
  unfold canonical. intro H. apply andb_true_iff in H. destruct H as [H _].
  destruct s; [discriminate|reflexivity].
Qed.

Lemma canonical_readable c :
  canonical (c_author_id c) = true -> readable_author c = true.
Proof.
  intro H. unfold readable_author.
  pose proof (ObjectId_str _ H) as E. unfold str in E.
  now rewrite E, orb_true_r.
Qed.

Lemma create_comment_keeps db comment_data author_id now new_id :
  canonical new_id = true ->
  ~ In new_id (map c_id (comments db)) ->
  (forall r, In r (comments db) -> c_parent_id r <> Some (str new_id)) ->
  canonical author_id = true ->
  comments_wf (comments db) = true ->
  authors_readable (comments db) = true ->
  let db' := snd (create_comment db comment_data author_id now new_id) in
  comments_wf (comments db') = true /\ authors_readable (comments db') = true.
Proof.
  intros Hcan Hfresh Hrefs Hauth Hwf Hread. unfold create_comment.
  destruct (ObjectId (cc_post_id comment_data)) as [pi|e]; simpl; [|auto].
  destruct (find (by_id p_id pi) (posts db)) as [post|]; simpl; [|auto].
  assert (Hinsert : forall parent,
    cc_parent_id comment_data = parent ->
    parent <> Some (str new_id) ->
    let c := {| c_id := new_id; c_content := cc_content comment_data;
                c_post_id := cc_post_id comment_data; c_parent_id := parent;
                c_author_id := author_id; c_created_at := now;
                c_updated_at := now |} in
    comments_wf (comments db ++ [c]) = true
    /\ authors_readable (comments db ++ [c]) = true).
  { intros parent _ Hne c. split.
    - apply comments_wf_iff in Hwf. destruct Hwf as (H1 & H2 & H3).
      apply comments_wf_iff. repeat split.
      + apply Forall_app. split; [assumption|]. now repeat constructor.
      + rewrite map_app. now apply NoDup_snoc.
      + apply parents_first_snoc; assumption.
    - unfold authors_readable in *. rewrite forallb_app, Hread. simpl.
      now rewrite (canonical_readable c Hauth). }
  destruct (cc_parent_id comment_data) as [p|] eqn:Ep.
  - destruct (truthy p) eqn:Tp.
    + destruct (ObjectId p) as [ci|e] eqn:Op; simpl; [|auto].
      destruct (find _ (comments db)) as [q|] eqn:F; simpl; [|auto].
      apply (Hinsert (Some p) eq_refl). intro E. injection E as ->.
      rewrite (ObjectId_str _ Hcan) in Op. injection Op as <-.
      apply find_some in F. destruct F as [Hq Hid].
      apply andb_true_iff in Hid. destruct Hid as [Hid _].
      apply oid_eqb_eq in Hid. apply Hfresh. rewrite <- Hid. now apply in_map.
    + simpl. apply (Hinsert (Some p) eq_refl). intro E. injection E as ->.
      unfold str in Tp. rewrite (canonical_truthy _ Hcan) in Tp. discriminate.
  - simpl. now apply (Hinsert None eq_refl).
Qed.

Section SameSkeleton.

(** An update that keeps id, parent and author of every document. *)
Variables (P : comment_doc -> bool) (f : comment_doc -> comment_doc).
Hypothesis f_id : forall c, c_id (f c) = c_id c.
Hypothesis f_parent : forall c, c_parent_id (f c) = c_parent_id c.
Hypothesis f_author : forall c, c_author_id (f c) = c_author_id c.

Lemma update_first_ids cs : map c_id (update_first P f cs) = map c_id cs.
Proof.
  induction cs as [|c cs IH]; simpl; [reflexivity|].
  destruct (P c); simpl; [now rewrite f_id|now rewrite IH].
Qed.

Lemma forallb_not_parent c c' l l' :
  c_parent_id c' = c_parent_id c -> map c_id l' = map c_id l ->
  forallb (fun q => negb (child_of (str (c_id q)) c')) l'
  = forallb (fun q => negb (child_of (str (c_id q)) c)) l.
Proof.
  intro Hp. revert l'. induction l as [|q l IH]; intros [|q' l'] H;
    try discriminate; [reflexivity|].
  simpl in H. injection H as Hq Hl. simpl.
  unfold child_of at 1 3. now rewrite Hp, Hq, (IH l' Hl).
Qed.

Lemma update_first_parents_first cs :
  parents_first (update_first P f cs) = parents_first cs.
Proof.
  induction cs as [|c cs IH]; [reflexivity|].
  cbn [update_first]. destruct (P c); cbn [parents_first].
  - f_equal. apply forallb_not_parent; [apply f_parent|].
    simpl. now rewrite f_id.
  - rewrite IH. f_equal. apply forallb_not_parent; [reflexivity|].
    simpl. now rewrite update_first_ids.
Qed.

Lemma update_first_keeps cs :
  comments_wf cs = true -> authors_readable cs = true ->
  comments_wf (update_first P f cs) = true
  /\ authors_readable (update_first P f cs) = true.
Proof.
  intros Hwf Hread. split.
  - apply comments_wf_iff in Hwf. destruct Hwf as (H1 & H2 & H3).
    apply comments_wf_iff. repeat split.
    + apply Forall_update_first; [assumption|].
      intros d Hd. rewrite f_id. rewrite Forall_forall in H1. apply H1.
      now apply find_some in Hd.
    + now rewrite update_first_ids.
    + now rewrite update_first_parents_first.
  - unfold authors_readable in *. apply forallb_forall.
    apply Forall_forall. apply Forall_update_first.
    + apply Forall_forall. now apply forallb_forall.
    + intros d Hd. unfold readable_author. rewrite f_author.
      rewrite forallb_forall in Hread. apply Hread. now apply find_some in Hd.
Qed.

End SameSkeleton.

(** What a terminating [delete_comment] leaves: the store itself, or the
    store without the found comment and without the comments whose chain
    contains the id string. *)
Lemma delete_comment_cases fuel db s author_id is_admin success db' :
  comments_wf (comments db) = true ->
  List.length (comments db) < fuel ->
  delete_comment fuel db s author_id is_admin = Some (success, db') ->
  (success = false /\ db' = db)
  \/ exists i c keep,
       ObjectId s = Ok i
       /\ find (by_id c_id i) (comments db) = Some c
       /\ delete_forbidden c author_id is_admin = false
       /\ (forall r, In r (comments db) ->
             (keep r = false <-> in_chain (comments db) s r))
       /\ db' = with_comments db
                  (remove_first (by_id c_id i) (filter keep (comments db))).
Proof.
  intros Hwf Hfuel H.
  destruct (ObjectId s) as [i|e] eqn:Hs.
  2:{ left. unfold delete_comment, delete_comment_body in H. rewrite Hs in H.
      injection H as <- <-. now split. }
  destruct (find (by_id c_id i) (comments db)) as [c|] eqn:Hfind.
  2:{ left. unfold delete_comment, delete_comment_body in H.
      rewrite Hs, Hfind in H. injection H as <- <-. now split. }
  destruct (delete_forbidden c author_id is_admin) eqn:Hperm.
  { left. unfold delete_comment, delete_comment_body in H.
    rewrite Hs, Hfind in H.
    change (negb is_admin && truthy_opt author_id
            && negb (opt_string_eqb (Some (c_author_id c)) author_id))
      with (delete_forbidden c author_id is_admin) in H.
    rewrite Hperm in H. injection H as <- <-. now split. }
  right.
  destruct (delete_comment_found fuel db s i c author_id is_admin
              Hwf Hs Hfind Hperm Hfuel) as (keep & _ & Hkeep & Hdel).
  rewrite Hdel in H. injection H as _ <-.
  exists i, c, keep.
  split; [reflexivity|]. split; [exact Hfind|]. split; [exact Hperm|].
  split; [exact Hkeep|reflexivity].
Qed.

Lemma comment_op_keeps db db' :
  comment_op db db' ->
  comments_wf (comments db) = true -> authors_readable (comments db) = true ->
  comments_wf (comments db') = true /\ authors_readable (comments db') = true.
Proof.
  intros Hop Hwf Hread. destruct Hop as
    [db comment_data author_id now new_id Hcan Hfresh Hrefs Hauth
    |db comment_id comment_data author_id now
    |fuel db comment_id author_id is_admin success db' Hfuel Hdel].
  - now apply create_comment_keeps.
  - unfold update_comment.
    destruct (ObjectId comment_id) as [i|e]; simpl; [|auto].
    destruct (find (by_id c_id i) (comments db)); simpl; [|auto].
    destruct (negb _); simpl; [auto|].
    now apply update_first_keeps.
  - destruct (delete_comment_cases _ _ _ _ _ _ _ Hwf Hfuel Hdel)
      as [[_ ->]|(i & c & keep & _ & _ & _ & _ & ->)]; [auto|].
    simpl. rewrite remove_first_filter.
    + split; [now repeat apply comments_wf_filter
             |now repeat apply authors_readable_filter].
    + apply NoDup_map_filter. apply comments_wf_iff in Hwf. tauto.
Qed.

(** Every state reached from an empty comment store is well formed, so the
    theorems on delete, replies and listings apply to it. *)
Lemma reachable_comments_wf db :
  reachable_comments db ->
  comments_wf (comments db) = true /\ authors_readable (comments db) = true.
Proof.
  induction 1 as [db He|db db' _ [Hwf Hread] Hop].
  - rewrite He. split; reflexivity.
  - now apply (comment_op_keeps db db').
Qed.

(* ------------------------------------------------------------------ *)
(** ** The slug pattern                                                *)
(* ------------------------------------------------------------------ *)

Lemma string_app_nil (s : string) : (s ++ "")%string = s.
Proof. induction s as [|a s IH]; simpl; [reflexivity|now rewrite IH]. Qed.

Lemma slug_word_snoc w a :
  slug_word w -> is_slug_char a = true ->
  slug_word (w ++ String a EmptyString).
Proof.
  intros Hw Ha. induction Hw as [b Hb|b w Hb _ IH]; simpl.
  - apply word_more; [assumption|now apply word_one].
  - now apply word_more.
Qed.

Lemma slug_match_word w t st :
  slug_word w -> slug_match InWord t = true -> slug_match st (w ++ t) = true.
Proof.
  intros Hw Ht. revert st. induction Hw as [a Ha|a w Ha _ IH]; intro st; simpl.
  - now rewrite Ha.
  - rewrite Ha. apply IH.
Qed.

Lemma slug_lang_match s :
  slug_lang s ->
  forall st, slug_match st s = true
             /\ slug_match st (s ++ String newline EmptyString) = true.
Proof.
  induction 1 as [w Hw|w s Hw _ IH]; intro st.
  - split.
    + rewrite <- (string_app_nil w). now apply slug_match_word.
    + now apply slug_match_word.
  - destruct (IH AfterHyphen) as [I1 I2]. split.
    + now apply slug_match_word.
    + rewrite string_app_assoc. now apply slug_match_word.
Qed.

Lemma slug_match_pattern s :
  (slug_match AtStart s = true -> matches_slug_pattern s)
  /\ (slug_match AfterHyphen s = true -> matches_slug_pattern s)
  /\ (slug_match InWord s = true ->
      forall w, slug_word w -> matches_slug_pattern (w ++ s)).
Proof.
  induction s as [|a s (IH1 & IH2 & IH3)].
  - repeat split; try discriminate.
    intros _ w Hw. left. rewrite string_app_nil. now apply lang_word.
  - simpl. destruct (is_slug_char a) eqn:Ea.
    + assert (Hone : slug_match InWord s = true ->
                     matches_slug_pattern (String a s)).
      { intro H. apply (IH3 H (String a EmptyString)). now apply word_one. }
      repeat split; try assumption.
      intros H w Hw.
      replace (w ++ String a s)%string
        with ((w ++ String a EmptyString) ++ s)%string
        by now rewrite string_app_assoc.
      apply IH3; [assumption|now apply slug_word_snoc].
    + repeat split; try discriminate.
      intros H w Hw. destruct (Ascii.eqb a hyphen) eqn:Eh.
      * apply Ascii.eqb_eq in Eh. subst a.
        destruct (IH2 H) as [Hl|(t & -> & Hl)].
        -- left. now apply lang_more.
        -- right. exists (w ++ String hyphen t)%string.
           split; [now rewrite string_app_assoc|now apply lang_more].
      * destruct (Ascii.eqb a newline) eqn:En; [|discriminate].
        apply Ascii.eqb_eq in En. subst a.
        destruct s; [|discriminate].
        right. exists w. split; [reflexivity|now apply lang_word].
Qed.

(** X22. [is_valid_slug] accepts exactly the words of
    [[a-z0-9]+(-[a-z0-9]+)*] and, since [$] of [re.match] also matches
    before a final newline, such a word followed by one newline. *)
Lemma is_valid_slug_pattern s :
  is_valid_slug s = true <-> matches_slug_pattern s.
Proof.
  unfold is_valid_slug. split.
  - apply slug_match_pattern.
  - intros [H|(t & -> & H)]; now apply slug_lang_match.
Qed.

Lemma slugify_from_match s :
  forall started pending,
    (started = true ->
     slug_match InWord (slugify_from started pending s) = true)
    /\ (started = false ->
        slugify_from started pending s = EmptyString
        \/ slug_match AtStart (slugify_from started pending s) = true).
Proof.
  induction s as [|a s IH]; intros started pending.
  - simpl. split; [reflexivity|now left].
  - cbn [slugify_from]. destruct (is_slug_char (to_lower a)) eqn:Ea.
    + destruct (IH true false) as [I1 _]. specialize (I1 eq_refl).
      split.
      * intros ->. destruct pending; simpl.
        -- now rewrite Ea.
        -- now rewrite Ea.
      * intros ->. right. simpl. now rewrite Ea.
    + apply IH.
Qed.

(** The model of the slug utility yields a slug that matches the pattern,
    or the empty string when the text has no letter or digit. *)
Lemma slugify_model_valid text :
  slugify_model text = EmptyString \/ is_valid_slug (slugify_model text) = true.
Proof.
  unfold slugify_model, is_valid_slug.
  now apply (slugify_from_match text false false).
Qed.

(* ================================================================== *)
(** * Further properties                                               *)
(* ================================================================== *)

(* ------------------------------------------------------------------ *)
(** ** Creating a comment                                              *)
(* ------------------------------------------------------------------ *)

Lemma find_snoc_fresh {D} (get_id : D -> oid) l d :
  ~ In (get_id d) (map get_id l) ->
  find (by_id get_id (get_id d)) (l ++ [d]) = Some d.
Proof.
  induction l as [|e l IH]; simpl; intro H.
  - unfold by_id. now rewrite oid_eqb_refl.
  - unfold by_id at 1. destruct (oid_eqb (get_id e) (get_id d)) eqn:E.
    + apply oid_eqb_eq in E. exfalso. apply H. now left.
    + apply IH. intro Hin. apply H. now right.
Qed.








Lemma ObjectId_raises s e : ObjectId s = Raise e -> e = InvalidId.
Proof.
  unfold ObjectId. destruct (_ =? _); [|now intros [= <-]].
  destruct (fromhex s); [discriminate|]. now intros [= <-].
Qed.

Lemma count_by_post_snoc cs c p :
  List.length (filter (on_post p) (cs ++ [c]))
  = List.length (filter (on_post p) cs) + (if on_post p c then 1 else 0).
Proof.
  rewrite filter_app, length_app. simpl. now destruct (on_post p c).
Qed.

Lemma create_comment_accepted db comment_data author_id now new_id pi post :
  ObjectId (cc_post_id comment_data) = Ok pi ->
  find (by_id p_id pi) (posts db) = Some post ->
  (forall p, cc_parent_id comment_data = Some p -> truthy p = true ->
     exists ci q,
       ObjectId p = Ok ci
       /\ find (fun c => by_id c_id ci c && on_post (cc_post_id comment_data) c)
            (comments db) = Some q) ->
  let db' := with_comments db
    (comments db ++ [new_comment comment_data author_id now new_id]) in
  create_comment db comment_data author_id now new_id
  = (get_comment_by_id db' (str new_id), db').
Proof.
  intros Hp Hf Hpar. unfold create_comment. rewrite Hp. cbn [bind]. rewrite Hf.
  destruct (cc_parent_id comment_data) as [p|] eqn:Ep.
  - destruct (truthy p) eqn:Tp.
    + destruct (Hpar p eq_refl Tp) as (ci & q & Hci & Hq).
      rewrite Hci. cbn [bind]. rewrite Hq.
      unfold new_comment. now rewrite Ep.
    + unfold new_comment. now rewrite Ep.
  - unfold new_comment. now rewrite Ep.
Qed.

(** X2. [create_comment] with a fresh ObjectId, the id of a user as author,
    a [post_id] that [ObjectId] reads as the id of a stored post and, when
    a parent is named, a [parent_id] that reads as the id of a stored
    comment with the same [post_id] string: one document is appended, with
    [post_id] and [parent_id] as the request spelled them; the answer is
    the view of that document, which [get_comment_by_id] and the GET route
    return for the new id; the comment count under the [post_id] string of
    the request grows by one and the count under every other string stays.
    So the count under the id storage renders for the post, which is the
    [comments_count] of the post, grows only when the request spelled the
    post id that way. *)
Theorem create_comment_outcome db comment_data author_id now new_id pi post :
  canonical new_id = true ->
  ~ In new_id (map c_id (comments db)) ->
  canonical author_id = true ->
  ObjectId (cc_post_id comment_data) = Ok pi ->
  find (by_id p_id pi) (posts db) = Some post ->
  (forall p, cc_parent_id comment_data = Some p -> truthy p = true ->
     exists ci q,
       ObjectId p = Ok ci
       /\ find (fun c => by_id c_id ci c && on_post (cc_post_id comment_data) c)
            (comments db) = Some q) ->
  let c := new_comment comment_data author_id now new_id in
  let db' := with_comments db (comments db ++ [c]) in
  let v := stored_view db' c in
  create_comment db comment_data author_id now new_id = (Ok (Some v), db')
  /\ get_comment_by_id db' (str new_id) = Ok (Some v)
  /\ get_comment_route db' (str new_id) = Ok v
  /\ v_id v = str new_id
  /\ v_content v = cc_content comment_data
  /\ v_post_id v = cc_post_id comment_data
  /\ v_parent_id v = cc_parent_id comment_data
  /\ v_created_at v = now /\ v_updated_at v = now
  /\ v_replies v = None
  /\ get_comments_count_by_post db' (cc_post_id comment_data)
     = S (get_comments_count_by_post db (cc_post_id comment_data))
  /\ (forall p, p <> cc_post_id comment_data ->
        get_comments_count_by_post db' p = get_comments_count_by_post db p)
  /\ get_comments_count_by_post db' (str (p_id post))
     = get_comments_count_by_post db (str (p_id post))
       + (if String.eqb (cc_post_id comment_data) (str (p_id post))
          then 1 else 0).
Proof.
  intros Hcan Hfresh Hauth Hp Hf Hpar. cbv zeta.
  pose proof (create_comment_accepted db comment_data author_id now new_id
                pi post Hp Hf Hpar) as H. cbv zeta in H.
  set (c := new_comment comment_data author_id now new_id) in *.
  set (db' := with_comments db (comments db ++ [c])) in *.
  assert (Hget : get_comment_by_id db' (str new_id) = Ok (Some (stored_view db' c))).
  { apply get_comment_by_id_found with new_id.
    - now apply ObjectId_str.
    - apply (find_snoc_fresh c_id (comments db) c Hfresh).
    - now apply canonical_readable. }
  assert (Hcount : forall p,
            get_comments_count_by_post db' p
            = get_comments_count_by_post db p
              + (if String.eqb (cc_post_id comment_data) p then 1 else 0)).
  { intro p. unfold get_comments_count_by_post, db'.
    cbn [comments with_comments]. rewrite count_by_post_snoc.
    reflexivity. }
  split; [now rewrite H, Hget|].
  split; [exact Hget|].
  split; [unfold get_comment_route; now rewrite Hget|].
  repeat (split; [reflexivity|]).
  split; [rewrite Hcount, String.eqb_refl; lia|].
  split; [|apply Hcount].
  intros p Hne. rewrite Hcount. apply not_eq_sym in Hne.
  apply String.eqb_neq in Hne. rewrite Hne. lia.
Qed.

Lemma create_comment_outcome_witness :
  let c := new_comment (comment_request post_id_upper None)
            (str Sample.alice_id) 9%Z c5_id in
  let db' := with_comments Sample.db (comments Sample.db ++ [c]) in
  let v := stored_view db' c in
  create_comment Sample.db (comment_request post_id_upper None)
    (str Sample.alice_id) 9%Z c5_id
  = (Ok (Some v), db')
  /\ get_comment_by_id db' (str c5_id) = Ok (Some v)
  /\ get_comment_route db' (str c5_id) = Ok v
  /\ v_id v = str c5_id
  /\ v_content v = "text"
  /\ v_post_id v = post_id_upper
  /\ v_parent_id v = None
  /\ v_created_at v = 9%Z /\ v_updated_at v = 9%Z
  /\ v_replies v = None
  /\ get_comments_count_by_post db' post_id_upper
     = S (get_comments_count_by_post Sample.db post_id_upper)
  /\ (forall p, p <> post_id_upper ->
        get_comments_count_by_post db' p
        = get_comments_count_by_post Sample.db p)
  /\ get_comments_count_by_post db' (str (p_id Sample.the_post))
     = get_comments_count_by_post Sample.db (str (p_id Sample.the_post))
       + (if String.eqb post_id_upper (str (p_id Sample.the_post))
          then 1 else 0).
Proof.
  apply (create_comment_outcome Sample.db (comment_request post_id_upper None)
           (str Sample.alice_id) 9%Z c5_id Sample.post_id Sample.the_post).
  - reflexivity.
  - simpl. intuition discriminate.
  - reflexivity.
  - reflexivity.
  - reflexivity.
  - intros p H. discriminate.
Defined.

(** X3. What [create_comment] refuses, leaving the store as it was: a post
    id [ObjectId] refuses raises [InvalidId] (the function does not catch
    it); one it reads as an id that names no post gives 404 "Post not
    found"; a non-empty parent id [ObjectId] refuses raises [InvalidId];
    and a parent id that reads as an id naming no comment with the
    [post_id] of the request, be it absent or on another post, gives 404
    "Parent comment not found or belongs to different post". [ObjectId]
    refuses a string that has not 24 characters or that [bytes.fromhex]
    refuses; 24 blanks, for one, it reads as an id, which names nothing. *)
Theorem create_comment_rejections db comment_data author_id now new_id :
  (forall e, ObjectId (cc_post_id comment_data) = Raise e ->
     create_comment db comment_data author_id now new_id = (Raise InvalidId, db))
  /\ (forall pi, ObjectId (cc_post_id comment_data) = Ok pi ->
        find (by_id p_id pi) (posts db) = None ->
        create_comment db comment_data author_id now new_id
        = (Raise post_not_found, db))
  /\ (forall pi post p e,
        ObjectId (cc_post_id comment_data) = Ok pi ->
        find (by_id p_id pi) (posts db) = Some post ->
        cc_parent_id comment_data = Some p -> truthy p = true ->
        ObjectId p = Raise e ->
        create_comment db comment_data author_id now new_id
        = (Raise InvalidId, db))
  /\ (forall pi post p ci,
        ObjectId (cc_post_id comment_data) = Ok pi ->
        find (by_id p_id pi) (posts db) = Some post ->
        cc_parent_id comment_data = Some p -> truthy p = true ->
        ObjectId p = Ok ci ->
        (forall c, In c (comments db) -> c_id c = ci ->
           c_post_id c <> cc_post_id comment_data) ->
        create_comment db comment_data author_id now new_id
        = (Raise parent_not_found, db)).
Proof.
  unfold create_comment. repeat split.
  - intros e H. rewrite H. simpl. now rewrite (ObjectId_raises _ _ H).
  - intros pi Hp Hf. rewrite Hp. simpl. now rewrite Hf.
  - intros pi post p e Hp Hf Epar Ht Hpar. rewrite Hp. simpl.
    rewrite Hf, Epar, Ht, Hpar. simpl. now rewrite (ObjectId_raises _ _ Hpar).
  - intros pi post p ci Hp Hf Epar Ht Hpar Hnone. rewrite Hp. simpl.
    rewrite Hf, Epar, Ht, Hpar. simpl.
    destruct (find _ (comments db)) as [q|] eqn:F; [|reflexivity].
    exfalso. apply find_some in F. destruct F as [Hq Hb].
    apply andb_true_iff in Hb. destruct Hb as [Hid Hon].
    apply oid_eqb_eq in Hid. apply String.eqb_eq in Hon.
    now apply (Hnone q Hq Hid).
Qed.

Lemma create_comment_rejections_witness :
  create_comment Sample.db (comment_request malformed_id None)
    (str Sample.bob_id) 9%Z c5_id
  = (Raise InvalidId, Sample.db)
  /\ create_comment Sample.db (comment_request blank_id None)
       (str Sample.bob_id) 9%Z c5_id
     = (Raise post_not_found, Sample.db)
  /\ create_comment Sample.db
       (comment_request (str Sample.post_id) (Some malformed_id))
       (str Sample.bob_id) 9%Z c5_id
     = (Raise InvalidId, Sample.db)
  /\ create_comment Sample.db
       (comment_request (str Sample.post_id) (Some blank_id))
       (str Sample.bob_id) 9%Z c5_id
     = (Raise parent_not_found, Sample.db).
Proof.
  split; [|split; [|split]].
  - apply (proj1 (create_comment_rejections Sample.db
                    (comment_request malformed_id None) (str Sample.bob_id)
                    9%Z c5_id) InvalidId).
    reflexivity.
  - apply (proj1 (proj2 (create_comment_rejections Sample.db
                           (comment_request blank_id None) (str Sample.bob_id)
                           9%Z c5_id)) EmptyString); reflexivity.
  - apply (proj1 (proj2 (proj2 (create_comment_rejections Sample.db
                     (comment_request (str Sample.post_id) (Some malformed_id))
                     (str Sample.bob_id) 9%Z c5_id)))
             Sample.post_id Sample.the_post malformed_id InvalidId);
      reflexivity.
  - apply (proj2 (proj2 (proj2 (create_comment_rejections Sample.db
                     (comment_request (str Sample.post_id) (Some blank_id))
                     (str Sample.bob_id) 9%Z c5_id)))
             Sample.post_id Sample.the_post blank_id EmptyString);
      try reflexivity.
    intros c Hc E. simpl in Hc.
    destruct Hc as [<-|[<-|[<-|[<-|[]]]]]; discriminate.
Defined.

(** A reply to [c1], which is on the first post, sent for the second post
    is refused. *)
Example reply_on_other_post_refused :
  create_comment two_posts_db reply_elsewhere (str Sample.bob_id) 9%Z
    "0000000000000000000000c5"
  = (Raise parent_not_found, two_posts_db).
Proof. reflexivity. Qed.

(* ------------------------------------------------------------------ *)
(** ** Updating a comment                                              *)
(* ------------------------------------------------------------------ *)

Lemma lookup_author_ok db c a :
  lookup_author (handle db) (c_author_id c) = Ok a ->
  readable_author c = true.
Proof.
  unfold lookup_author, readable_author.
  destruct (truthy (c_author_id c)); [|reflexivity]. simpl.
  destruct (ObjectId (c_author_id c)); [reflexivity|discriminate].
Qed.

(** What [get_comment_by_id] found when it returns a view. *)
Lemma get_comment_by_id_inv db s v :
  found (get_comment_by_id db s) = Some v ->
  exists i c,
    ObjectId s = Ok i
    /\ find (by_id c_id i) (comments db) = Some c
    /\ readable_author c = true
    /\ v = stored_view db c.
Proof.
  unfold get_comment_by_id, get_comment_by_id_on.
  destruct (ObjectId s) as [i|e] eqn:Hs; simpl; [|discriminate].
  destruct (find (by_id c_id i) (comments db)) as [c|] eqn:F; simpl;
    [|discriminate].
  destruct (lookup_author (handle db) (c_author_id c)) as [a|e] eqn:L; simpl;
    [|discriminate].
  intro H. injection H as <-. exists i, c.
  pose proof (lookup_author_ok db c a L) as Hr.
  repeat split; try assumption.
  unfold stored_view. f_equal.
  rewrite (lookup_author_readable db c Hr) in L. now injection L.
Qed.

Lemma find_update_first {D} (P : D -> bool) (f : D -> D) l d :
  (forall x, P (f x) = P x) ->
  find P l = Some d -> find P (update_first P f l) = Some (f d).
Proof.
  intro HP. induction l as [|e l IH]; simpl; [discriminate|].
  destruct (P e) eqn:E; simpl.
  - intro H. injection H as <-. now rewrite HP, E.
  - rewrite E. exact IH.
Qed.

Lemma map_update_first_same {D K} (P : D -> bool) (f : D -> D) (key : D -> K) l :
  (forall x, key (f x) = key x) ->
  map key (update_first P f l) = map key l.
Proof.
  intro Hk. induction l as [|e l IH]; simpl; [reflexivity|].
  destruct (P e); simpl; [now rewrite Hk|now rewrite IH].
Qed.

(** [update_comment] for the stored author: the effect and the answer. *)
Lemma update_comment_effect db s i c comment_data now :
  ObjectId s = Ok i ->
  find (by_id c_id i) (comments db) = Some c ->
  readable_author c = true ->
  let db' := with_comments db
    (update_first (by_id c_id i) (set_content (upd_content comment_data) now)
       (comments db)) in
  update_comment db s comment_data (c_author_id c) now
  = (Ok (Some (stored_view db' (set_content (upd_content comment_data) now c))),
     db').
Proof.
  intros Hs Hfind Hread db'.
  unfold update_comment. rewrite Hs, Hfind, String.eqb_refl. simpl. fold db'.
  f_equal. apply get_comment_by_id_found with i; [assumption| |assumption].
  unfold db'. cbn [comments with_comments].
  now apply (find_update_first (by_id c_id i)).
Qed.

(** X5. On every database, for every id string, request and user,
    [update_comment_route] has one of three outcomes: 404 with the store as
    it was, 403 with the store as it was, or success. It succeeds only for
    the user whose id is the stored [author_id]; then the answer shows the
    new content and the new [updated_at] with id, post, parent and
    [created_at] as before, and the store differs from the old one in that
    one document only: the ids, the users and the posts are the same. *)
Theorem update_comment_route_outcome db s comment_data current_user now :
  update_comment_route db s comment_data current_user now
  = (Raise (not_found_comment s), db)
  \/ update_comment_route db s comment_data current_user now
     = (Raise forbidden_update, db)
  \/ exists i c v db',
       ObjectId s = Ok i
       /\ find (by_id c_id i) (comments db) = Some c
       /\ c_author_id c = cu_id current_user
       /\ update_comment_route db s comment_data current_user now
          = (Ok (Some v), db')
       /\ v_id v = str (c_id c)
       /\ v_content v = upd_content comment_data
       /\ v_updated_at v = now
       /\ v_created_at v = c_created_at c
       /\ v_post_id v = c_post_id c
       /\ v_parent_id v = c_parent_id c
       /\ comments db'
          = update_first (by_id c_id i)
              (set_content (upd_content comment_data) now) (comments db)
       /\ map c_id (comments db') = map c_id (comments db)
       /\ users db' = users db /\ posts db' = posts db.
Proof.
  unfold update_comment_route.
  destruct (found (get_comment_by_id db s)) as [view|] eqn:G; [|now left].
  destruct (get_comment_by_id_inv db s view G) as (i & c & Hs & Hfind & Hread & ->).
  destruct (negb _ && negb _); [right; now left|].
  destruct (String.eqb (c_author_id c) (cu_id current_user)) eqn:E.
  - apply String.eqb_eq in E. right. right. rewrite <- E.
    rewrite (update_comment_effect db s i c comment_data now Hs Hfind Hread).
    eexists i, c, _, _.
    split; [exact Hs|]. split; [exact Hfind|]. split; [reflexivity|].
    split; [reflexivity|].
    repeat (split; [reflexivity|]).
    split; [|split; reflexivity].
    cbn [comments with_comments]. now apply map_update_first_same.
  - right. left. unfold update_comment. rewrite Hs, Hfind, E. reflexivity.
Qed.

(** X6. The author can edit: when the stored [author_id] of a comment is
    the id of the current user and that user's document exists, the route
    succeeds whatever the role, and the answer carries the new content. *)
Theorem update_comment_route_by_author db c a comment_data current_user now :
  comments_wf (comments db) = true ->
  In c (comments db) ->
  c_author_id c = cu_id current_user ->
  canonical (cu_id current_user) = true ->
  find (by_id u_id (cu_id current_user)) (users db) = Some a ->
  exists v db',
    update_comment_route db (str (c_id c)) comment_data current_user now
    = (Ok (Some v), db')
    /\ v_content v = upd_content comment_data
    /\ v_updated_at v = now
    /\ get_comment_by_id db' (str (c_id c)) = Ok (Some v)
    /\ List.length (comments db') = List.length (comments db).
Proof.
  intros Hwf Hc Hauth Hcan Huser.
  pose proof (comments_wf_forest _ Hwf) as Hf.
  pose proof (forest_stored_id _ _ _ _ Hf Hc) as Hs.
  assert (Hfind : find (by_id c_id (c_id c)) (comments db) = Some c).
  { destruct Hf as (Hnd & _). now apply find_by_id_stored. }
  assert (Hread : readable_author c = true).
  { apply canonical_readable. now rewrite Hauth. }
  assert (Ha : author_of db c = Some a).
  { unfold author_of. rewrite Hauth, (canonical_truthy _ Hcan).
    pose proof (ObjectId_str _ Hcan) as E. unfold str in E. now rewrite E. }
  assert (Hid : str (u_id a) = cu_id current_user).
  { apply find_by_id_some in Huser. now destruct Huser. }
  pose proof (update_comment_route_author db _ _ c a comment_data current_user now
                Hs Hfind Hread Ha Hid Hauth) as Hroute.
  cbv zeta in Hroute.
  pose proof (update_comment_effect db _ _ c comment_data now Hs Hfind Hread)
    as Heff. cbv zeta in Heff.
  unfold update_comment in Heff. rewrite Hs, Hfind, String.eqb_refl in Heff.
  simpl in Heff. injection Heff as Hget.
  eexists _, _. split; [rewrite Hroute, Hget; reflexivity|].
  split; [reflexivity|]. split; [reflexivity|]. split; [exact Hget|].
  cbn [comments with_comments].
  rewrite <- (length_map c_id), <- (length_map c_id (comments db)).
  f_equal. now apply map_update_first_same.
Qed.

Lemma update_comment_route_by_author_witness :
  exists v db',
    update_comment_route Sample.db (str (c_id Sample.c1))
      {| upd_content := "edited" |} Sample.alice 9%Z
    = (Ok (Some v), db')
    /\ v_content v = "edited"
    /\ v_updated_at v = 9%Z
    /\ get_comment_by_id db' (str (c_id Sample.c1)) = Ok (Some v)
    /\ List.length (comments db') = List.length (comments Sample.db).
Proof.
  apply (update_comment_route_by_author Sample.db Sample.c1
           (Sample.user Sample.alice_id "alice")).
  - reflexivity.
  - simpl. tauto.
  - reflexivity.
  - reflexivity.
  - reflexivity.
Defined.

(* ------------------------------------------------------------------ *)
(** ** Ids that name nothing                                           *)
(* ------------------------------------------------------------------ *)

Lemma get_comment_by_id_unknown db s :
  (forall c, In c (comments db) -> ObjectId s <> Ok (c_id c)) ->
  found (get_comment_by_id db s) = None.
Proof.
  intro H. destruct (found (get_comment_by_id db s)) as [v|] eqn:G; [|reflexivity].
  destruct (get_comment_by_id_inv db s v G) as (i & c & Hs & Hfind & _).
  apply find_by_id_some in Hfind. destruct Hfind as [Hc <-].
  now destruct (H c Hc).
Qed.

(** X7. An id string that names no stored comment, because [ObjectId]
    refuses it or because it reads as an id no comment has, gets 404 from
    the four comment routes that take an id, and the store stays as it
    was. The routes never surface [InvalidId]: [update_comment] itself
    raises it on a string [ObjectId] refuses, and returns [None] on one
    that reads as an unknown id. *)
Theorem unknown_comment_id_404 fuel db s comment_data current_user now :
  (forall c, In c (comments db) -> ObjectId s <> Ok (c_id c)) ->
  get_comment_route db s = Raise (not_found_comment s)
  /\ get_comment_with_replies_route fuel db s
     = Some (Raise (not_found_comment s))
  /\ update_comment_route db s comment_data current_user now
     = (Raise (not_found_comment s), db)
  /\ delete_comment_route fuel db s current_user
     = Some (Raise (not_found_comment s), db)
  /\ (forall e author_id, ObjectId s = Raise e ->
        update_comment db s comment_data author_id now = (Raise InvalidId, db))
  /\ (forall i author_id, ObjectId s = Ok i ->
        update_comment db s comment_data author_id now = (Ok None, db)).
Proof.
  intro H. pose proof (get_comment_by_id_unknown db s H) as G.
  unfold get_comment_route, get_comment_with_replies_route,
    update_comment_route, delete_comment_route. rewrite G.
  repeat split.
  - intros e author_id He. unfold update_comment. rewrite He.
    now rewrite (ObjectId_raises _ _ He).
  - intros i author_id Hi. unfold update_comment. rewrite Hi.
    destruct (find (by_id c_id i) (comments db)) as [c|] eqn:F; [|reflexivity].
    apply find_by_id_some in F. destruct F as [Hc <-]. now destruct (H c Hc).
Qed.

Lemma unknown_comment_id_404_witness :
  (get_comment_route Sample.db malformed_id
   = Raise (not_found_comment malformed_id)
   /\ get_comment_with_replies_route 0 Sample.db malformed_id
      = Some (Raise (not_found_comment malformed_id))
   /\ update_comment_route Sample.db malformed_id {| upd_content := "x" |}
        Sample.alice 9%Z
      = (Raise (not_found_comment malformed_id), Sample.db)
   /\ delete_comment_route 0 Sample.db malformed_id Sample.alice
      = Some (Raise (not_found_comment malformed_id), Sample.db)
   /\ update_comment Sample.db malformed_id {| upd_content := "x" |}
        (cu_id Sample.alice) 9%Z
      = (Raise InvalidId, Sample.db))
  /\ (get_comment_route Sample.db blank_id = Raise (not_found_comment blank_id)
      /\ update_comment Sample.db blank_id {| upd_content := "x" |}
           (cu_id Sample.alice) 9%Z
         = (Ok None, Sample.db)).
Proof.
  split.
  - destruct (unknown_comment_id_404 0 Sample.db malformed_id
                {| upd_content := "x" |} Sample.alice 9%Z)
      as (H1 & H2 & H3 & H4 & H5 & _).
    + intros c _ H. vm_compute in H. discriminate.
    + split; [exact H1|]. split; [exact H2|]. split; [exact H3|].
      split; [exact H4|]. now apply (H5 InvalidId).
  - destruct (unknown_comment_id_404 0 Sample.db blank_id
                {| upd_content := "x" |} Sample.alice 9%Z)
      as (H1 & _ & _ & _ & _ & H6).
    + intros c Hc H. vm_compute in H. injection H as H.
      simpl in Hc. destruct Hc as [<-|[<-|[<-|[<-|[]]]]]; discriminate.
    + split; [exact H1|]. now apply (H6 EmptyString).
Defined.

(* ------------------------------------------------------------------ *)
(** ** Reading one post                                                *)
(* ------------------------------------------------------------------ *)

Lemma posts_wf_iff ps :
  posts_wf ps = true
  <-> (Forall (fun p => canonical (p_id p) = true) ps
       /\ NoDup (map p_id ps)
       /\ Forall (fun p => readable_post_author p = true) ps).
Proof.
  unfold posts_wf. rewrite !andb_true_iff, !forallb_forall, !Forall_forall.
  split.
  - intros [[H1 H2] H3]. repeat split; auto using nodupb_NoDup.
  - intros (H1 & H2 & H3). repeat split; auto using NoDup_nodupb.
Qed.

Lemma lookup_post_author db p :
  readable_post_author p = true ->
  lookup_author (handle db) (p_author_id p) = Ok (post_author_of db p).
Proof.
  unfold readable_post_author, lookup_author, post_author_of. intro H.
  destruct (truthy (p_author_id p)); [|reflexivity].
  simpl in H. destruct (ObjectId (p_author_id p)); [reflexivity|discriminate].
Qed.

Lemma get_post_by_id_found db s i p :
  ObjectId s = Ok i ->
  find (by_id p_id i) (posts db) = Some p ->
  readable_post_author p = true ->
  get_post_by_id db s = Ok (Some (stored_post_view db p)).
Proof.
  intros Hs Hfind Hread.
  unfold get_post_by_id, get_post_by_id_on. rewrite Hs. simpl.
  rewrite Hfind, (lookup_post_author db p Hread). reflexivity.
Qed.

Lemma get_post_by_id_stored db p :
  posts_wf (posts db) = true -> In p (posts db) ->
  get_post_by_id db (str (p_id p)) = Ok (Some (stored_post_view db p)).
Proof.
  intros Hwf Hp. apply posts_wf_iff in Hwf. destruct Hwf as (H1 & H2 & H3).
  rewrite Forall_forall in H1, H3.
  apply get_post_by_id_found with (p_id p).
  - apply ObjectId_str. now apply H1.
  - now apply find_by_id_stored.
  - now apply H3.
Qed.

Lemma get_post_by_id_inv db s v :
  found (get_post_by_id db s) = Some v ->
  exists i p,
    ObjectId s = Ok i
    /\ find (by_id p_id i) (posts db) = Some p
    /\ readable_post_author p = true
    /\ v = stored_post_view db p.
Proof.
  unfold get_post_by_id, get_post_by_id_on.
  destruct (ObjectId s) as [i|e] eqn:Hs; simpl; [|discriminate].
  destruct (find (by_id p_id i) (posts db)) as [p|] eqn:F; simpl;
    [|discriminate].
  destruct (lookup_author (handle db) (p_author_id p)) as [a|e] eqn:L; simpl;
    [|discriminate].
  intro H. injection H as <-. exists i, p.
  assert (Hr : readable_post_author p = true).
  { unfold lookup_author in L. unfold readable_post_author.
    destruct (truthy (p_author_id p)); [|reflexivity]. simpl in *.
    destruct (ObjectId (p_author_id p)); [reflexivity|discriminate]. }
  repeat split; try assumption.
  unfold stored_post_view. rewrite (lookup_post_author db p Hr) in L.
  now injection L as <-.
Qed.

Lemma get_post_by_id_unknown db s :
  (forall p, In p (posts db) -> ObjectId s <> Ok (p_id p)) ->
  found (get_post_by_id db s) = None.
Proof.
  intro H. destruct (found (get_post_by_id db s)) as [v|] eqn:G; [|reflexivity].
  destruct (get_post_by_id_inv db s v G) as (i & p & Hs & Hfind & _).
  apply find_by_id_some in Hfind. destruct Hfind as [Hp <-].
  now destruct (H p Hp).
Qed.

(** X8. An id string that names no stored post, because [ObjectId]
    refuses it or because it reads as an id no post has, gets 404 from the
    routes that read, update and delete a post and, for a request the
    pagination admits, from the comment listing of a post, with the store
    as it was. [delete_post] itself returns [False]; [update_post] raises
    [InvalidId] on a string [ObjectId] refuses and returns [None] on one
    that reads as an unknown id. *)
Theorem unknown_post_id_404 slugify fuel db s post_data current_user now
  limit offset include_replies pg :
  (forall p, In p (posts db) -> ObjectId s <> Ok (p_id p)) ->
  pagination_params limit offset = Ok pg ->
  get_post_by_id_route db s = Raise (not_found_post s)
  /\ update_post_route slugify db s post_data current_user now
     = (Raise (not_found_post s), db)
  /\ delete_post_route db s current_user = (Raise (not_found_post s), db)
  /\ get_post_comments fuel db s limit offset include_replies
     = Some (Raise (not_found_post s))
  /\ (forall author_id, delete_post db s author_id = (false, db))
  /\ (forall e author_id, ObjectId s = Raise e ->
        update_post slugify db s post_data author_id now = (Raise InvalidId, db))
  /\ (forall i author_id, ObjectId s = Ok i ->
        update_post slugify db s post_data author_id now = (Ok None, db)).
Proof.
  intros H Hpg. pose proof (get_post_by_id_unknown db s H) as G.
  unfold get_post_by_id_route, update_post_route, delete_post_route,
    get_post_comments. rewrite G, Hpg.
  repeat split.
  - intro author_id. unfold delete_post, delete_post_body.
    destruct (ObjectId s) as [i|e] eqn:Hs; [|reflexivity].
    destruct (find (by_id p_id i) (posts db)) as [p|] eqn:F; [|reflexivity].
    apply find_by_id_some in F. destruct F as [Hp <-]. now destruct (H p Hp).
  - intros e author_id He. unfold update_post. rewrite He.
    now rewrite (ObjectId_raises _ _ He).
  - intros i author_id Hi. unfold update_post. rewrite Hi.
    destruct (find (by_id p_id i) (posts db)) as [p|] eqn:F; [|reflexivity].
    apply find_by_id_some in F. destruct F as [Hp <-]. now destruct (H p Hp).
Qed.

Lemma unknown_post_id_404_witness :
  (get_post_by_id_route Sample.db malformed_id
   = Raise (not_found_post malformed_id)
   /\ update_post_route slugify_model Sample.db malformed_id empty_patch
        Sample.alice 9%Z
      = (Raise (not_found_post malformed_id), Sample.db)
   /\ delete_post_route Sample.db malformed_id Sample.alice
      = (Raise (not_found_post malformed_id), Sample.db)
   /\ get_post_comments 0 Sample.db malformed_id (Some 10%Z) (Some 0%Z) None
      = Some (Raise (not_found_post malformed_id))
   /\ delete_post Sample.db malformed_id None = (false, Sample.db)
   /\ update_post slugify_model Sample.db malformed_id empty_patch None 9%Z
      = (Raise InvalidId, Sample.db))
  /\ (get_post_by_id_route Sample.db blank_id = Raise (not_found_post blank_id)
      /\ update_post slugify_model Sample.db blank_id empty_patch None 9%Z
         = (Ok None, Sample.db)).
Proof.
  split.
  - destruct (unknown_post_id_404 slugify_model 0 Sample.db malformed_id
                empty_patch Sample.alice 9%Z (Some 10%Z) (Some 0%Z) None
                {| pg_limit := 10; pg_offset := 0 |})
      as (H1 & H2 & H3 & H4 & H5 & H6 & _).
    + intros p _ H. vm_compute in H. discriminate.
    + reflexivity.
    + split; [exact H1|]. split; [exact H2|]. split; [exact H3|].
      split; [exact H4|]. split; [apply H5|]. now apply (H6 InvalidId).
  - destruct (unknown_post_id_404 slugify_model 0 Sample.db blank_id
                empty_patch Sample.alice 9%Z (Some 10%Z) (Some 0%Z) None
                {| pg_limit := 10; pg_offset := 0 |})
      as (H1 & _ & _ & _ & _ & _ & H7).
    + intros p Hp H. vm_compute in H. injection H as H.
      simpl in Hp. destruct Hp as [<-|[]]. discriminate.
    + reflexivity.
    + split; [exact H1|]. now apply (H7 EmptyString).
Defined.

(* ------------------------------------------------------------------ *)
(** ** Deleting a post                                                 *)
(* ------------------------------------------------------------------ *)

Lemma delete_post_permitted db p s author_id :
  posts_wf (posts db) = true -> In p (posts db) ->
  ObjectId s = Ok (p_id p) ->
  update_forbidden p author_id = false ->
  delete_post db s author_id = (true, without_post db p s).
Proof.
  intros Hwf Hp Hs Hperm. apply posts_wf_iff in Hwf. destruct Hwf as (H1 & H2 & _).
  unfold delete_post, delete_post_body.
  rewrite Hs, (find_by_id_stored p_id p _ H2 Hp).
  unfold update_forbidden in Hperm. rewrite Hperm.
  cbn [posts with_comments].
  unfold deleted_count.
  rewrite (existsb_by_id p_id (p_id p) (posts db)) by now apply in_map.
  rewrite (remove_first_filter p_id _ _ H2). reflexivity.
Qed.

Lemma count_after_delete_post db p s other :
  get_comments_count_by_post (without_post db p s) other
  = if String.eqb other s then 0
    else get_comments_count_by_post db other.
Proof.
  unfold get_comments_count_by_post, without_post. cbn [comments with_posts with_comments].
  rewrite filter_twice.
  destruct (String.eqb other s) eqn:E.
  - apply String.eqb_eq in E. subst other.
    rewrite filter_none; [reflexivity|].
    intros c _. now destruct (on_post s c).
  - f_equal. apply filter_ext. intro c. unfold on_post.
    destruct (String.eqb (c_post_id c) other) eqn:E1.
    + apply String.eqb_eq in E1. subst other.
      rewrite E. reflexivity.
    + now rewrite andb_false_r.
Qed.

(** X9. [delete_post], called with any spelling [s] of the id of a stored
    post by a caller its author test lets through, returns [True];
    afterwards the post is gone and the id reads as absent; the comments
    removed are exactly those whose stored [post_id] is the string [s], so
    the count under [s] is 0 and the count under every other string is as
    before; every other post and every user is as before; a second call
    returns [False] and changes nothing. A comment that [create_comment]
    accepted for the post under another spelling of its id than [s] is
    not removed. *)
Theorem delete_post_cascade db p s author_id :
  posts_wf (posts db) = true -> In p (posts db) ->
  ObjectId s = Ok (p_id p) ->
  update_forbidden p author_id = false ->
  exists db',
    delete_post db s author_id = (true, db')
    /\ (forall q, In q (posts db') <-> In q (posts db) /\ p_id q <> p_id p)
    /\ (forall c, In c (comments db')
                  <-> In c (comments db) /\ c_post_id c <> s)
    /\ (forall c, In c (comments db) ->
          ObjectId (c_post_id c) = Ok (p_id p) -> c_post_id c <> s ->
          In c (comments db'))
    /\ users db' = users db
    /\ List.length (posts db') + 1 = List.length (posts db)
    /\ get_comments_count_by_post db' s = 0
    /\ (forall other, other <> s ->
          get_comments_count_by_post db' other
          = get_comments_count_by_post db other)
    /\ get_post_by_id db' s = Ok None
    /\ delete_post db' s author_id = (false, db').
Proof.
  intros Hwf Hp Hs Hperm. exists (without_post db p s).
  pose proof Hwf as Hwf'. apply posts_wf_iff in Hwf'.
  destruct Hwf' as (H1 & H2 & _).
  assert (Hgone : find (by_id p_id (p_id p)) (posts (without_post db p s)) = None).
  { unfold without_post. cbn [posts with_posts].
    rewrite <- (remove_first_filter p_id _ _ H2).
    now apply find_after_remove_first. }
  assert (Hcs : forall c, In c (comments (without_post db p s))
                          <-> In c (comments db) /\ c_post_id c <> s).
  { intro c. unfold without_post. cbn [comments with_posts with_comments].
    rewrite filter_In, negb_true_iff. unfold on_post.
    rewrite String.eqb_neq. reflexivity. }
  split; [now apply delete_post_permitted|].
  split.
  { intro q. unfold without_post. cbn [posts with_posts].
    rewrite filter_In, negb_true_iff. unfold by_id, oid_eqb.
    rewrite String.eqb_neq. reflexivity. }
  split; [exact Hcs|].
  split; [intros c Hc _ Hne; apply Hcs; now split|].
  split; [reflexivity|].
  split.
  { unfold without_post. cbn [posts with_posts].
    pose proof (filter_split_length (by_id p_id (p_id p)) (posts db)) as L.
    rewrite (length_filter_by_id p_id p _ H2 Hp) in L. lia. }
  split.
  { rewrite count_after_delete_post. now rewrite String.eqb_refl. }
  split.
  { intros other Ho. rewrite count_after_delete_post.
    apply String.eqb_neq in Ho. now rewrite Ho. }
  split.
  { unfold get_post_by_id, get_post_by_id_on. rewrite Hs.
    unfold try_except, bind, handle. cbn [posts_find_one].
    now rewrite Hgone. }
  unfold delete_post, delete_post_body. rewrite Hs, Hgone. reflexivity.
Qed.

Lemma delete_post_cascade_witness :
  exists db',
    delete_post respelled_post_db (str (p_id Sample.the_post)) None = (true, db')
    /\ (forall q, In q (posts db')
                  <-> In q (posts respelled_post_db)
                      /\ p_id q <> p_id Sample.the_post)
    /\ (forall c, In c (comments db')
                  <-> In c (comments respelled_post_db)
                      /\ c_post_id c <> str (p_id Sample.the_post))
    /\ (forall c, In c (comments respelled_post_db) ->
          ObjectId (c_post_id c) = Ok (p_id Sample.the_post) ->
          c_post_id c <> str (p_id Sample.the_post) ->
          In c (comments db'))
    /\ users db' = users respelled_post_db
    /\ List.length (posts db') + 1 = List.length (posts respelled_post_db)
    /\ get_comments_count_by_post db' (str (p_id Sample.the_post)) = 0
    /\ (forall other, other <> str (p_id Sample.the_post) ->
          get_comments_count_by_post db' other
          = get_comments_count_by_post respelled_post_db other)
    /\ get_post_by_id db' (str (p_id Sample.the_post)) = Ok None
    /\ delete_post db' (str (p_id Sample.the_post)) None = (false, db').
Proof.
  apply (delete_post_cascade respelled_post_db Sample.the_post
           (str (p_id Sample.the_post)) None).
  - reflexivity.
  - simpl. tauto.
  - reflexivity.
  - reflexivity.
Defined.

(** The comment [c6] was accepted for the sample post under the
    upper-case spelling of the post id; the delete of the post by its
    lower-case id leaves it, and the delete by the upper-case id leaves the
    four others. *)
Example delete_post_two_spellings :
  create_comment Sample.db (comment_request post_id_upper None)
    (str Sample.bob_id) 6%Z (c_id c6)
  = (Ok (Some (stored_view respelled_post_db c6)), respelled_post_db)
  /\ comments (snd (delete_post respelled_post_db (str Sample.post_id) None))
     = [c6]
  /\ comments (snd (delete_post respelled_post_db post_id_upper None))
     = [Sample.c1; Sample.c2; Sample.c3; Sample.c4]
  /\ posts (snd (delete_post respelled_post_db post_id_upper None)) = [].
Proof. repeat split; reflexivity. Qed.

(** X10. When the author test of the post store fails for a stored post,
    [update_post] raises 403 and [delete_post] returns [False]: its
    [except] clause takes the 403 it raised. Neither changes the store. *)
Theorem post_store_forbidden slugify db p post_data author_id now :
  posts_wf (posts db) = true -> In p (posts db) ->
  update_forbidden p author_id = true ->
  update_post slugify db (str (p_id p)) post_data author_id now
  = (Raise forbidden_post_update, db)
  /\ delete_post db (str (p_id p)) author_id = (false, db).
Proof.
  intros Hwf Hp Hperm. apply posts_wf_iff in Hwf. destruct Hwf as (H1 & H2 & _).
  rewrite Forall_forall in H1.
  unfold update_post, delete_post, delete_post_body.
  rewrite (ObjectId_str _ (H1 p Hp)), (find_by_id_stored p_id p _ H2 Hp).
  unfold update_forbidden in Hperm. rewrite Hperm. split; reflexivity.
Qed.

Lemma post_store_forbidden_witness :
  update_post slugify_model Sample.db (str (p_id Sample.the_post)) empty_patch
    (Some (cu_id Sample.bob)) 9%Z
  = (Raise forbidden_post_update, Sample.db)
  /\ delete_post Sample.db (str (p_id Sample.the_post)) (Some (cu_id Sample.bob))
     = (false, Sample.db).
Proof.
  apply (post_store_forbidden slugify_model Sample.db Sample.the_post).
  - reflexivity.
  - simpl. tauto.
  - reflexivity.
Defined.

(* ------------------------------------------------------------------ *)
(** ** Who may change a post                                           *)
(* ------------------------------------------------------------------ *)

Lemma author_id_of_stored_post db p u :
  opt_string_eqb (author_id_of_post_view (stored_post_view db p)) (Some (cu_id u))
  = authored_by db p u.
Proof.
  unfold authored_by, author_id_of_post_view, stored_post_view, view_of_post.
  cbn [pv_author]. now destruct (post_author_of db p).
Qed.

(** X11. A user who is neither editor nor admin, and whose id is not that
    of the user document the post's author_id leads to, gets 403 from the
    update and the delete route of a stored post, and the store stays as
    it was. *)
Theorem post_routes_forbidden slugify db p post_data current_user now :
  posts_wf (posts db) = true -> In p (posts db) ->
  is_editor_or_admin current_user = false ->
  authored_by db p current_user = false ->
  update_post_route slugify db (str (p_id p)) post_data current_user now
  = (Raise forbidden_post_update, db)
  /\ delete_post_route db (str (p_id p)) current_user
     = (Raise forbidden_post_delete, db).
Proof.
  intros Hwf Hp Hrole Hauth.
  unfold update_post_route, delete_post_route.
  rewrite (get_post_by_id_stored db p Hwf Hp). cbn [found].
  rewrite author_id_of_stored_post, Hrole, Hauth. split; reflexivity.
Qed.

Lemma post_routes_forbidden_witness :
  update_post_route slugify_model Sample.db (str (p_id Sample.the_post))
    empty_patch Sample.bob 9%Z
  = (Raise forbidden_post_update, Sample.db)
  /\ delete_post_route Sample.db (str (p_id Sample.the_post)) Sample.bob
     = (Raise forbidden_post_delete, Sample.db).
Proof.
  apply (post_routes_forbidden slugify_model Sample.db Sample.the_post).
  - reflexivity.
  - simpl. tauto.
  - reflexivity.
  - reflexivity.
Defined.

(** X12. [DELETE /posts/{id}] under any spelling [s] of the id of a
    stored post answers 204 to an editor or an admin, and to a plain user
    when the stored [author_id] of the post is their id and leads to their
    user document. The store that is left is the old one without the post
    and without the comments whose stored [post_id] is the string [s]; a
    comment of the post stored under another spelling of its id stays. *)
Theorem delete_post_route_permitted db p s current_user :
  posts_wf (posts db) = true -> In p (posts db) ->
  ObjectId s = Ok (p_id p) ->
  is_editor_or_admin current_user = true
  \/ (authored_by db p current_user = true
      /\ p_author_id p = cu_id current_user) ->
  delete_post_route db s current_user = (Ok tt, without_post db p s)
  /\ (forall q, In q (posts (without_post db p s))
                <-> In q (posts db) /\ p_id q <> p_id p)
  /\ (forall c, In c (comments (without_post db p s))
                <-> In c (comments db) /\ c_post_id c <> s)
  /\ (forall c, In c (comments db) ->
        ObjectId (c_post_id c) = Ok (p_id p) -> c_post_id c <> s ->
        In c (comments (without_post db p s))).
Proof.
  intros Hwf Hp Hs Hwho.
  assert (Hcs : forall c, In c (comments (without_post db p s))
                          <-> In c (comments db) /\ c_post_id c <> s).
  { intro c. unfold without_post. cbn [comments with_posts with_comments].
    rewrite filter_In, negb_true_iff. unfold on_post.
    rewrite String.eqb_neq. reflexivity. }
  split.
  { unfold delete_post_route.
    pose proof Hwf as Hwf'. apply posts_wf_iff in Hwf'.
    destruct Hwf' as (_ & H2 & H3). rewrite Forall_forall in H3.
    rewrite (get_post_by_id_found db s (p_id p) p Hs
               (find_by_id_stored p_id p _ H2 Hp) (H3 p Hp)).
    cbn [found]. rewrite author_id_of_stored_post.
    destruct (is_editor_or_admin current_user) eqn:Hrole.
    - rewrite andb_false_r. cbn [negb].
      now rewrite (delete_post_permitted db p s None Hwf Hp Hs).
    - destruct Hwho as [Hw|[Ha He]]; [discriminate|].
      rewrite Ha. cbn [negb andb].
      rewrite (delete_post_permitted db p s (Some (cu_id current_user))
                 Hwf Hp Hs).
      + reflexivity.
      + unfold update_forbidden. rewrite He.
        unfold opt_string_eqb. rewrite String.eqb_refl.
        now rewrite andb_false_r. }
  split.
  { intro q. unfold without_post. cbn [posts with_posts].
    rewrite filter_In, negb_true_iff. unfold by_id, oid_eqb.
    rewrite String.eqb_neq. reflexivity. }
  split; [exact Hcs|].
  intros c Hc _ Hne. apply Hcs. now split.
Qed.

Lemma delete_post_route_permitted_witness :
  delete_post_route respelled_post_db post_id_upper Sample.alice
  = (Ok tt, without_post respelled_post_db Sample.the_post post_id_upper)
  /\ (forall q, In q (posts (without_post respelled_post_db Sample.the_post
                               post_id_upper))
                <-> In q (posts respelled_post_db)
                    /\ p_id q <> p_id Sample.the_post)
  /\ (forall c, In c (comments (without_post respelled_post_db Sample.the_post
                                  post_id_upper))
                <-> In c (comments respelled_post_db)
                    /\ c_post_id c <> post_id_upper)
  /\ (forall c, In c (comments respelled_post_db) ->
        ObjectId (c_post_id c) = Ok (p_id Sample.the_post) ->
        c_post_id c <> post_id_upper ->
        In c (comments (without_post respelled_post_db Sample.the_post
                          post_id_upper))).
Proof.
  apply (delete_post_route_permitted respelled_post_db Sample.the_post
           post_id_upper Sample.alice).
  - reflexivity.
  - simpl. tauto.
  - reflexivity.
  - right. split; reflexivity.
Defined.

(* ------------------------------------------------------------------ *)
(** ** Creating a post and reading it back                             *)
(* ------------------------------------------------------------------ *)

Lemma find_app_none {D} (f : D -> bool) l d :
  find f l = None -> f d = true -> find f (l ++ [d]) = Some d.
Proof.
  induction l as [|x l IH]; simpl; intros H Hd.
  - now rewrite Hd.
  - destruct (f x); [discriminate|]. now apply IH.
Qed.

Lemma posts_wf_snoc ps p :
  posts_wf ps = true -> canonical (p_id p) = true ->
  ~ In (p_id p) (map p_id ps) -> readable_post_author p = true ->
  posts_wf (ps ++ [p]) = true.
Proof.
  intros Hwf Hc Hfresh Hr. apply posts_wf_iff in Hwf.
  destruct Hwf as (H1 & H2 & H3). apply posts_wf_iff. repeat split.
  - apply Forall_app. split; [assumption|now constructor].
  - rewrite map_app. simpl. now apply NoDup_snoc.
  - apply Forall_app. split; [assumption|now constructor].
Qed.

(** X13. With a fresh ObjectId and an author id that reads as one,
    [create_post] has three outcomes. A supplied slug that is not valid gives
    400 "Invalid slug format", a slug some stored post has gives 400
    "Post with this slug already exists", both with the store unchanged.
    Otherwise one document is appended, with the request's fields, the
    author id and the creation time, the store stays well formed, and the
    view returned is the one the id route and the slug route then give. *)
Theorem create_post_outcome slugify db post_data author_id now new_id :
  posts_wf (posts db) = true ->
  canonical new_id = true ->
  ~ In new_id (map p_id (posts db)) ->
  readable_id author_id = true ->
  (create_slug slugify post_data = Raise invalid_slug
   /\ create_post slugify db post_data author_id now new_id
      = (Raise invalid_slug, db))
  \/ (exists slug,
        create_slug slugify post_data = Ok slug
        /\ In slug (map p_slug (posts db))
        /\ create_post slugify db post_data author_id now new_id
           = (Raise duplicate_slug, db))
  \/ (exists slug db',
        create_slug slugify post_data = Ok slug
        /\ ~ In slug (map p_slug (posts db))
        /\ let p := new_post post_data slug author_id now new_id in
           let v := stored_post_view db' p in
           create_post slugify db post_data author_id now new_id
           = (Ok (Some v), db')
           /\ posts db' = posts db ++ [p]
           /\ comments db' = comments db
           /\ users db' = users db
           /\ posts_wf (posts db') = true
           /\ get_post_by_id_route db' (str new_id) = Ok v
           /\ get_post_by_slug_route db' slug = Ok v).
Proof.
  intros Hwf Hc Hfresh Hread.
  unfold create_post.
  destruct (create_slug slugify post_data) as [slug|e] eqn:Hslug.
  2:{ left. unfold create_slug in Hslug.
      destruct (negb (truthy_opt (pc_slug post_data))); [discriminate|].
      destruct (negb (is_valid_slug _)); [|discriminate].
      injection Hslug as <-. split; reflexivity. }
  right. cbn [bind].
  destruct (find (by_slug slug) (posts db)) as [q|] eqn:Hfind.
  { left. exists slug. split; [reflexivity|]. split; [|reflexivity].
    apply find_some in Hfind. destruct Hfind as [Hq E].
    apply String.eqb_eq in E. subst slug. now apply in_map. }
  right.
  set (p := new_post post_data slug author_id now new_id).
  exists slug, (with_posts db (posts db ++ [p])).
  split; [reflexivity|].
  split; [now apply find_by_slug_none|].
  cbv zeta. fold p.
  assert (Hwf' : posts_wf (posts db ++ [p]) = true)
    by (apply posts_wf_snoc; assumption).
  assert (Hget : get_post_by_id (with_posts db (posts db ++ [p])) (str new_id)
                 = Ok (Some (stored_post_view
                               (with_posts db (posts db ++ [p])) p))).
  { apply (get_post_by_id_stored (with_posts db (posts db ++ [p])) p).
    - exact Hwf'.
    - cbn [posts with_posts]. apply in_or_app. right. now left. }
  split; [rewrite <- Hget; reflexivity|].
  split; [reflexivity|]. split; [reflexivity|]. split; [reflexivity|].
  split; [exact Hwf'|].
  split.
  - unfold get_post_by_id_route. now rewrite Hget.
  - unfold get_post_by_slug_route, get_post_by_slug. cbn [posts with_posts].
    rewrite (find_app_none (by_slug slug) (posts db) p Hfind)
      by (unfold by_slug; apply String.eqb_refl).
    change (str (p_id p)) with (str new_id). now rewrite Hget.
Qed.

Lemma create_post_outcome_witness :
  create_post slugify_model Sample.db second_request (str Sample.bob_id) 5%Z
    other_post_id
  = (Ok (Some (stored_post_view two_posts_db second_post)), two_posts_db)
  /\ get_post_by_slug_route two_posts_db "second"
     = Ok (stored_post_view two_posts_db second_post).
Proof.
  destruct (create_post_outcome slugify_model Sample.db second_request
              (str Sample.bob_id) 5%Z other_post_id)
    as [[H _]|[(slug & H & _)|(slug & db' & Hs & _ & Hc & Hp & _ & _ & _ & _ & Hslug)]].
  - reflexivity.
  - reflexivity.
  - intro H. vm_compute in H. intuition discriminate.
  - reflexivity.
  - vm_compute in H. discriminate.
  - vm_compute in H. injection H as <-.
    split; reflexivity.
  - vm_compute in Hs. injection Hs as <-.
    split; reflexivity.
Defined.

(* ------------------------------------------------------------------ *)
(** ** Reading a post by its slug                                      *)
(* ------------------------------------------------------------------ *)




(* ------------------------------------------------------------------ *)
(** ** Listing posts                                                   *)
(* ------------------------------------------------------------------ *)

Lemma in_post_page db limit offset filters p :
  In p (post_page db limit offset filters) ->
  In p (posts db) /\ post_query filters p = true.
Proof.
  unfold post_page, cursor_limit, cursor_skip. intro H.
  assert (H' : In p (sort_by post_created_desc
                       (filter (post_query filters) (posts db)))).
  { destruct (limit =? 0); [|apply in_firstn in H]; now apply in_skipn in H. }
  apply sort_by_In in H'. now apply filter_In in H'.
Qed.

Lemma post_created_desc_total a b :
  post_created_desc a b = true \/ post_created_desc b a = true.
Proof. unfold post_created_desc. rewrite !Z.leb_le. lia. Qed.

Lemma post_created_desc_trans a b c :
  post_created_desc a b = true -> post_created_desc b c = true ->
  post_created_desc a c = true.
Proof. unfold post_created_desc. rewrite !Z.leb_le. lia. Qed.

Lemma post_page_sorted db limit offset filters :
  StronglySorted (fun a b => post_created_desc a b = true)
    (post_page db limit offset filters).
Proof.
  unfold post_page, cursor_limit, cursor_skip.
  pose proof (sort_by_sorted post_created_desc post_created_desc_total
                post_created_desc_trans
                (filter (post_query filters) (posts db))) as S.
  destruct (StronglySorted_sub _ _ offset S) as [S1 _].
  destruct (limit =? 0); [exact S1|].
  now destruct (StronglySorted_sub _ _ limit S1) as [_ S2].
Qed.

Lemma post_page_length db limit offset filters :
  List.length (post_page db limit offset filters)
  <= List.length (filter (post_query filters) (posts db))
  /\ (0 < limit -> List.length (post_page db limit offset filters) <= limit).
Proof.
  unfold post_page, cursor_limit, cursor_skip.
  pose proof (Permutation_length
                (sort_by_perm post_created_desc
                   (filter (post_query filters) (posts db)))) as L.
  set (s := sort_by post_created_desc (filter (post_query filters) (posts db))) in *.
  pose proof (length_skipn offset s) as K.
  split.
  - destruct (limit =? 0).
    + lia.
    + rewrite length_firstn. lia.
  - intro Hl. destruct (limit =? 0) eqn:E.
    + apply Nat.eqb_eq in E. lia.
    + rewrite length_firstn. lia.
Qed.

Lemma get_posts_page db limit offset filters :
  posts_wf (posts db) = true ->
  get_posts db limit offset filters
  = map (stored_post_view db)
      (post_page db (default_arg 10 limit) (default_arg 0 offset)
         (default_arg no_filters filters)).
Proof.
  intro Hwf. unfold get_posts. fold (post_page db (default_arg 10 limit)
    (default_arg 0 offset) (default_arg no_filters filters)).
  assert (H : forall p, In p (post_page db (default_arg 10 limit)
                                (default_arg 0 offset)
                                (default_arg no_filters filters)) ->
                        In p (posts db))
    by (intros p Hp; now apply in_post_page in Hp).
  induction (post_page db (default_arg 10 limit) (default_arg 0 offset)
               (default_arg no_filters filters)) as [|p l IH]; [reflexivity|].
  cbn [flat_map map].
  rewrite (get_post_by_id_stored db p Hwf) by (apply H; now left).
  cbn [found app]. f_equal. apply IH. intros q Hq. apply H. now right.
Qed.

(** X15. [GET /posts] on a well-formed store, for a request that is
    admitted: it carries [limit] and [offset] within their bounds and the
    three filter parameters, and the items are the views of the stored
    posts that match the filter, newest first, cut by offset and limit;
    there are at most [limit] of them and at most [total], which counts
    the matching stored posts; every item has the status asked for, and
    is published when the status parameter is empty. *)
Theorem get_posts_route_listing db limit offset status tag author_id l :
  posts_wf (posts db) = true ->
  get_posts_route db limit offset status tag author_id = Ok l ->
  exists filters st,
    post_filter_params status tag author_id = Ok filters
    /\ status = Some st
    /\ limit = Some (l_limit l) /\ offset = Some (l_offset l)
    /\ (1 <= l_limit l <= 100)%Z /\ (0 <= l_offset l)%Z
    /\ l_items l
       = map (stored_post_view db)
           (post_page db (Z.to_nat (l_limit l)) (Z.to_nat (l_offset l)) filters)
    /\ StronglySorted post_view_desc (l_items l)
    /\ (Z.of_nat (List.length (l_items l)) <= l_limit l)%Z
    /\ List.length (l_items l) <= l_total l
    /\ l_total l = List.length (filter (post_query filters) (posts db))
    /\ (forall v, In v (l_items l) ->
          status_value (pv_status v)
          = if truthy st then st else status_value PUBLISHED).
Proof.
  intros Hwf. unfold get_posts_route.
  destruct (pagination_params limit offset) as [pg|e] eqn:Hpg; [|discriminate].
  cbn [bind].
  destruct (post_filter_params status tag author_id) as [filters|e] eqn:Hf;
    [|discriminate].
  cbn [bind]. intro H. injection H as <-. cbn [l_items l_limit l_offset l_total].
  destruct (pagination_params_ok _ _ _ Hpg) as (El & Eo & Hl & Ho).
  assert (Hst : exists st, status = Some st
                           /\ f_status filters = if truthy st then Some st else None).
  { unfold post_filter_params in Hf.
    destruct status as [st|]; [|discriminate].
    destruct tag as [t|]; [|discriminate].
    destruct author_id as [a|]; [|discriminate].
    injection Hf as <-. exists st. now split. }
  destruct Hst as (st & Est & Efs).
  exists filters, st.
  rewrite (get_posts_page db _ _ _ Hwf). cbn [default_arg].
  set (page := post_page db (Z.to_nat (pg_limit pg)) (Z.to_nat (pg_offset pg)) filters).
  destruct (post_page_length db (Z.to_nat (pg_limit pg)) (Z.to_nat (pg_offset pg))
              filters) as [L1 L2].
  fold page in L1, L2.
  split; [reflexivity|]. split; [exact Est|].
  split; [exact El|]. split; [exact Eo|].
  split; [exact Hl|]. split; [exact Ho|].
  split; [reflexivity|].
  split.
  { apply (StronglySorted_map (fun a b => post_created_desc a b = true)).
    - intros a b Hab. unfold post_view_desc, post_created_desc in *.
      cbn. now apply Z.leb_le.
    - apply post_page_sorted. }
  rewrite length_map.
  split; [lia|].
  split; [exact L1|].
  split; [reflexivity|].
  intros v Hv. apply in_map_iff in Hv. destruct Hv as (p & <- & Hp).
  apply in_post_page in Hp. destruct Hp as [_ Hq].
  unfold post_query in Hq. apply andb_true_iff in Hq. destruct Hq as [Hq _].
  apply andb_true_iff in Hq. destruct Hq as [Hq _].
  apply String.eqb_eq in Hq. cbn [pv_status stored_post_view view_of_post].
  rewrite Hq, Efs. now destruct (truthy st).
Qed.

Lemma get_posts_route_listing_witness :
  exists l,
    get_posts_route two_posts_db (Some 10%Z) (Some 0%Z)
      (Some "") (Some "") (Some "")
    = Ok l
    /\ l_items l = [stored_post_view two_posts_db Sample.the_post]
    /\ (forall v, In v (l_items l) ->
          status_value (pv_status v) = status_value PUBLISHED).
Proof.
  eexists. split; [reflexivity|]. split; [reflexivity|].
  destruct (get_posts_route_listing two_posts_db (Some 10%Z) (Some 0%Z)
              (Some "") (Some "") (Some "")
              {| l_total := 1; l_limit := 10%Z; l_offset := 0%Z;
                 l_items := [stored_post_view two_posts_db Sample.the_post] |})
    as (filters & st & _ & Est & _ & _ & _ & _ & _ & _ & _ & _ & _ & Hs).
  - reflexivity.
  - reflexivity.
  - injection Est as <-. exact Hs.
Defined.

(** X16. [GET /users/me/posts] passes only the author filter, so for a
    request the pagination admits, on a well-formed store, it lists the
    published posts whose stored author_id is the current user's id,
    newest first, and counts only those: a draft or an archived post of
    the user is neither listed nor counted. *)
Theorem read_users_me_posts_published db current_user limit offset l :
  posts_wf (posts db) = true ->
  read_users_me_posts db current_user limit offset = Ok l ->
  l_items l
  = map (stored_post_view db)
      (post_page db (Z.to_nat (l_limit l)) (Z.to_nat (l_offset l))
         (own_posts current_user))
  /\ (forall v, In v (l_items l) ->
        pv_status v = PUBLISHED
        /\ exists p, In p (posts db) /\ v = stored_post_view db p
                     /\ p_author_id p = cu_id current_user)
  /\ l_total l
     = List.length
         (filter (fun p => String.eqb (p_author_id p) (cu_id current_user)
                           && String.eqb (status_value (p_status p)) "published")
            (posts db))
  /\ (forall p, In p (posts db) -> p_status p <> PUBLISHED ->
        ~ In (stored_post_view db p) (l_items l)).
Proof.
  intros Hwf. unfold read_users_me_posts.
  destruct (pagination_params limit offset) as [pg|e] eqn:Hpg; [|discriminate].
  cbn [bind]. intro H. injection H as <-. cbn [l_items l_limit l_offset l_total].
  rewrite (get_posts_page db _ _ _ Hwf). cbn [default_arg].
  fold (own_posts current_user).
  assert (Hin : forall v,
             In v (map (stored_post_view db)
                     (post_page db (Z.to_nat (pg_limit pg))
                        (Z.to_nat (pg_offset pg)) (own_posts current_user))) ->
             pv_status v = PUBLISHED
             /\ exists p, In p (posts db) /\ v = stored_post_view db p
                          /\ p_author_id p = cu_id current_user).
  { intros v Hv. apply in_map_iff in Hv. destruct Hv as (p & <- & Hp).
    apply in_post_page in Hp. destruct Hp as [Hp Hq].
    unfold post_query, own_posts in Hq. cbn in Hq.
    apply andb_true_iff in Hq. destruct Hq as [Hq Ha].
    rewrite andb_true_r in Hq.
    apply String.eqb_eq in Ha.
    split.
    - cbn. destruct (p_status p); cbn in Hq; try discriminate; reflexivity.
    - exists p. auto. }
  split; [reflexivity|].
  split; [exact Hin|].
  split.
  { unfold get_posts_count. cbn [default_arg]. f_equal. apply filter_ext.
    intro p. unfold post_query. cbn.
    rewrite andb_true_r. apply andb_comm. }
  intros p Hp Hs Hv. apply Hin in Hv. destruct Hv as [Hv _].
  cbn in Hv. contradiction.
Qed.

Lemma read_users_me_posts_published_witness :
  exists l,
    read_users_me_posts two_posts_db Sample.bob (Some 10%Z) (Some 0%Z) = Ok l
    /\ l_items l = []
    /\ l_total l = 0
    /\ In second_post (posts two_posts_db)
    /\ p_author_id second_post = cu_id Sample.bob.
Proof.
  eexists. split; [reflexivity|].
  destruct (read_users_me_posts_published two_posts_db Sample.bob
              (Some 10%Z) (Some 0%Z)
              {| l_total := 0; l_limit := 10%Z; l_offset := 0%Z; l_items := [] |})
    as (Hi & _ & Ht & _).
  - reflexivity.
  - reflexivity.
  - split; [exact Hi|]. split; [exact Ht|]. split; [simpl; tauto|reflexivity].
Defined.

(* ------------------------------------------------------------------ *)
(** ** Updating a post                                                 *)
(* ------------------------------------------------------------------ *)









(* ------------------------------------------------------------------ *)
(** ** The comments of a user                                          *)
(* ------------------------------------------------------------------ *)

Lemma in_user_page db user_id limit offset c :
  In c (user_page db user_id limit offset) ->
  In c (comments db) /\ c_author_id c = user_id.
Proof.
  unfold user_page, cursor_limit, cursor_skip. intro H.
  assert (H' : In c (sort_by created_desc
                       (filter (fun c => String.eqb (c_author_id c) user_id)
                          (comments db)))).
  { destruct (limit =? 0); [|apply in_firstn in H]; now apply in_skipn in H. }
  apply sort_by_In in H'. apply filter_In in H'. destruct H' as [Hc E].
  now apply String.eqb_eq in E.
Qed.

Lemma user_page_sorted db user_id limit offset :
  StronglySorted (fun a b => created_desc a b = true)
    (user_page db user_id limit offset).
Proof.
  unfold user_page, cursor_limit, cursor_skip.
  pose proof (sort_by_sorted created_desc created_desc_total created_desc_trans
                (filter (fun c => String.eqb (c_author_id c) user_id)
                   (comments db))) as Hs.
  destruct (StronglySorted_sub _ _ offset Hs) as [Hskip _].
  destruct (limit =? 0); [assumption|].
  now destruct (StronglySorted_sub _ _ limit Hskip).
Qed.

Lemma user_page_length db user_id limit offset :
  List.length (user_page db user_id limit offset)
  <= get_user_comments_count db user_id
  /\ (0 < limit -> List.length (user_page db user_id limit offset) <= limit).
Proof.
  unfold user_page, get_user_comments_count, cursor_limit, cursor_skip.
  pose proof (Permutation_length
                (sort_by_perm created_desc
                   (filter (fun c => String.eqb (c_author_id c) user_id)
                      (comments db)))) as L.
  set (s := sort_by created_desc _) in *.
  pose proof (length_skipn offset s) as K.
  split.
  - destruct (limit =? 0); [lia|]. rewrite length_firstn. lia.
  - intro Hl. destruct (limit =? 0) eqn:E.
    + apply Nat.eqb_eq in E. lia.
    + rewrite length_firstn. lia.
Qed.

Lemma post_title_of_readable db c :
  readable_id (c_post_id c) = true ->
  post_title_of db (c_post_id c)
  = Ok (option_map (fun post => Some (p_title post)) (post_of db c)).
Proof.
  unfold readable_id, post_title_of, post_of. intro H.
  destruct (truthy (c_post_id c)); [|reflexivity].
  simpl in H. destruct (ObjectId (c_post_id c)) as [i|e]; [|discriminate].
  cbn [bind]. now destruct (find (by_id p_id i) (posts db)).
Qed.

Lemma user_comments_loop_stored db cursor :
  comments_wf (comments db) = true ->
  authors_readable (comments db) = true ->
  post_ids_readable (comments db) = true ->
  (forall c, In c cursor -> In c (comments db)) ->
  user_comments_loop db cursor = Ok (map (titled_view db) cursor).
Proof.
  intros Hwf Hread Hposts. unfold authors_readable, post_ids_readable in *.
  rewrite forallb_forall in Hread, Hposts.
  induction cursor as [|c rest IH]; intro Hin; [reflexivity|].
  cbn [user_comments_loop map].
  assert (Hc : In c (comments db)) by (apply Hin; now left).
  rewrite (get_comment_by_id_stored db c Hwf Hc (Hread c Hc)). cbn [found].
  change (v_post_id (stored_view db c)) with (c_post_id c).
  rewrite (post_title_of_readable db c (Hposts c Hc)). cbn [bind].
  rewrite IH by (intros q Hq; apply Hin; now right). cbn [bind].
  unfold titled_view. now destruct (post_of db c).
Qed.

Lemma as_comment_fields v m :
  as_comment v = Ok m ->
  cm_id m = v_id v /\ cm_content m = v_content v
  /\ cm_post_id m = v_post_id v /\ cm_parent_id m = v_parent_id v
  /\ cm_created_at m = v_created_at v /\ cm_updated_at m = v_updated_at v
  /\ option_map a_id (v_author v) = Some (ca_id (cm_author m)).
Proof.
  unfold as_comment. destruct (v_author v) as [a|]; [|discriminate].
  destruct (a_username a); [|discriminate].
  destruct (truthy (v_content v)); [|discriminate].
  intro H. injection H as <-. repeat split.
Qed.

(** The title [get_user_comments] adds is no field of [Comment]. *)
Lemma as_comment_titled db c :
  as_comment (titled_view db c) = as_comment (stored_view db c).
Proof. unfold titled_view. now destruct (post_of db c). Qed.

Lemma as_comments_titled db page :
  as_comments (map (titled_view db) page)
  = as_comments (map (stored_view db) page).
Proof.
  induction page as [|c page IH]; [reflexivity|].
  cbn [map as_comments]. now rewrite as_comment_titled, IH.
Qed.

Lemma as_comments_all (f : comment_doc -> comment_view) page items :
  as_comments (map f page) = Ok items ->
  Forall2 (fun c m => as_comment (f c) = Ok m) page items.
Proof.
  revert items. induction page as [|c page IH]; intros items H.
  - injection H as <-. constructor.
  - cbn [map as_comments] in H.
    destruct (as_comment (f c)) as [m|e] eqn:E; [|discriminate].
    cbn [bind] in H.
    destruct (as_comments (map f page)) as [out|e]; [|discriminate].
    cbn [bind] in H. injection H as <-. constructor; [exact E|now apply IH].
Qed.

(** X19. [GET /users/me/comments] on a store whose comments are well
    formed, with author and post ids that read as ObjectIds, for a request
    the pagination admits: [get_user_comments] yields the views of the
    stored comments whose author_id is the current user's id, newest
    first, cut by offset and limit, each with the title of its post when
    that post is stored; the answer, which is returned through the
    response model [CommentList], holds these comments in that order with
    the fields of [Comment], so without the title; there are at most
    [limit] items and at most [total], which counts the user's stored
    comments. *)
Theorem read_users_me_comments_listing db current_user limit offset l :
  comments_wf (comments db) = true ->
  authors_readable (comments db) = true ->
  post_ids_readable (comments db) = true ->
  read_users_me_comments db current_user limit offset = Ok l ->
  let page :=
    user_page db (cu_id current_user) (Z.to_nat (l_limit l))
      (Z.to_nat (l_offset l)) in
  limit = Some (l_limit l) /\ offset = Some (l_offset l)
  /\ get_user_comments db (cu_id current_user)
       (Some (Z.to_nat (l_limit l))) (Some (Z.to_nat (l_offset l)))
     = Ok (map (titled_view db) page)
  /\ as_comments (map (stored_view db) page) = Ok (l_items l)
  /\ map cm_id (l_items l) = map (fun c => str (c_id c)) page
  /\ (forall m, In m (l_items l) ->
        exists c, In c (comments db)
                  /\ c_author_id c = cu_id current_user
                  /\ cm_id m = str (c_id c)
                  /\ cm_content m = c_content c
                  /\ cm_post_id m = c_post_id c
                  /\ cm_parent_id m = c_parent_id c)
  /\ StronglySorted comment_desc (l_items l)
  /\ (Z.of_nat (List.length (l_items l)) <= l_limit l)%Z
  /\ List.length (l_items l) <= l_total l
  /\ l_total l
     = List.length
         (filter (fun c => String.eqb (c_author_id c) (cu_id current_user))
            (comments db)).
Proof.
  intros Hwf Hread Hposts. unfold read_users_me_comments.
  destruct (pagination_params limit offset) as [pg|e] eqn:Hpg; [|discriminate].
  cbn [bind].
  assert (Hget : get_user_comments db (cu_id current_user)
                   (Some (Z.to_nat (pg_limit pg))) (Some (Z.to_nat (pg_offset pg)))
                 = Ok (map (titled_view db)
                         (user_page db (cu_id current_user)
                            (Z.to_nat (pg_limit pg)) (Z.to_nat (pg_offset pg))))).
  { unfold get_user_comments. cbn [default_arg].
    fold (user_page db (cu_id current_user) (Z.to_nat (pg_limit pg))
            (Z.to_nat (pg_offset pg))).
    apply (user_comments_loop_stored db _ Hwf Hread Hposts).
    intros c Hc. now apply in_user_page in Hc. }
  rewrite Hget. cbn [bind].
  set (page := user_page db (cu_id current_user) (Z.to_nat (pg_limit pg))
                 (Z.to_nat (pg_offset pg))) in *.
  destruct (as_comments (map (titled_view db) page)) as [items|e] eqn:A;
    [|discriminate].
  cbn [bind]. intro H. injection H as <-. cbv zeta.
  cbn [l_items l_limit l_offset l_total]. fold page.
  destruct (pagination_params_ok _ _ _ Hpg) as (El & Eo & Hl & Ho).
  destruct (user_page_length db (cu_id current_user) (Z.to_nat (pg_limit pg))
              (Z.to_nat (pg_offset pg))) as [L1 L2].
  fold page in L1, L2.
  assert (Hstored : as_comments (map (stored_view db) page) = Ok items).
  { now rewrite <- as_comments_titled. }
  pose proof (as_comments_all (stored_view db) page items Hstored) as Hall.
  set (Q := fun c m => as_comment (stored_view db c) = Ok m) in Hall.
  pose proof (as_comments_length _ _ Hstored) as Hlen.
  rewrite length_map in Hlen.
  split; [exact El|]. split; [exact Eo|]. split; [exact Hget|].
  split; [exact Hstored|].
  split.
  { symmetry.
    apply (Forall2_map_eq Q); [|exact Hall].
    intros c m E. apply as_comment_fields in E.
    destruct E as (E & _). now rewrite E. }
  split.
  { intros m Hm.
    destruct (Forall2_In_r Q page items m Hall Hm) as (c & Hc & E).
    apply in_user_page in Hc. destruct Hc as [Hc Ha].
    apply as_comment_fields in E. destruct E as (E1 & E2 & E3 & E4 & _).
    exists c. repeat split; assumption. }
  split.
  { apply (Forall2_sorted Q (fun a b => created_desc a b = true) comment_desc
             page items); [|exact Hall|apply user_page_sorted].
    intros c m c' m' E E' Hle.
    apply as_comment_fields in E, E'.
    destruct E as (_ & _ & _ & _ & E & _).
    destruct E' as (_ & _ & _ & _ & E' & _).
    unfold comment_desc. rewrite E, E'. unfold created_desc in Hle.
    cbn. now apply Z.leb_le. }
  rewrite Hlen.
  split; [lia|]. split; [exact L1|reflexivity].
Qed.

Lemma read_users_me_comments_listing_witness :
  exists l,
    read_users_me_comments Sample.db Sample.alice (Some 10%Z) (Some 0%Z) = Ok l
    /\ map cm_id (l_items l) = [str Sample.c3_id; str Sample.c1_id]
    /\ get_user_comments Sample.db (cu_id Sample.alice) (Some 10) (Some 0)
       = Ok (map (titled_view Sample.db) [Sample.c3; Sample.c1])
    /\ StronglySorted comment_desc (l_items l).
Proof.
  destruct (read_users_me_comments Sample.db Sample.alice (Some 10%Z) (Some 0%Z))
    as [l|e] eqn:R; [|vm_compute in R; discriminate].
  exists l. split; [reflexivity|].
  destruct (read_users_me_comments_listing Sample.db Sample.alice
              (Some 10%Z) (Some 0%Z) l)
    as (_ & _ & Hg & _ & Hi & _ & Hs & _).
  - reflexivity.
  - reflexivity.
  - reflexivity.
  - exact R.
  - vm_compute in R. injection R as <-.
    split; [exact Hi|]. split; [exact Hg|exact Hs].
Defined.

(* ------------------------------------------------------------------ *)
(** ** A comment with its replies                                      *)
(* ------------------------------------------------------------------ *)



(* ------------------------------------------------------------------ *)
(** ** Summaries of any length                                         *)
(* ------------------------------------------------------------------ *)

Lemma rstrip_idem s : rstrip (rstrip s) = rstrip s.
Proof.
  induction s as [|a s IH]; [reflexivity|].
  cbn [rstrip]. destruct (rstrip s) as [|b r] eqn:E.
  - destruct (is_space a) eqn:Ea; [reflexivity|].
    cbn [rstrip]. now rewrite Ea.
  - change (rstrip (String a (String b r))) with
      (match rstrip (String b r) with
       | EmptyString => if is_space a then EmptyString else String a EmptyString
       | r' => String a r'
       end).
    now rewrite IH.
Qed.

(** X21. [get_summary_from_content] for any [max_length]: a content of at
    most [max_length] characters comes back as it is; a longer one gives a
    prefix of the content of at most [max_length] characters, without
    white space at its end, followed by three dots. So the result has at
    most [max_length + 3] characters, not [max_length]. *)
Theorem get_summary_any_length content max_length :
  let m := default_arg 200 max_length in
  let summary := get_summary_from_content content max_length in
  (String.length content <= m -> summary = content)
  /\ (m < String.length content ->
      exists p, summary = (p ++ ellipsis)%string
                /\ String.prefix p content = true
                /\ String.length p <= m
                /\ rstrip p = p)
  /\ String.length summary <= m + 3.
Proof.
  cbv zeta. unfold get_summary_from_content.
  set (m := default_arg 200 max_length).
  assert (Hlong : m < String.length content ->
            exists p,
              (rstrip
                 (if negb (rfind (slice_to m content) space =? -1)%Z
                  then slice_to (Z.to_nat (rfind (slice_to m content) space))
                         (slice_to m content)
                  else slice_to m content) ++ ellipsis)%string
              = (p ++ ellipsis)%string
              /\ String.prefix p content = true
              /\ String.length p <= m
              /\ rstrip p = p).
  { intros _.
    set (cut := slice_to m content).
    set (kept := if negb (rfind cut space =? -1)%Z
                 then slice_to (Z.to_nat (rfind cut space)) cut else cut).
    exists (rstrip kept). split; [reflexivity|].
    assert (Hk : (exists t, cut = (kept ++ t)%string)
                 /\ String.length kept <= String.length cut).
    { unfold kept. destruct (negb _).
      - destruct (slice_to_split (Z.to_nat (rfind cut space)) cut) as (t & H).
        split; [now exists t|].
        pose proof (f_equal String.length H) as HL.
        rewrite string_length_app in HL. lia.
      - split; [exists EmptyString; now rewrite string_app_nil|lia]. }
    destruct Hk as ((t1 & H1) & Hl1).
    destruct (rstrip_split kept) as (t2 & H2).
    destruct (slice_to_split m content) as (t3 & H3). fold cut in H3.
    split; [|split].
    - apply prefix_split. exists (t2 ++ t1 ++ t3)%string.
      rewrite H3 at 1. rewrite H1 at 1. rewrite H2 at 1.
      now rewrite !string_app_assoc.
    - pose proof (rstrip_length kept) as R.
      pose proof (slice_to_length m content) as S. fold cut in S. lia.
    - apply rstrip_idem. }
  destruct (String.length content <=? m) eqn:E.
  - apply Nat.leb_le in E.
    split; [reflexivity|]. split; [lia|lia].
  - apply Nat.leb_gt in E.
    split; [lia|]. split; [exact Hlong|].
    destruct (Hlong E) as (p & -> & _ & Hp & _).
    rewrite string_length_app. cbn. lia.
Qed.

(* ------------------------------------------------------------------ *)
(** ** Filters of the post listing                                     *)
(* ------------------------------------------------------------------ *)

(** X23. The status parameter of [GET /posts] is not checked against the
    three status values: for a request that is admitted, with [limit] and
    [offset] within their bounds and all three filter parameters, a
    non-empty status that is none of the three values gives, whatever the
    tag and the author asked for, an empty page and a total of 0, not an
    error. *)
Theorem get_posts_route_unknown_status db limit offset status tag author_id pg :
  pagination_params limit offset = Ok pg ->
  truthy status = true ->
  (forall s, status_value s <> status) ->
  get_posts_route db limit offset (Some status) (Some tag) (Some author_id)
  = Ok {| l_total := 0; l_limit := pg_limit pg; l_offset := pg_offset pg;
          l_items := [] |}.
Proof.
  intros Hpg Ht Hs. unfold get_posts_route. rewrite Hpg. cbn [bind].
  unfold post_filter_params. rewrite Ht. cbn [bind].
  set (filters := {| f_status := Some status;
                     f_tags := if truthy tag then Some tag else None;
                     f_author_id := if truthy author_id then Some author_id
                                    else None |}).
  assert (Hq : filter (post_query filters) (posts db) = []).
  { apply filter_none. intros p _. unfold post_query, filters.
    cbn [f_status default_arg].
    destruct (String.eqb (status_value (p_status p)) status) eqn:E;
      [|reflexivity].
    apply String.eqb_eq in E. now destruct (Hs (p_status p)). }
  unfold get_posts, get_posts_count. cbn [default_arg]. rewrite Hq.
  cbn [sort_by fold_right]. unfold cursor_skip, cursor_limit.
  rewrite skipn_nil, firstn_nil.
  now destruct (Z.to_nat (pg_limit pg) =? 0).
Qed.

Lemma get_posts_route_unknown_status_witness :
  get_posts_route Sample.db (Some 10%Z) (Some 0%Z)
    (Some "deleted") (Some "") (Some "")
  = Ok {| l_total := 0; l_limit := 10%Z; l_offset := 0%Z; l_items := [] |}.
Proof.
  apply (get_posts_route_unknown_status Sample.db (Some 10%Z) (Some 0%Z)
           "deleted" "" "" {| pg_limit := 10; pg_offset := 0 |}).
  - reflexivity.
  - reflexivity.
  - intros [] H; discriminate.
Defined.

(* ------------------------------------------------------------------ *)
(** ** Replies stored under another spelling of an id                  *)
(* ------------------------------------------------------------------ *)

Lemma answers_child_of q r :
  canonical (c_id q) = true ->
  child_of (str (c_id q)) r = true -> answers q r = true.
Proof.
  intros Hc H. apply child_of_iff in H. unfold answers. rewrite H.
  rewrite (ObjectId_str _ Hc). apply oid_eqb_refl.
Qed.

Lemma replies_after_position cs :
  NoDup (map c_id cs) -> replies_after cs = true ->
  forall q r, In q cs -> In r cs -> answers q r = true ->
    position cs (c_id q) < position cs (c_id r).
Proof.
  induction cs as [|c cs IH]; intros Hnd Hra q r Hq Hr Ha; [contradiction|].
  cbn [replies_after] in Hra. apply andb_true_iff in Hra.
  destruct Hra as [Hc Hrest].
  inversion Hnd as [|? ? Hfresh Hnd']; subst.
  rewrite forallb_forall in Hc.
  destruct Hr as [->|Hr].
  - specialize (Hc q Hq). apply negb_true_iff in Hc. congruence.
  - cbn [position].
    destruct (oid_eqb (c_id c) (c_id r)) eqn:Er.
    { apply oid_eqb_eq in Er. exfalso. apply Hfresh. rewrite Er.
      now apply in_map. }
    destruct (oid_eqb (c_id c) (c_id q)) eqn:Eq; [lia|].
    destruct Hq as [->|Hq]; [now rewrite oid_eqb_refl in Eq|].
    apply -> Nat.succ_lt_mono. now apply IH.
Qed.

Lemma descends_position cs c r :
  NoDup (map c_id cs) -> replies_after cs = true ->
  In c cs -> In r cs -> descends cs c r ->
  position cs (c_id c) < position cs (c_id r).
Proof.
  intros Hnd Hra Hc Hr H.
  induction H as [r Ha|q r Hq Ha _ IH].
  - now apply replies_after_position.
  - specialize (IH Hq).
    pose proof (replies_after_position cs Hnd Hra q r Hq Hr Ha). lia.
Qed.

(** What the queries reach from a spelling of the id of [c] are replies
    to [c]. *)
Lemma in_chain_descends cs c s r :
  Forall (fun q => canonical (c_id q) = true) cs ->
  ObjectId s = Ok (c_id c) ->
  in_chain cs s r -> descends cs c r.
Proof.
  intros Hcan Hs H. rewrite Forall_forall in Hcan.
  induction H as [r Hp|r q Hq Hp _ IH].
  - apply descends_reply. unfold answers. rewrite Hp, Hs. apply oid_eqb_refl.
  - apply descends_up with q; [assumption| |assumption].
    apply answers_child_of; [now apply Hcan|]. now apply child_of_iff.
Qed.

Lemma not_reached_from_own_id cs c s :
  comments_wf cs = true -> replies_after cs = true ->
  In c cs -> ObjectId s = Ok (c_id c) -> ~ in_chain cs s c.
Proof.
  intros Hwf Hra Hc Hs H.
  apply comments_wf_iff in Hwf. destruct Hwf as (Hcan & Hnd & _).
  apply (in_chain_descends cs c s c Hcan Hs) in H.
  pose proof (descends_position cs c c Hnd Hra Hc Hc H). lia.
Qed.

Lemma answers_not_self cs c r :
  comments_wf cs = true -> replies_after cs = true ->
  In c cs -> In r cs -> answers c r = true -> c_id r <> c_id c.
Proof.
  intros Hwf Hra Hc Hr Ha E.
  apply comments_wf_iff in Hwf. destruct Hwf as (_ & Hnd & _).
  pose proof (replies_after_position cs Hnd Hra c r Hc Hr Ha). rewrite E in H.
  lia.
Qed.

(** A reply to [c] stored under another spelling than [s] is not reached
    from [s]. *)
Lemma respelled_reply_unreached cs c r s :
  comments_wf cs = true -> replies_after cs = true ->
  In c cs -> In r cs ->
  ObjectId s = Ok (c_id c) ->
  answers c r = true -> c_parent_id r <> Some s ->
  ~ in_chain cs s r.
Proof.
  intros Hwf Hra Hc Hr Hs Ha Hne H.
  pose proof (comments_wf_forest _ Hwf) as Hf.
  inversion H as [r' Hp|r' q Hq Hp Hchain]; subst; [contradiction|].
  assert (q = c); [|subst q; now apply (not_reached_from_own_id cs c s)].
  apply (forest_same_id _ _ _ _ _ Hf Hq Hc).
  unfold answers in Ha. rewrite Hp in Ha.
  rewrite (forest_stored_id _ _ _ _ Hf Hq) in Ha. now apply oid_eqb_eq.
Qed.

Lemma cascade_removed_filter cs i s keep :
  comments_wf cs = true ->
  (forall r, In r cs -> (keep r = false <-> in_chain cs s r)) ->
  remove_first (by_id c_id i) (filter keep cs)
  = filter (fun r => negb (by_id c_id i r)
                     && negb (in_chainb (List.length cs) cs s r)) cs.
Proof.
  intros Hwf Hkeep.
  pose proof (comments_wf_forest _ Hwf) as (Hnd & _).
  rewrite remove_first_filter by now apply NoDup_map_filter.
  rewrite filter_twice. apply filter_ext_in. intros r Hr.
  rewrite andb_comm. f_equal.
  destruct (keep r) eqn:K;
    destruct (in_chainb (List.length cs) cs s r) eqn:B;
    try reflexivity; exfalso.
  - apply in_chainb_iff in B; try assumption.
    apply Hkeep in B; [congruence|assumption].
  - apply Hkeep in K; [|assumption].
    apply (in_chainb_iff cs _ r Hwf Hr) in K. congruence.
Qed.

Lemma cascade_removed_count cs c s :
  comments_wf cs = true -> In c cs -> ~ in_chain cs s c ->
  List.length
    (filter (fun r => negb (by_id c_id (c_id c) r)
                      && negb (in_chainb (List.length cs) cs s r)) cs)
  + (List.length (descendants cs s) + 1)
  = List.length cs.
Proof.
  intros Hwf Hc Hown.
  pose proof (comments_wf_forest _ Hwf) as Hf.
  pose proof Hf as (Hnd & _).
  pose proof (filter_split_length
    (fun r => negb (by_id c_id (c_id c) r)
              && negb (in_chainb (List.length cs) cs s r)) cs)
    as Hsplit.
  assert (Hrem :
    List.length (filter (fun r => negb (negb (by_id c_id (c_id c) r)
              && negb (in_chainb (List.length cs) cs s r))) cs)
    = List.length (descendants cs s) + 1).
  { unfold descendants.
    rewrite (filter_ext _
      (fun r => in_chainb (List.length cs) cs s r || by_id c_id (c_id c) r)).
    - rewrite length_filter_or.
      + now rewrite (length_filter_by_id c_id c cs Hnd Hc).
      + intros r Hr B E. apply oid_eqb_eq in E.
        assert (r = c) by now apply (forest_same_id _ _ _ _ _ Hf).
        subst r. apply in_chainb_sound in B. contradiction.
    - intro r. rewrite negb_andb, !negb_involutive. apply orb_comm. }
  lia.
Qed.

(** [delete_comment] called with any spelling [s] of the id of a stored
    comment [c]: the comment goes, and with it what the queries reach
    from the string [s]. *)
Lemma delete_comment_spelled fuel db c s author_id is_admin :
  comments_wf (comments db) = true ->
  In c (comments db) ->
  ObjectId s = Ok (c_id c) ->
  ~ in_chain (comments db) s c ->
  delete_forbidden c author_id is_admin = false ->
  List.length (comments db) < fuel ->
  delete_comment fuel db s author_id is_admin
  = Some (true,
          with_comments db
            (filter (fun r => negb (by_id c_id (c_id c) r)
                              && negb (in_chainb (List.length (comments db))
                                         (comments db) s r))
               (comments db))).
Proof.
  intros Hwf Hc Hs Hown Hperm Hfuel.
  pose proof (comments_wf_forest _ Hwf) as Hf.
  pose proof Hf as (Hnd & _).
  pose proof (find_by_id_stored c_id c _ Hnd Hc) as Hfind.
  destruct (delete_comment_found fuel db s _ c author_id is_admin
              Hwf Hs Hfind Hperm Hfuel) as (keep & _ & Hkeep & Hdel).
  assert (Hkc : keep c = true).
  { destruct (keep c) eqn:K; [reflexivity|]. exfalso.
    apply Hown. now apply Hkeep. }
  rewrite Hdel. unfold deleted_count.
  rewrite (existsb_by_id c_id)
    by (apply in_map; apply filter_In; auto).
  now rewrite (cascade_removed_filter _ (c_id c) s keep Hwf Hkeep).
Qed.

(** The store [respelled_db] is what [create_comment] makes of the sample
    store when Bob answers [c1] under the upper-case spelling of its id. *)
Example respelled_reply_accepted :
  create_comment Sample.db respelled_request (str Sample.bob_id) 5%Z c5_id
  = (Ok (Some (stored_view respelled_db c5)), respelled_db)
  /\ answers Sample.c1 c5 = true
  /\ comments_wf (comments respelled_db) = true
  /\ replies_after (comments respelled_db) = true
  /\ authors_readable (comments respelled_db) = true.
Proof. repeat split; reflexivity. Qed.

(** C1. [delete_comment] does not remove every reply below the comment.
    It is called with an id string [s] and removes the comment [c] that
    [ObjectId(s)] names together with the comments its queries reach by
    comparing stored [parent_id] strings with [s]. A reply [r] that
    [create_comment] accepted for [c] under another spelling of the id
    than [s] is not reached: the delete succeeds, [c] is gone, and [r]
    stays in storage with [c] in its ancestor chain, so fewer than N+1
    comments are removed. *)
Theorem delete_comment_leaves_respelled_replies
  fuel db c r s author_id is_admin :
  comments_wf (comments db) = true ->
  replies_after (comments db) = true ->
  In c (comments db) -> In r (comments db) ->
  ObjectId s = Ok (c_id c) ->
  answers c r = true ->
  c_parent_id r <> Some s ->
  delete_forbidden c author_id is_admin = false ->
  List.length (comments db) < fuel ->
  exists db',
    delete_comment fuel db s author_id is_admin = Some (true, db')
    /\ comments db'
       = filter (fun x => negb (by_id c_id (c_id c) x)
                          && negb (in_chainb (List.length (comments db))
                                     (comments db) s x))
           (comments db)
    /\ ~ In c (comments db')
    /\ In r (comments db')
    /\ descends (comments db') c r
    /\ List.length (comments db')
       + (List.length (descendants (comments db) s) + 1)
       = List.length (comments db).
Proof.
  intros Hwf Hra Hc Hr Hs Ha Hne Hperm Hfuel.
  pose proof (not_reached_from_own_id _ c s Hwf Hra Hc Hs) as Hown.
  pose proof (respelled_reply_unreached _ c r s Hwf Hra Hc Hr Hs Ha Hne)
    as Hout.
  eexists. split.
  { exact (delete_comment_spelled fuel db c s author_id is_admin
             Hwf Hc Hs Hown Hperm Hfuel). }
  cbn [comments with_comments].
  split; [reflexivity|].
  split.
  { intro H. apply filter_In in H. destruct H as [_ H].
    unfold by_id in H. now rewrite oid_eqb_refl in H. }
  split.
  { apply filter_In. split; [exact Hr|]. apply andb_true_iff. split.
    - apply negb_true_iff. unfold by_id. apply not_true_is_false. intro E.
      apply oid_eqb_eq in E.
      now apply (answers_not_self _ c r Hwf Hra Hc Hr Ha).
    - apply negb_true_iff. apply not_true_is_false. intro B.
      apply Hout. now apply (in_chainb_iff _ _ _ Hwf Hr). }
  split; [now apply descends_reply|].
  now apply cascade_removed_count.
Qed.

Lemma delete_comment_leaves_respelled_replies_witness :
  exists db',
    delete_comment 6 respelled_db (str Sample.c1_id)
      (Some (cu_id Sample.alice)) false
    = Some (true, db')
    /\ comments db'
       = filter (fun x => negb (by_id c_id (c_id Sample.c1) x)
                          && negb (in_chainb (List.length (comments respelled_db))
                                     (comments respelled_db)
                                     (str Sample.c1_id) x))
           (comments respelled_db)
    /\ ~ In Sample.c1 (comments db')
    /\ In c5 (comments db')
    /\ descends (comments db') Sample.c1 c5
    /\ List.length (comments db')
       + (List.length (descendants (comments respelled_db) (str Sample.c1_id)) + 1)
       = List.length (comments respelled_db).
Proof.
  apply (delete_comment_leaves_respelled_replies 6 respelled_db Sample.c1 c5
           (str Sample.c1_id) (Some (cu_id Sample.alice)) false).
  - reflexivity.
  - reflexivity.
  - simpl. tauto.
  - simpl. tauto.
  - reflexivity.
  - reflexivity.
  - discriminate.
  - reflexivity.
  - simpl. lia.
Defined.

(** The same defect from the other side: the delete is sent under the
    upper-case spelling of the id of [c1]; it succeeds and removes [c1]
    alone, and the replies [c2] and [c3], stored under the lower-case
    spelling, stay. *)
Example delete_under_other_spelling :
  ObjectId Sample.c1_id_upper = Ok Sample.c1_id
  /\ option_map (fun r => (fst r, comments (snd r)))
       (delete_comment 5 Sample.db Sample.c1_id_upper
          (Some (cu_id Sample.alice)) false)
     = Some (true, [Sample.c2; Sample.c3; Sample.c4])
  /\ answers Sample.c1 Sample.c2 = true.
Proof. repeat split; reflexivity. Qed.

(* ------------------------------------------------------------------ *)
(** ** The reply tree and the spelling of ids                          *)
(* ------------------------------------------------------------------ *)

Lemma for_append_inv {D B} (body : D -> option (option B)) (R : B -> Prop) l :
  forall out,
  for_append body l = Some out ->
  (forall d b, In d l -> body d = Some (Some b) -> R b) ->
  Forall R out.
Proof.
  induction l as [|d l IH]; intros out H HR.
  - injection H as <-. constructor.
  - cbn [for_append] in H.
    destruct (body d) as [[b|]|] eqn:Hb; [| |discriminate];
      (destruct (for_append body l) as [out'|] eqn:Hl; [|discriminate]);
      injection H as <-.
    + constructor.
      * apply (HR d b); [now left|assumption].
      * apply IH; [reflexivity|]. intros e b' He. apply HR. now right.
    + apply IH; [reflexivity|]. intros e b' He. apply HR. now right.
Qed.

(** In the tree [get_comment_replies] returns, every view sits under the
    comment its [parent_id] string names. *)
Lemma get_comment_replies_nested fuel db :
  comments_wf (comments db) = true ->
  forall x replies,
    get_comment_replies fuel db x = Some replies -> nested_under x replies.
Proof.
  intro Hwf. pose proof (comments_wf_forest _ Hwf) as Hf.
  pose proof Hf as (Hnd & _).
  induction fuel as [|fuel IH]; intros x replies H; [discriminate|].
  cbn [get_comment_replies] in H.
  constructor. apply Forall_forall.
  apply (for_append_inv _ _ _ _ H).
  intros d b Hd Hb.
  apply sort_by_In in Hd. apply filter_In in Hd. destruct Hd as [Hd Hx].
  apply child_of_iff in Hx.
  destruct (found (get_comment_by_id db (str (c_id d)))) as [full|] eqn:G;
    [|discriminate].
  destruct (get_comment_by_id_inv db _ full G) as (i & c & Hs & Hfind & _ & ->).
  rewrite (forest_stored_id _ _ _ _ Hf Hd) in Hs. injection Hs as <-.
  rewrite (find_by_id_stored c_id d _ Hnd Hd) in Hfind. injection Hfind as <-.
  destruct (get_comment_replies fuel db (str (c_id d))) as [rs|] eqn:Hrs;
    [|discriminate].
  injection Hb as <-. split; [exact Hx|].
  exists rs. split; [reflexivity|]. now apply IH.
Qed.

(** C5. [get_comment_replies] does not return every comment below [x].
    Called with an id string [s] it returns, nested under the comment
    each names as parent and ascending by [created_at] at every level,
    exactly the stored comments its queries reach by comparing stored
    [parent_id] strings with [s] and with the rendered ids below. A reply
    [r] that [create_comment] accepted for the comment [c] that
    [ObjectId(s)] names, under another spelling of the id than [s], has
    [c] in its parent chain and is not in the result. *)
Theorem get_comment_replies_misses_respelled fuel db c r s :
  comments_wf (comments db) = true ->
  replies_after (comments db) = true ->
  authors_readable (comments db) = true ->
  In c (comments db) -> In r (comments db) ->
  ObjectId s = Ok (c_id c) ->
  answers c r = true ->
  c_parent_id r <> Some s ->
  List.length (comments db) < fuel ->
  exists replies,
    get_comment_replies fuel db s = Some replies
    /\ descends (comments db) c r
    /\ (forall v, In v (flatten replies) -> v_id v <> str (c_id r))
    /\ (forall x, In x (comments db) ->
          ((exists v, In v (flatten replies) /\ v_id v = str (c_id x))
           <-> in_chain (comments db) s x))
    /\ nested_under s replies
    /\ StronglySorted view_asc replies
    /\ (forall v rs, In v (flatten replies) -> v_replies v = Some rs ->
          StronglySorted view_asc rs).
Proof.
  intros Hwf Hra Hread Hc Hr Hs Ha Hne Hfuel.
  pose proof (comments_wf_forest _ Hwf) as Hf.
  pose proof (respelled_reply_unreached _ c r s Hwf Hra Hc Hr Hs Ha Hne)
    as Hout.
  destruct (get_comment_replies_wf fuel db s Hwf Hread Hfuel)
    as (replies & Hrun & H1 & H2 & H3 & H4).
  assert (Hiff : forall x, In x (comments db) ->
            ((exists v, In v (flatten replies) /\ v_id v = str (c_id x))
             <-> in_chain (comments db) s x)).
  { intros x Hx. split.
    - intros (v & Hv & Hid). destruct (H1 v Hv) as (c' & Hc' & Hch & Hid').
      assert (c' = x); [|now subst].
      apply (forest_same_id _ _ _ _ _ Hf); try assumption.
      unfold str in *. congruence.
    - now apply H2. }
  exists replies.
  split; [exact Hrun|].
  split; [now apply descends_reply|].
  split.
  { intros v Hv E. apply Hout. apply (Hiff r Hr). now exists v. }
  split; [exact Hiff|].
  split; [now apply (get_comment_replies_nested fuel db Hwf)|].
  split; assumption.
Qed.

Lemma get_comment_replies_misses_respelled_witness :
  exists replies,
    get_comment_replies 6 respelled_db (str Sample.c1_id) = Some replies
    /\ descends (comments respelled_db) Sample.c1 c5
    /\ (forall v, In v (flatten replies) -> v_id v <> str (c_id c5))
    /\ (forall x, In x (comments respelled_db) ->
          ((exists v, In v (flatten replies) /\ v_id v = str (c_id x))
           <-> in_chain (comments respelled_db) (str Sample.c1_id) x))
    /\ nested_under (str Sample.c1_id) replies
    /\ StronglySorted view_asc replies
    /\ (forall v rs, In v (flatten replies) -> v_replies v = Some rs ->
          StronglySorted view_asc rs).
Proof.
  apply (get_comment_replies_misses_respelled 6 respelled_db Sample.c1 c5
           (str Sample.c1_id)).
  - reflexivity.
  - reflexivity.
  - reflexivity.
  - simpl. tauto.
  - simpl. tauto.
  - reflexivity.
  - reflexivity.
  - discriminate.
  - simpl. lia.
Defined.

(** The tree fetched for [c1] in that store holds [c2] with [c3] nested in
    it, and not the reply [c5]. *)
Example replies_of_c1_without_c5 :
  option_map (map v_id) (get_comment_replies 6 respelled_db (str Sample.c1_id))
  = Some [str Sample.c2_id]
  /\ option_map (fun rs => map v_id (flatten rs))
       (get_comment_replies 6 respelled_db (str Sample.c1_id))
     = Some [str Sample.c2_id; str Sample.c3_id].
Proof. split; reflexivity. Qed.
(* ------------------------------------------------------------------ *)
(** ** Stored slugs outside the pattern                                *)
(* ------------------------------------------------------------------ *)

Lemma string_forallb_app p (a b : string) :
  string_forallb p (a ++ b) = string_forallb p a && string_forallb p b.
Proof.
  induction a as [|x a IH]; simpl; [reflexivity|].
  now rewrite IH, andb_assoc.
Qed.

Lemma slug_word_chars w :
  slug_word w ->
  string_forallb (fun a => is_slug_char a || Ascii.eqb a hyphen) w = true.
Proof.
  induction 1 as [a Ha|a w Ha _ IH]; simpl.
  - now rewrite Ha.
  - now rewrite Ha, IH.
Qed.

(** A word of the pattern holds letters, digits and hyphens only. *)
Lemma slug_lang_chars s :
  slug_lang s ->
  string_forallb (fun a => is_slug_char a || Ascii.eqb a hyphen) s = true.
Proof.
  induction 1 as [w Hw|w s Hw _ IH].
  - now apply slug_word_chars.
  - rewrite string_forallb_app. rewrite (slug_word_chars w Hw).
    simpl. exact IH.
Qed.

Lemma newline_not_slug t : ~ slug_lang (t ++ String newline EmptyString).
Proof.
  intro H. apply slug_lang_chars in H.
  rewrite string_forallb_app in H. apply andb_true_iff in H.
  destruct H as [_ H]. discriminate.
Qed.

Lemma truthy_app_char (t : string) a s : truthy (t ++ String a s) = true.
Proof. now destruct t. Qed.

Lemma find_by_slug_absent slug ps :
  ~ In slug (map p_slug ps) -> find (by_slug slug) ps = None.
Proof.
  intro H. destruct (find (by_slug slug) ps) as [p|] eqn:F; [|reflexivity].
  apply find_some in F. destruct F as [Hp E]. apply String.eqb_eq in E.
  exfalso. apply H. rewrite <- E. now apply in_map.
Qed.

Lemma create_post_stores slugify db post_data author_id now new_id slug :
  create_slug slugify post_data = Ok slug ->
  ~ In slug (map p_slug (posts db)) ->
  exists p,
    posts (snd (create_post slugify db post_data author_id now new_id))
    = posts db ++ [p]
    /\ p_slug p = slug.
Proof.
  intros Hs Hfresh. unfold create_post. rewrite Hs. cbn [bind].
  rewrite (find_by_slug_absent slug _ Hfresh). cbn [snd posts with_posts].
  eexists. split; reflexivity.
Qed.

(** C7. The post store keeps slugs unique and refuses what it checks, but
    it does not keep every stored slug inside the pattern. In every state
    reached from an empty post store through [create_post] and
    [update_post]: no two posts share a slug; a stored slug is a word of
    the pattern, or such a word followed by a line feed, or what the slug
    utility derived from a title; a non-empty explicit slug that fails
    [is_valid_slug] is refused with "Invalid slug format" and a slug
    another post holds with "Post with this slug already exists". But
    [is_valid_slug] passes a word of the pattern followed by a line feed,
    since [$] under [re.match] also matches before a final line feed, and
    [create_post] stores that slug, which the pattern does not match; and
    a slug derived from the title is stored without any check. *)
Theorem stored_slugs_unique_unchecked slugify db :
  reachable slugify db ->
  slugs_unique (posts db)
  /\ Forall (fun p =>
               slug_lang (p_slug p)
               \/ (exists t, slug_lang t
                             /\ p_slug p = (t ++ String newline EmptyString)%string)
               \/ (exists title, p_slug p = slugify title))
       (posts db)
  /\ (forall post_data author_id now new_id s,
        pc_slug post_data = Some s -> truthy s = true ->
        is_valid_slug s = false ->
        create_post slugify db post_data author_id now new_id
        = (Raise invalid_slug, db))
  /\ (forall post_data author_id now new_id slug,
        create_slug slugify post_data = Ok slug ->
        In slug (map p_slug (posts db)) ->
        create_post slugify db post_data author_id now new_id
        = (Raise duplicate_slug, db))
  /\ (forall post_id i post post_data author_id now s,
        ObjectId post_id = Ok i ->
        find (by_id p_id i) (posts db) = Some post ->
        update_forbidden post author_id = false ->
        pu_slug post_data = Some s -> truthy s = true ->
        is_valid_slug s = false ->
        update_post slugify db post_id post_data author_id now
        = (Raise invalid_slug, db))
  /\ (forall post_id i post post_data author_id now s,
        ObjectId post_id = Ok i ->
        find (by_id p_id i) (posts db) = Some post ->
        update_forbidden post author_id = false ->
        pu_slug post_data = Some s -> is_valid_slug s = true ->
        s <> p_slug post ->
        In s (map p_slug (posts db)) ->
        update_post slugify db post_id post_data author_id now
        = (Raise duplicate_slug, db))
  /\ (forall post_data author_id now new_id t,
        slug_lang t ->
        pc_slug post_data = Some (t ++ String newline EmptyString)%string ->
        ~ In (t ++ String newline EmptyString)%string (map p_slug (posts db)) ->
        let db' := snd (create_post slugify db post_data author_id now new_id) in
        reachable slugify db'
        /\ exists p,
             posts db' = posts db ++ [p]
             /\ p_slug p = (t ++ String newline EmptyString)%string
             /\ is_valid_slug (p_slug p) = true
             /\ ~ slug_lang (p_slug p))
  /\ (forall post_data author_id now new_id,
        truthy_opt (pc_slug post_data) = false ->
        ~ In (slugify (pc_title post_data)) (map p_slug (posts db)) ->
        let db' := snd (create_post slugify db post_data author_id now new_id) in
        reachable slugify db'
        /\ exists p,
             posts db' = posts db ++ [p]
             /\ p_slug p = slugify (pc_title post_data)).
Proof.
  intro Hreach.
  destruct (reachable_slugs slugify db Hreach) as [Hu Ho].
  split; [exact Hu|].
  split.
  { eapply Forall_impl; [|exact Ho].
    intros p [H|(title & H)]; [|right; right; now exists title].
    destruct (proj1 (slug_match_pattern (p_slug p)) H) as [Hl|(t & E & Hl)].
    - now left.
    - right. left. now exists t. }
  split.
  { intros post_data author_id now new_id s Hs Ht Hv. unfold create_post.
    now rewrite (create_slug_malformed slugify post_data s Hs Ht Hv). }
  split.
  { intros post_data author_id now new_id slug Hs Hin. unfold create_post.
    rewrite Hs. simpl.
    destruct (find_by_slug_some slug (posts db) Hin) as (p & F). now rewrite F. }
  split.
  { intros post_id i post post_data author_id now s Hi Hf Hperm Hs Ht Hv.
    unfold update_post. rewrite Hi, Hf.
    change (truthy_opt author_id
            && negb (opt_string_eqb (Some (p_author_id post)) author_id))
      with (update_forbidden post author_id).
    rewrite Hperm. unfold update_slug. rewrite Hs, Ht, Hv. reflexivity. }
  split.
  { intros post_id i post post_data author_id now s Hi Hf Hperm Hs Hv Hne Hin.
    unfold update_post. rewrite Hi, Hf.
    change (truthy_opt author_id
            && negb (opt_string_eqb (Some (p_author_id post)) author_id))
      with (update_forbidden post author_id).
    rewrite Hperm. unfold update_slug. rewrite Hs.
    assert (Ht : truthy s = true) by (destruct s; [discriminate|reflexivity]).
    rewrite Ht, Hv. simpl.
    apply String.eqb_neq in Hne. rewrite Hne. simpl.
    destruct (find_by_slug_some s (posts db) Hin) as (p & F). now rewrite F. }
  split.
  { intros post_data author_id now new_id t Ht Hs Hfresh. cbv zeta.
    split; [apply reach_step with db; [assumption|apply op_create]|].
    assert (Hvalid : is_valid_slug (t ++ String newline EmptyString) = true)
      by (unfold is_valid_slug; now apply slug_lang_match).
    assert (Hslug : create_slug slugify post_data
                    = Ok (t ++ String newline EmptyString)%string).
    { unfold create_slug. rewrite Hs. cbn [truthy_opt default_arg].
      now rewrite truthy_app_char, Hvalid. }
    destruct (create_post_stores slugify db post_data author_id now new_id _
                Hslug Hfresh) as (p & Hp & E).
    exists p. rewrite E. repeat split; try assumption.
    apply newline_not_slug. }
  intros post_data author_id now new_id Ht Hfresh. cbv zeta.
  split; [apply reach_step with db; [assumption|apply op_create]|].
  apply create_post_stores; [|assumption].
  unfold create_slug, generate_slug. now rewrite Ht.
Qed.

Lemma stored_slugs_unique_unchecked_witness :
  reachable slugify_model newline_db
  /\ (exists p, posts newline_db = [p]
                /\ p_slug p = newline_slug
                /\ is_valid_slug (p_slug p) = true
                /\ ~ slug_lang (p_slug p)).
Proof.
  assert (H : reachable slugify_model empty_db) by now apply reach_empty.
  destruct (stored_slugs_unique_unchecked slugify_model empty_db H)
    as (_ & _ & _ & _ & _ & _ & Hnl & _).
  apply (Hnl (hello_world (Some newline_slug)) "0000000000000000000000a1" 0%Z
           "0000000000000000000000f1" "hello-world").
  - change "hello-world" with ("hello" ++ String hyphen "world")%string.
    apply lang_more; [|apply lang_word]; repeat constructor.
  - reflexivity.
  - simpl. tauto.
Defined.
(* ------------------------------------------------------------------ *)
(** ** Deleting a comment under any spelling of its id                 *)
(* ------------------------------------------------------------------ *)

Lemma replies_on_post_iff cs :
  replies_on_post cs = true
  <-> forall q r, In q cs -> In r cs ->
        answers q r = true -> c_post_id r = c_post_id q.
Proof.
  unfold replies_on_post. rewrite forallb_forall. split.
  - intros H q r Hq Hr Ha. specialize (H r Hr). rewrite forallb_forall in H.
    specialize (H q Hq). rewrite Ha in H. now apply String.eqb_eq.
  - intros H r Hr. apply forallb_forall. intros q Hq.
    destruct (answers q r) eqn:Ha; [|reflexivity].
    apply String.eqb_eq. now apply H.
Qed.

Lemma in_chain_on_post cs c s r :
  comments_wf cs = true -> replies_on_post cs = true ->
  In c cs -> In r cs ->
  ObjectId s = Ok (c_id c) -> in_chain cs s r ->
  c_post_id r = c_post_id c.
Proof.
  intros Hwf Hon Hc Hr Hs H.
  apply comments_wf_iff in Hwf. destruct Hwf as (Hcan & _ & _).
  rewrite Forall_forall in Hcan.
  pose proof (proj1 (replies_on_post_iff cs) Hon) as Hsame.
  induction H as [r Hp|r q Hq Hp _ IH].
  - apply Hsame; try assumption.
    unfold answers. rewrite Hp, Hs. apply oid_eqb_refl.
  - rewrite (Hsame q r Hq Hr); [now apply IH|].
    apply answers_child_of; [now apply Hcan|]. now apply child_of_iff.
Qed.

Lemma cascade_none_left cs K s :
  comments_wf cs = true ->
  (forall r, In r cs -> K r = true ->
     in_chainb (List.length cs) cs s r = false) ->
  forall r, In r (filter K cs) -> ~ in_chain (filter K cs) s r.
Proof.
  intros Hwf HK r Hr H. apply filter_In in Hr. destruct Hr as [Hr Kr].
  apply (in_chain_mono _ cs) in H.
  - apply (in_chainb_iff _ _ _ Hwf Hr) in H. rewrite (HK r Hr Kr) in H.
    discriminate.
  - intros d Hd. apply filter_In in Hd. tauto.
Qed.

Lemma respelled_reply_kept cs c r s :
  comments_wf cs = true -> replies_after cs = true ->
  In c cs -> In r cs ->
  ObjectId s = Ok (c_id c) ->
  answers c r = true -> c_parent_id r <> Some s ->
  negb (by_id c_id (c_id c) r) && negb (in_chainb (List.length cs) cs s r)
  = true.
Proof.
  intros Hwf Hra Hc Hr Hs Ha Hne. apply andb_true_iff. split.
  - apply negb_true_iff. unfold by_id. apply not_true_is_false. intro E.
    apply oid_eqb_eq in E.
    now apply (answers_not_self _ c r Hwf Hra Hc Hr Ha).
  - apply negb_true_iff. apply not_true_is_false. intro B.
    apply (respelled_reply_unreached _ c r s Hwf Hra Hc Hr Hs Ha Hne).
    now apply (in_chainb_iff _ _ _ Hwf Hr).
Qed.

(** X4. A permitted [delete_comment] under any spelling [s] of the id of a
    stored comment [c], in a well-formed store where every reply is stored
    after and on the post of the comment it answers: the comment count of
    the post of [c] drops by exactly N+1 and the count of every other post
    stays, N being the number of stored comments the queries reach from
    the string [s]. These are transitive replies to [c]; a reply to [c]
    stored under another spelling than [s] is not among them and stays. *)
Theorem delete_comment_count_by_post fuel db c s author_id is_admin :
  comments_wf (comments db) = true ->
  replies_after (comments db) = true ->
  replies_on_post (comments db) = true ->
  In c (comments db) ->
  ObjectId s = Ok (c_id c) ->
  delete_forbidden c author_id is_admin = false ->
  List.length (comments db) < fuel ->
  exists db',
    delete_comment fuel db s author_id is_admin = Some (true, db')
    /\ get_comments_count_by_post db' (c_post_id c)
       + (List.length (descendants (comments db) s) + 1)
       = get_comments_count_by_post db (c_post_id c)
    /\ (forall p, p <> c_post_id c ->
          get_comments_count_by_post db' p = get_comments_count_by_post db p)
    /\ (forall r, In r (descendants (comments db) s) ->
          descends (comments db) c r)
    /\ (forall r, In r (comments db) -> answers c r = true ->
          c_parent_id r <> Some s ->
          ~ In r (descendants (comments db) s) /\ In r (comments db')).
Proof.
  intros Hwf Hra Hon Hc Hs Hperm Hfuel.
  pose proof (not_reached_from_own_id _ c s Hwf Hra Hc Hs) as Hown.
  pose proof (delete_comment_spelled fuel db c s author_id is_admin
                Hwf Hc Hs Hown Hperm Hfuel) as Hdel.
  pose proof (cascade_removed_count _ c s Hwf Hc Hown) as Hcount.
  set (cs := comments db) in *.
  set (K := fun r => negb (by_id c_id (c_id c) r)
                     && negb (in_chainb (List.length cs) cs s r)) in *.
  assert (Hgone : forall r, In r cs -> K r = false -> c_post_id r = c_post_id c).
  { intros r Hr HK. unfold K in HK. apply andb_false_iff in HK.
    destruct HK as [HK|HK]; apply negb_false_iff in HK.
    - apply oid_eqb_eq in HK.
      pose proof (comments_wf_forest _ Hwf) as Hf.
      now rewrite (forest_same_id _ _ _ r c Hf Hr Hc HK).
    - apply in_chainb_sound in HK.
      now apply (in_chain_on_post cs c s r). }
  eexists. split; [exact Hdel|].
  unfold get_comments_count_by_post. cbn [comments with_comments]. fold cs.
  split.
  { pose proof (filter_split_length K (filter (on_post (c_post_id c)) cs)) as H1.
    pose proof (filter_split_length K cs) as H2.
    rewrite (filter_swap (on_post (c_post_id c)) K).
    assert (Hall : filter (fun d => negb (K d)) (filter (on_post (c_post_id c)) cs)
                   = filter (fun d => negb (K d)) cs).
    { rewrite filter_swap. apply filter_all. intros r Hr.
      apply filter_In in Hr. destruct Hr as [Hr HK].
      apply negb_true_iff in HK. unfold on_post. apply String.eqb_eq.
      now apply Hgone. }
    rewrite Hall in H1. lia. }
  split.
  { intros p Hp. rewrite (filter_swap (on_post p) K). f_equal.
    apply filter_all. intros r Hr. apply filter_In in Hr. destruct Hr as [Hr Hp'].
    destruct (K r) eqn:HK; [reflexivity|]. exfalso. apply Hp.
    apply String.eqb_eq in Hp'. rewrite <- Hp'. now apply Hgone. }
  split.
  { intros r Hr. unfold descendants in Hr. apply filter_In in Hr.
    destruct Hr as [Hr B]. apply in_chainb_sound in B.
    apply comments_wf_iff in Hwf. destruct Hwf as (Hcan & _ & _).
    now apply (in_chain_descends cs c s r). }
  intros r Hr Ha Hne.
  pose proof (respelled_reply_kept cs c r s Hwf Hra Hc Hr Hs Ha Hne) as Hk.
  split.
  - intro H. unfold descendants in H. apply filter_In in H. destruct H as [_ B].
    apply andb_true_iff in Hk. destruct Hk as [_ Hk]. fold cs in Hk.
    rewrite B in Hk. discriminate.
  - apply filter_In. split; [exact Hr|exact Hk].
Qed.

Lemma delete_comment_count_by_post_witness :
  exists db',
    delete_comment 6 respelled_db Sample.c1_id_upper None true = Some (true, db')
    /\ get_comments_count_by_post db' (c_post_id Sample.c1)
       + (List.length (descendants (comments respelled_db) Sample.c1_id_upper) + 1)
       = get_comments_count_by_post respelled_db (c_post_id Sample.c1)
    /\ (forall p, p <> c_post_id Sample.c1 ->
          get_comments_count_by_post db' p
          = get_comments_count_by_post respelled_db p)
    /\ (forall r, In r (descendants (comments respelled_db) Sample.c1_id_upper) ->
          descends (comments respelled_db) Sample.c1 r)
    /\ (forall r, In r (comments respelled_db) -> answers Sample.c1 r = true ->
          c_parent_id r <> Some Sample.c1_id_upper ->
          ~ In r (descendants (comments respelled_db) Sample.c1_id_upper)
          /\ In r (comments db')).
Proof.
  apply (delete_comment_count_by_post 6 respelled_db Sample.c1
           Sample.c1_id_upper None true).
  - reflexivity.
  - reflexivity.
  - reflexivity.
  - simpl. tauto.
  - reflexivity.
  - reflexivity.
  - simpl. lia.
Defined.

(** X24. [DELETE /comments/{id}] under any spelling [s] of the id of a
    stored comment [c], by an admin or by the user whose id is the stored
    [author_id], in a well-formed store where replies are stored after the
    comment they answer: the answer is 204, and the store that is left is
    the old one without [c] and without the comments the queries reach
    from the string [s]; it has N+1 comments fewer, N being the number of
    those, and holds none that is reached from [s]. A reply to [c] stored
    under another spelling than [s] is left in it. *)
Theorem delete_comment_route_permitted fuel db c s current_user :
  comments_wf (comments db) = true ->
  replies_after (comments db) = true ->
  authors_readable (comments db) = true ->
  In c (comments db) ->
  ObjectId s = Ok (c_id c) ->
  List.length (comments db) < fuel ->
  role_is "admin" current_user = true \/ c_author_id c = cu_id current_user ->
  let kept :=
    filter (fun r => negb (by_id c_id (c_id c) r)
                     && negb (in_chainb (List.length (comments db))
                                (comments db) s r))
      (comments db) in
  delete_comment_route fuel db s current_user
  = Some (Ok tt, with_comments db kept)
  /\ List.length kept + (List.length (descendants (comments db) s) + 1)
     = List.length (comments db)
  /\ (forall r, In r kept -> c_id r <> c_id c /\ ~ in_chain kept s r)
  /\ (forall r, In r (comments db) -> answers c r = true ->
        c_parent_id r <> Some s -> In r kept).
Proof.
  intros Hwf Hra Hread Hc Hs Hfuel Hwho. cbv zeta.
  pose proof (not_reached_from_own_id _ c s Hwf Hra Hc Hs) as Hown.
  set (is_admin := role_is "admin" current_user).
  set (author_id := if negb is_admin then Some (cu_id current_user) else None).
  assert (Hperm : delete_forbidden c author_id is_admin = false).
  { unfold delete_forbidden, author_id. destruct is_admin eqn:E; [reflexivity|].
    destruct Hwho as [H|H]; [unfold is_admin in E; congruence|].
    simpl. rewrite H, String.eqb_refl. simpl. apply andb_false_r. }
  split.
  { unfold delete_comment_route.
    pose proof (comments_wf_forest _ Hwf) as (Hnd & _).
    rewrite (get_comment_by_id_found db s (c_id c) c Hs
               (find_by_id_stored c_id c _ Hnd Hc)).
    - cbn [found]. fold is_admin. fold author_id.
      now rewrite (delete_comment_spelled fuel db c s author_id is_admin
                     Hwf Hc Hs Hown Hperm Hfuel).
    - unfold authors_readable in Hread. rewrite forallb_forall in Hread.
      now apply Hread. }
  split; [now apply cascade_removed_count|].
  split.
  { intros r Hr. split.
    - apply filter_In in Hr. destruct Hr as [_ Hk].
      apply andb_true_iff in Hk. destruct Hk as [Hk _].
      apply negb_true_iff in Hk. unfold by_id in Hk. intro E.
      rewrite E, oid_eqb_refl in Hk. discriminate.
    - revert r Hr. apply cascade_none_left; [assumption|].
      intros r _ Hk. apply andb_true_iff in Hk. destruct Hk as [_ Hk].
      now apply negb_true_iff in Hk. }
  intros r Hr Ha Hne. apply filter_In. split; [exact Hr|].
  now apply respelled_reply_kept.
Qed.

Lemma delete_comment_route_permitted_witness :
  let kept :=
    filter (fun r => negb (by_id c_id (c_id Sample.c1) r)
                     && negb (in_chainb (List.length (comments respelled_db))
                                (comments respelled_db) (str Sample.c1_id) r))
      (comments respelled_db) in
  delete_comment_route 6 respelled_db (str Sample.c1_id) Sample.carol_admin
  = Some (Ok tt, with_comments respelled_db kept)
  /\ List.length kept
     + (List.length (descendants (comments respelled_db) (str Sample.c1_id)) + 1)
     = List.length (comments respelled_db)
  /\ (forall r, In r kept ->
        c_id r <> c_id Sample.c1 /\ ~ in_chain kept (str Sample.c1_id) r)
  /\ (forall r, In r (comments respelled_db) -> answers Sample.c1 r = true ->
        c_parent_id r <> Some (str Sample.c1_id) -> In r kept).
Proof.
  apply (delete_comment_route_permitted 6 respelled_db Sample.c1
           (str Sample.c1_id) Sample.carol_admin).
  - reflexivity.
  - reflexivity.
  - reflexivity.
  - simpl. tauto.
  - reflexivity.
  - simpl. lia.
  - left. reflexivity.
Defined.

(** In the sample store with the reply [c5], the delete of [c1] by its
    lower-case id leaves [c4] and [c5]; by its upper-case id it leaves
    [c2], [c3] and [c4]. *)
Example delete_c1_two_spellings :
  option_map (fun r => map c_id (comments (snd r)))
    (delete_comment_route 6 respelled_db (str Sample.c1_id) Sample.carol_admin)
  = Some [Sample.c4_id; c5_id]
  /\ option_map (fun r => map c_id (comments (snd r)))
       (delete_comment_route 6 respelled_db Sample.c1_id_upper Sample.carol_admin)
     = Some [Sample.c2_id; Sample.c3_id; Sample.c4_id].
Proof. split; reflexivity. Qed.
(* ------------------------------------------------------------------ *)
(** ** Listing requests that are refused                               *)
(* ------------------------------------------------------------------ *)

Lemma pagination_params_absent limit offset :
  limit = None \/ offset = None ->
  pagination_params limit offset = Raise RequestValidationError.
Proof.
  intros [->| ->]; [reflexivity|]. now destruct limit.
Qed.

(** No listing route supplies a default for [limit] or [offset]: a
    request that leaves one of them out is refused with a validation
    error by [GET /posts], [GET /posts/{id}/comments], [GET /users/me/posts]
    and [GET /users/me/comments], whatever else it carries and whatever is
    stored; and [GET /posts] refuses in the same way a request that leaves
    out one of [status], [tag] and [author_id]. *)
Lemma listing_without_parameters_refused
  fuel db current_user post_id limit offset include_replies status tag author_id :
  (limit = None \/ offset = None ->
   get_posts_route db limit offset status tag author_id
   = Raise RequestValidationError
   /\ get_post_comments fuel db post_id limit offset include_replies
      = Some (Raise RequestValidationError)
   /\ read_users_me_posts db current_user limit offset
      = Raise RequestValidationError
   /\ read_users_me_comments db current_user limit offset
      = Raise RequestValidationError)
  /\ (status = None \/ tag = None \/ author_id = None ->
      get_posts_route db limit offset status tag author_id
      = Raise RequestValidationError).
Proof.
  split.
  - intro H. apply pagination_params_absent in H.
    unfold get_posts_route, get_post_comments, read_users_me_posts,
      read_users_me_comments. rewrite H. repeat split.
  - intro H. unfold get_posts_route.
    destruct (pagination_params limit offset) as [pg|e] eqn:Hpg.
    + cbn [bind]. unfold post_filter_params.
      destruct H as [->|[->| ->]]; [reflexivity| |].
      * now destruct status.
      * now destruct status, tag.
    + cbn [bind]. f_equal. unfold pagination_params in Hpg.
      destruct limit as [limit|]; [|now injection Hpg as <-].
      destruct offset as [offset|]; [|now injection Hpg as <-].
      destruct (negb _); [now injection Hpg as <-|].
      destruct (negb _); [now injection Hpg as <-|discriminate].
Qed.

(** A request with [limit] and [offset] is served: the two newest of the
    four comments of the sample post, without replies. *)
Example post_comments_served :
  option_map
    (fun r => match r with
              | Ok l => Some (l_total l, l_limit l, map cm_id (l_items l))
              | Raise _ => None
              end)
    (get_post_comments 5 Sample.db (str Sample.post_id) (Some 2%Z) (Some 0%Z)
       (Some true))
  = Some (Some (4, 2%Z, [str Sample.c4_id; str Sample.c3_id])).
Proof. reflexivity. Qed.
